(** * Alarm derivation of the observability automation (build_alarm_config)

    A shallow embedding of [lambda/functions/build_alarm_config/app.py] and of
    [lambda/functions/configure_ec2/app.py] ([wait_for_command] and, in the
    module [ConfigureEc2], the handler with its two checks), with the
    properties of the derivation pipeline stated over it.

    Modelling conventions.
    - Python values that travel through the pipeline (tag values, template
      attributes, event entries) are scalars: [None], booleans, integers and
      strings (no floating-point number).  Strings are byte strings; [str.lower] is modelled on the ASCII
      letters, which is exact for every comparison against ["true"] (no
      non-ASCII code point lowercases to one of t, r, u, e); whitespace and
      line boundaries are the ASCII ones.
    - A Python [dict] with string keys is a [gmap string pyval]; the tag map
      and a disk descriptor, whose iteration order the code relies on, are
      association lists in [items()] order.
    - Exceptions are values of [exc]; a computation that may raise returns
      [result].  Logging is not modelled.
    - The template catalog, the SSM command service and the EC2 platform
      reader are arguments of the functions that consult them. *)

From Stdlib Require Import ZArith String Ascii DecimalString.
From stdpp Require Import gmap strings list fin_maps.

Local Open Scope string_scope.

(** ** Python scalars *)

Inductive pyval : Type :=
  | PNone
  | PBool (b : bool)
  | PInt (z : Z)
  | PStr (s : string).

#[global] Instance pyval_eq_dec : EqDecision pyval.
Proof. solve_decision. Defined.

#[global] Instance pyval_inhabited : Inhabited pyval := populate PNone.

(** [str(v)] *)
Definition py_str (v : pyval) : string :=
  match v with
  | PNone => "None"
  | PBool true => "True"
  | PBool false => "False"
  | PInt z => NilZero.string_of_int (Z.to_int z)
  | PStr s => s
  end.

(** [bool(v)]: the truth value used by [if v:] and [not v]. *)
Definition py_truthy (v : pyval) : bool :=
  match v with
  | PNone => false
  | PBool b => b
  | PInt z => negb (z =? 0)%Z
  | PStr s => negb (String.eqb s "")
  end.

Definition Z_of_bool (b : bool) : Z := if b then 1%Z else 0%Z.

(** [a == b]; a boolean compares as the integer it is. *)
Definition py_eq (a b : pyval) : bool :=
  match a, b with
  | PNone, PNone => true
  | PBool x, PBool y => Bool.eqb x y
  | PInt x, PInt y => (x =? y)%Z
  | PBool x, PInt y => (Z_of_bool x =? y)%Z
  | PInt x, PBool y => (x =? Z_of_bool y)%Z
  | PStr x, PStr y => String.eqb x y
  | _, _ => false
  end.

(** ** Strings *)

Definition lower_ascii (c : ascii) : ascii :=
  let n := nat_of_ascii c in
  if Nat.leb 65 n && Nat.leb n 90 then ascii_of_nat (n + 32) else c.

(** [s.lower()] *)
Fixpoint lower (s : string) : string :=
  match s with
  | EmptyString => EmptyString
  | String c r => String (lower_ascii c) (lower r)
  end.

(** [s.split(sep)] for a one-character separator. *)
Fixpoint split_on (sep : ascii) (s : string) : list string :=
  match s with
  | EmptyString => [EmptyString]
  | String c r =>
      if Ascii.eqb c sep then EmptyString :: split_on sep r
      else match split_on sep r with
           | hd :: tl => String c hd :: tl
           | [] => [String c EmptyString]
           end
  end.

(** [str.isspace] on one ASCII character: tab, LF, VT, FF, CR, the four
    separators FS GS RS US, and the space. *)
Definition is_space (c : ascii) : bool :=
  let n := nat_of_ascii c in
  (Nat.leb 9 n && Nat.leb n 13) || (Nat.leb 28 n && Nat.leb n 32).

(** The ASCII line boundaries of [str.splitlines]. *)
Definition is_linebreak (c : ascii) : bool :=
  let n := nat_of_ascii c in
  (Nat.leb 10 n && Nat.leb n 13) || (Nat.leb 28 n && Nat.leb n 30).

Definition CR : ascii := ascii_of_nat 13.
Definition LF : ascii := ascii_of_nat 10.

(** [s.splitlines()]: CR LF counts as one boundary and a final boundary
    opens no further line.  [cur] is the current line, reversed;
    [after_cr] tells that the previous character was a CR. *)
Fixpoint splitlines_aux (cur : list ascii) (after_cr : bool) (s : list ascii)
  : list (list ascii) :=
  match s with
  | [] => match cur with [] => [] | _ => [rev cur] end
  | c :: r =>
      if after_cr && Ascii.eqb c LF then splitlines_aux [] false r
      else if is_linebreak c then rev cur :: splitlines_aux [] (Ascii.eqb c CR) r
      else splitlines_aux (c :: cur) false r
  end.

Definition splitlines (s : string) : list (list ascii) :=
  splitlines_aux [] false (list_ascii_of_string s).

Fixpoint drop_space (s : list ascii) : list ascii :=
  match s with
  | c :: r => if is_space c then drop_space r else s
  | [] => []
  end.

(** [line.strip()] *)
Definition strip (s : list ascii) : list ascii :=
  rev (drop_space (rev (drop_space s))).

(** [line.split()]: fields separated by runs of whitespace. *)
Fixpoint split_ws_aux (cur : list ascii) (s : list ascii) : list (list ascii) :=
  match s with
  | [] => match cur with [] => [] | _ => [rev cur] end
  | c :: r =>
      if is_space c then
        match cur with
        | [] => split_ws_aux [] r
        | _ => rev cur :: split_ws_aux [] r
        end
      else split_ws_aux (c :: cur) r
  end.

Definition split_ws (s : list ascii) : list string :=
  map string_of_list_ascii (split_ws_aux [] s).

(** [os.path.basename(p)]: what follows the last slash. *)
Definition basename (p : string) : string :=
  List.last (split_on "/"%char p) EmptyString.

(** ** Exceptions *)

Inductive exc : Type :=
  | KeyError (key : string)
  | ClientError (code : string)
  | TimeoutError.

Inductive result (A : Type) : Type :=
  | Ok (a : A)
  | Raise (e : exc).
Arguments Ok {A} a.
Arguments Raise {A} e.

(** The exception monad; computations are sequenced with stdpp's
    [x ← m; k]. *)
#[global] Instance result_ret : MRet result := fun _ a => Ok a.
#[global] Instance result_bind : MBind result := fun _ _ k m =>
  match m with
  | Ok a => k a
  | Raise e => Raise e
  end.

(** [d[key]] *)
Definition getitem (d : gmap string pyval) (key : string) : result pyval :=
  match d !! key with
  | Some v => Ok v
  | None => Raise (KeyError key)
  end.

(** [d.get(key, dflt)] *)
Definition get_or (d : gmap string pyval) (key : string) (dflt : pyval) : pyval :=
  default dflt (d !! key).

(** [d.get(key)] *)
Definition get (d : gmap string pyval) (key : string) : pyval := get_or d key PNone.

(** ** Data model *)

(** An entry of a template's [thresholds] list: a record, a sequence
    [(priority, value, ...)], or anything else. *)
Inductive tier : Type :=
  | TDict (t : gmap string pyval)
  | TSeq (t : list pyval)
  | TScalar (t : pyval).

(** An entry of a template's [dimensions] list. *)
Inductive dimension_entry : Type :=
  | DDict (dim : gmap string pyval)
  | DScalar (dim : pyval).

(** The catalog record of one (service, metric_name). *)
Module AlarmConfigTable.
Record t : Type := Build {
  namespace : pyval;
  alarm_description : pyval;
  comparison_operator : pyval;
  actions_enabled : pyval;
  thresholds : list tier;
  dimensions : list dimension_entry;
  datapoints_to_alarm : pyval;
  evaluation_periods : pyval;
  period : pyval;
  treat_missing_data : pyval;
  statistic : pyval
}.
End AlarmConfigTable.

(** The event the handler receives: its top-level scalar entries
    (account, region, account_alias, service, resource_type, resource_id,
    identifier, cloudwatch, ...), the tag map [event.get("detail",
    {}).get("tags", {})] and the metadata map [event.get("metadata", {})]. *)
Record event : Type := {
  entries : gmap string pyval;
  tags : list (string * pyval);
  metadata : gmap string pyval
}.

(** A disk descriptor in [items()] order. *)
Definition disk_descriptor : Type := list (string * string).

(** The alarm definition under construction and as emitted; a key the
    Python dict does not hold yet is [None]. *)
Record item : Type := {
  priority : string;
  metric : string;
  service : string;
  threshold : pyval;
  actions_enabled : pyval;
  comparison_operator : pyval;
  datapoints_to_alarm : pyval;
  dimensions : list (gmap string pyval);
  evaluation_periods : pyval;
  namespace : pyval;
  period : pyval;
  statistic : pyval;
  treat_missing_data : pyval;
  alarm_description : pyval;
  criticality : option pyval;
  alarm_name : option string;
  action_topic_arn : option (list string)
}.

Definition set_threshold (v : pyval) (it : item) : item :=
  {| priority := priority it; metric := metric it; service := service it;
     threshold := v;
     actions_enabled := actions_enabled it;
     comparison_operator := comparison_operator it;
     datapoints_to_alarm := datapoints_to_alarm it;
     dimensions := dimensions it;
     evaluation_periods := evaluation_periods it;
     namespace := namespace it; period := period it;
     statistic := statistic it;
     treat_missing_data := treat_missing_data it;
     alarm_description := alarm_description it;
     criticality := criticality it;
     alarm_name := alarm_name it;
     action_topic_arn := action_topic_arn it |}.

Definition set_criticality (c : pyval) (it : item) : item :=
  {| priority := priority it; metric := metric it; service := service it;
     threshold := threshold it;
     actions_enabled := actions_enabled it;
     comparison_operator := comparison_operator it;
     datapoints_to_alarm := datapoints_to_alarm it;
     dimensions := dimensions it;
     evaluation_periods := evaluation_periods it;
     namespace := namespace it; period := period it;
     statistic := statistic it;
     treat_missing_data := treat_missing_data it;
     alarm_description := alarm_description it;
     criticality := Some c;
     alarm_name := alarm_name it;
     action_topic_arn := action_topic_arn it |}.

Definition set_dimensions (ds : list (gmap string pyval)) (it : item) : item :=
  {| priority := priority it; metric := metric it; service := service it;
     threshold := threshold it;
     actions_enabled := actions_enabled it;
     comparison_operator := comparison_operator it;
     datapoints_to_alarm := datapoints_to_alarm it;
     dimensions := ds;
     evaluation_periods := evaluation_periods it;
     namespace := namespace it; period := period it;
     statistic := statistic it;
     treat_missing_data := treat_missing_data it;
     alarm_description := alarm_description it;
     criticality := criticality it;
     alarm_name := alarm_name it;
     action_topic_arn := action_topic_arn it |}.

Definition set_alarm_name (n : string) (it : item) : item :=
  {| priority := priority it; metric := metric it; service := service it;
     threshold := threshold it;
     actions_enabled := actions_enabled it;
     comparison_operator := comparison_operator it;
     datapoints_to_alarm := datapoints_to_alarm it;
     dimensions := dimensions it;
     evaluation_periods := evaluation_periods it;
     namespace := namespace it; period := period it;
     statistic := statistic it;
     treat_missing_data := treat_missing_data it;
     alarm_description := alarm_description it;
     criticality := criticality it;
     alarm_name := Some n;
     action_topic_arn := action_topic_arn it |}.

Definition set_action_topic_arn (a : list string) (it : item) : item :=
  {| priority := priority it; metric := metric it; service := service it;
     threshold := threshold it;
     actions_enabled := actions_enabled it;
     comparison_operator := comparison_operator it;
     datapoints_to_alarm := datapoints_to_alarm it;
     dimensions := dimensions it;
     evaluation_periods := evaluation_periods it;
     namespace := namespace it; period := period it;
     statistic := statistic it;
     treat_missing_data := treat_missing_data it;
     alarm_description := alarm_description it;
     criticality := criticality it;
     alarm_name := alarm_name it;
     action_topic_arn := Some a |}.

(** [item.setdefault("criticality", c)] *)
Definition setdefault_criticality (c : pyval) (it : item) : item :=
  match criticality it with
  | Some _ => it
  | None => set_criticality c it
  end.

(** The environment-driven constants the derivation reads. *)
Record config : Type := {
  EC2LINUXDISK_TAG : option string;
  EC2WINDOWSDISK_TAG : option string
}.

(** [metric in [EC2LINUXDISK_TAG, EC2WINDOWSDISK_TAG]] *)
Definition is_disk_metric (cfg : config) (m : string) : bool :=
  bool_decide (EC2LINUXDISK_TAG cfg = Some m)
  || bool_decide (EC2WINDOWSDISK_TAG cfg = Some m).

(** The template catalog: [load_table_item], with every failure of the
    store already turned into [None] as the source does. *)
Definition catalog : Type := string -> string -> option AlarmConfigTable.t.

(** ** The resolver: [get_table_item] and the two builders *)

(** [str(v).lower() == "true"] *)
Definition lower_is_true (v : pyval) : bool :=
  String.eqb (lower (py_str v)) "true".

(** One iteration of the loop over [table_item.thresholds].  No operation
    in the body raises on the modelled values, so the [except] branch of
    the source is never taken. *)
Definition apply_threshold (priority_token : string) (it : item) (t : tier) : item :=
  match t with
  | TDict t =>
      if py_eq (get t "priority") (PStr priority_token) then
        let it :=
          match t !! "threshold" with
          | Some v => if lower_is_true (threshold it) then set_threshold v it else it
          | None => it
          end in
        match t !! "criticality" with
        | Some c => set_criticality c it
        | None => it
        end
      else it
  | TSeq (prio :: value :: _) =>
      if py_eq prio (PStr priority_token) && lower_is_true (threshold it)
      then setdefault_criticality (PStr priority_token) (set_threshold value it)
      else it
  | TSeq _ => it
  | TScalar _ => it
  end.

Definition apply_thresholds (priority_token : string) (ts : list tier) (it : item) : item :=
  fold_left (apply_threshold priority_token) ts it.

(** The two assignments to [dim["Value"]]: the identifier first, the
    metadata map otherwise. *)
Definition bind_dimension (identifier resource_id : pyval)
    (md : gmap string pyval) (dim : gmap string pyval) : gmap string pyval :=
  if py_eq (get dim "Name") identifier then <["Value" := resource_id]> dim
  else
    match get dim "Name" with
    | PStr n =>
        match md !! n with
        | Some v => <["Value" := v]> dim
        | None => dim
        end
    | _ => dim
    end.

(** One iteration of the loop that builds [new_dimensions]. *)
Definition bind_step (identifier resource_id : pyval) (md : gmap string pyval)
    (new_dimensions : list (gmap string pyval)) (e : dimension_entry)
  : list (gmap string pyval) :=
  match e with
  | DScalar _ => new_dimensions
  | DDict dim =>
      let dim := bind_dimension identifier resource_id md dim in
      if bool_decide (is_Some (dim !! "Value")) then (new_dimensions ++ [dim])%list
      else new_dimensions
  end.

(** [{"Name": key, "Value": value}] *)
Definition name_value (key value : pyval) : gmap string pyval :=
  <["Name" := key]> (<["Value" := value]> ∅).

(** The dimensions appended for a disk: none unless [disk] is a non-empty
    descriptor and the metric is one of the two disk metrics. *)
Definition disk_dimensions (cfg : config) (m : string) (disk : option disk_descriptor)
  : list (gmap string pyval) :=
  match disk with
  | Some ((_ :: _) as fields) =>
      if is_disk_metric cfg m
      then map (fun kv => name_value (PStr kv.1) (PStr kv.2)) fields
      else []
  | _ => []
  end.

Definition target_names : list string := ["path"; "LogicalDisk"].

(** [dim.get("Name") in target_names] *)
Definition is_target (dim : gmap string pyval) : bool :=
  match get dim "Name" with
  | PStr n => bool_decide (n ∈ target_names)
  | _ => false
  end.

(** [event.get(key, '')] rendered by an f-string. *)
Definition fmt_entry (ev : event) (key : string) : string :=
  py_str (get_or (entries ev) key (PStr "")).

Definition build_alarm_name (ev : event) (it : item) : result string :=
  let dims := dimensions it in
  found_value ←
    match List.find is_target dims with
    | Some dim => getitem dim "Value"
    | None => Ok PNone
    end;
  let stem :=
    fmt_entry ev "account_alias" ++ "-" ++ fmt_entry ev "account" ++ "-"
    ++ fmt_entry ev "service" ++ "-" ++ fmt_entry ev "resource_type" ++ "-"
    ++ fmt_entry ev "resource_id" ++ "-" ++ metric it ++ "-" in
  let severity := "Severity: " ++ py_str (default (PStr "") (criticality it)) in
  if py_truthy found_value
  then Ok (stem ++ "'" ++ py_str found_value ++ "'-" ++ severity)
  else Ok (stem ++ severity).

Definition build_action_topic_arn (ev : event) (it : item) : result (list string) :=
  region ← getitem (entries ev) "region";
  account ← getitem (entries ev) "account";
  Ok ["arn:aws:sns:" ++ py_str region ++ ":" ++ py_str account ++ ":"
      ++ "Rebura-CentralisedObservabilityAutomationTopic" ++ priority it
      ++ "-" ++ py_str region].

Section Resolver.
Variable cfg : config.
Variable load_table_item : catalog.

(** The item seeded from the template, before the two loops.  In the
    source its [dimensions] hold a copy of the template's list until the
    dimension loop has replaced it; nothing reads the entry in between, and
    the loop below takes the list from the template. *)
Definition base_item (table_item : AlarmConfigTable.t)
    (service metric priority_token : string) (tag_value : pyval) : item :=
  {| priority := priority_token;
     metric := metric;
     service := service;
     threshold := tag_value;
     actions_enabled := AlarmConfigTable.actions_enabled table_item;
     comparison_operator := AlarmConfigTable.comparison_operator table_item;
     datapoints_to_alarm := AlarmConfigTable.datapoints_to_alarm table_item;
     dimensions := [];
     evaluation_periods := AlarmConfigTable.evaluation_periods table_item;
     namespace := AlarmConfigTable.namespace table_item;
     period := AlarmConfigTable.period table_item;
     statistic := AlarmConfigTable.statistic table_item;
     treat_missing_data := AlarmConfigTable.treat_missing_data table_item;
     alarm_description := AlarmConfigTable.alarm_description table_item;
     criticality := None;
     alarm_name := None;
     action_topic_arn := None |}.

Definition get_table_item (service metric priority_token : string)
    (tag_value identifier resource_id : pyval) (ev : event)
    (disk : option disk_descriptor) : result (option item) :=
  match load_table_item service metric with
  | None => Ok None
  | Some table_item =>
      let it := base_item table_item service metric priority_token tag_value in
      let it := apply_thresholds priority_token
                  (AlarmConfigTable.thresholds table_item) it in
      let it := setdefault_criticality (PStr priority_token) it in
      let new_dimensions :=
        fold_left (bind_step identifier resource_id (metadata ev))
                  (AlarmConfigTable.dimensions table_item) [] in
      let new_dimensions :=
        (new_dimensions ++ disk_dimensions cfg metric disk)%list in
      let it := set_dimensions new_dimensions it in
      name ← build_alarm_name ev it;
      let it := set_alarm_name name it in
      arn ← build_action_topic_arn ev it;
      Ok (Some (set_action_topic_arn arn it))
  end.
End Resolver.

(** ** The orchestrator: [get_alarms] *)

(** A disk-metric request set aside by the tag loop. *)
Record meta_data : Type := {
  md_service : string;
  md_metric : string;
  md_priority_token : string;
  md_tag_value : pyval
}.

(** [parts[-3], parts[-2], parts[-1]] of a tag key that has at least three
    colon-separated parts and ends in a priority token. *)
Definition parse_tag_key (tag_key : string) : option (string * string * string) :=
  match rev (split_on ":"%char tag_key) with
  | priority_token :: metric :: service :: _ =>
      if bool_decide (priority_token ∈ ["P1"; "P2"; "P3"])
      then Some (service, metric, priority_token)
      else None
  | _ => None
  end.

Section Orchestrator.
Variable cfg : config.
Variable load_table_item : catalog.

(** The loop over [tags.items()], threading [alarms] and
    [disk_meta_data]. *)
Fixpoint tag_loop (identifier resource_id : pyval) (ev : event)
    (tags : list (string * pyval))
    (alarms : list item) (disk_meta_data : list meta_data)
  : result (list item * list meta_data) :=
  match tags with
  | [] => Ok (alarms, disk_meta_data)
  | (tag_key, tag_value) :: rest =>
      match parse_tag_key tag_key with
      | None => tag_loop identifier resource_id ev rest alarms disk_meta_data
      | Some (service, metric, priority_token) =>
          if is_disk_metric cfg metric then
            tag_loop identifier resource_id ev rest alarms
              (disk_meta_data ++
                 [{| md_service := service; md_metric := metric;
                     md_priority_token := priority_token;
                     md_tag_value := tag_value |}])
          else
            alarm ← get_table_item cfg load_table_item service metric
                      priority_token tag_value identifier resource_id ev None;
            match alarm with
            | None => tag_loop identifier resource_id ev rest alarms disk_meta_data
            | Some alarm =>
                tag_loop identifier resource_id ev rest
                  (alarms ++ [alarm]) disk_meta_data
            end
      end
  end.

(** The inner loop over [disk_meta_data] for one disk. *)
Fixpoint meta_loop (identifier resource_id : pyval) (ev : event)
    (disk : disk_descriptor) (metas : list meta_data) (alarms : list item)
  : result (list item) :=
  match metas with
  | [] => Ok alarms
  | m :: rest =>
      alarm ← get_table_item cfg load_table_item (md_service m) (md_metric m)
                (md_priority_token m) (md_tag_value m)
                identifier resource_id ev (Some disk);
      match alarm with
      | None => meta_loop identifier resource_id ev disk rest alarms
      | Some alarm => meta_loop identifier resource_id ev disk rest (alarms ++ [alarm])
      end
  end.

(** The outer loop over [disks]. *)
Fixpoint disk_loop (identifier resource_id : pyval) (ev : event)
    (disks : list disk_descriptor) (metas : list meta_data) (alarms : list item)
  : result (list item) :=
  match disks with
  | [] => Ok alarms
  | disk :: rest =>
      alarms ← meta_loop identifier resource_id ev disk metas alarms;
      disk_loop identifier resource_id ev rest metas alarms
  end.

(** [disks] is the list handed over by the handler; [None] and the empty
    list both skip the fan-out. *)
Definition get_alarms (ev : event) (disks : list disk_descriptor)
  : result (list item) :=
  let identifier := get (entries ev) "identifier" in
  let resource_id := get (entries ev) "resource_id" in
  if negb (py_truthy identifier) || negb (py_truthy resource_id) then Ok []
  else
    '(alarms, disk_meta_data) ←
      tag_loop identifier resource_id ev (tags ev) [] [];
    disk_loop identifier resource_id ev disks disk_meta_data alarms.
End Orchestrator.

(** ** Disk discovery and command completion *)

(** What [get_command_invocation] returns. *)
Record invocation : Type := {
  Status : string;
  StandardOutputContent : option string
}.

(** The services behind the session.  Time is counted in seconds from the
    submission of a command; a call takes no time and [time.sleep(n)]
    takes [n] seconds, so the invocation read after sleeping [n] seconds
    is [get_command_invocation w n]. *)
Record world : Type := {
  sts_assume_role : result unit;
  session_credentials : result unit;
  describe_instances : result (option pyval);
  send_command : string -> string -> result unit;
  get_command_invocation : nat -> result invocation
}.

(** [get_os_type]: the [Platform] entry of the instance, ["Linux"] when it
    has none; [None] when the description fails. *)
Definition get_os_type (w : world) : option string :=
  match describe_instances w with
  | Raise _ => None
  | Ok platform =>
      let platform := default (PStr "Linux") platform in
      Some (if py_eq platform (PStr "windows") then "Windows" else "Linux")
  end.

(** The body of the loop over [result.splitlines()]. *)
Definition parse_line (os_type : string) (line : list ascii) : list disk_descriptor :=
  let line := strip line in
  match line with
  | [] => []
  | _ =>
      if String.eqb (lower os_type) "linux" then
        match split_ws line with
        | device_full :: fstype :: path :: _ =>
            [[("device", basename device_full); ("fstype", fstype); ("path", path)]]
        | _ => []
        end
      else [[("LogicalDisk", string_of_list_ascii line)]]
  end.

(** [discover_disks], the SSM client taken as given: from the submission
    of the command on, every exception ends in the empty list. *)
Definition discover_disks (w : world) (os_type : string) : list disk_descriptor :=
  let '(cmd, doc_name) :=
    if String.eqb (lower os_type) "linux"
    then ("df -T -P | tail -n +2 | awk '{print $1,$2,$7}'", "AWS-RunShellScript")
    else ("Get-PSDrive -PSProvider FileSystem | ForEach-Object { $_.Name }",
          "AWS-RunPowerShellScript") in
  match send_command w doc_name cmd with
  | Raise _ => []
  | Ok _ =>
      (* time.sleep(5) *)
      match get_command_invocation w 5 with
      | Raise _ => []
      | Ok output =>
          let result := default "" (StandardOutputContent output) in
          concat (map (parse_line os_type) (splitlines result))
      end
  end.

(** The loop of [wait_for_command] (configure_ec2), [now] and [deadline]
    in seconds since the submission.  [fuel] bounds the iterations of the
    model; [None] means the bound was too small. *)
Fixpoint wait_loop (fuel : nat) (w : world) (now deadline poll : nat)
  : option (result invocation) :=
  match fuel with
  | O => None
  | S fuel =>
      if Nat.ltb now deadline then
        match get_command_invocation w now with
        | Raise (ClientError code) =>
            if String.eqb code "InvocationDoesNotExist"
            then wait_loop fuel w (now + poll) deadline poll
            else Some (Raise (ClientError code))
        | Raise e => Some (Raise e)
        | Ok resp =>
            if String.eqb (Status resp) "Success" then Some (Ok resp)
            else if bool_decide (Status resp ∈ ["Failed"; "Cancelled"; "TimedOut"])
            then Some (Ok resp)
            else wait_loop fuel w (now + poll) deadline poll
        end
      else Some (Raise TimeoutError)
  end.

(** [wait_for_command(ssm, command_id, instance_id, timeout, poll)] called
    [start] seconds after the submission. *)
Definition wait_for_command (w : world) (start timeout poll : nat)
  : option (result invocation) :=
  wait_loop (S timeout) w start (start + timeout) poll.

(** ** The handler *)

Definition assume_role (w : world) (ev : event) : result unit :=
  match entries ev !! "region", entries ev !! "account" with
  | Some _, Some _ => sts_assume_role w
  | None, Some _ => Raise (KeyError "region")
  | _, None => Raise (KeyError "account")
  end.

(** [a == b] on two dicts. *)
Definition dict_eqb (a b : gmap string pyval) : bool :=
  bool_decide (dom a = dom b)
  && forallb (fun kv => match b !! kv.1 with
                        | Some v => py_eq kv.2 v
                        | None => false
                        end) (map_to_list a).

(** [l.remove(x)] for an [x] that occurs in [l]: the first element equal
    to [x] goes. *)
Fixpoint list_remove (x : gmap string pyval) (l : list (gmap string pyval))
  : list (gmap string pyval) :=
  match l with
  | [] => []
  | y :: r => if dict_eqb y x then r else y :: list_remove x r
  end.

(** The loop [for dimension in alarm["dimensions"]] of the handler, which
    removes from the list it iterates over: [i] is the position of the
    iterator.  The list never grows, so [length l] iterations suffice. *)
Fixpoint prune_loop (fuel i : nat) (l : list (gmap string pyval))
  : result (list (gmap string pyval)) :=
  match fuel with
  | O => Ok l
  | S fuel =>
      match l !! i with
      | None => Ok l
      | Some dimension =>
          name ← getitem dimension "Name";
          value ← getitem dimension "Value";
          if py_eq name value
          then prune_loop fuel (S i) (list_remove dimension l)
          else prune_loop fuel (S i) l
      end
  end.

Definition prune_dimensions (alarm : item) : result item :=
  ds ← prune_loop (length (dimensions alarm)) 0 (dimensions alarm);
  Ok (set_dimensions ds alarm).

Fixpoint prune_alarms (alarms : list item) : result (list item) :=
  match alarms with
  | [] => Ok []
  | alarm :: rest =>
      alarm ← prune_dimensions alarm;
      rest ← prune_alarms rest;
      Ok (alarm :: rest)
  end.

Section Handler.
Variable cfg : config.
Variable load_table_item : catalog.

(** The value of [event["alarm_config"]] in the event the handler
    returns. *)
Definition lambda_handler (w : world) (ev : event) : result (list item) :=
  _ ← assume_role w ev;
  _ ← session_credentials w;
  service ← getitem (entries ev) "service";
  is_instance ←
    (if py_eq service (PStr "ec2") then
       resource_type ← getitem (entries ev) "resource_type";
       if py_eq resource_type (PStr "instance") then
         cloudwatch ← getitem (entries ev) "cloudwatch";
         Ok (py_eq cloudwatch (PBool true))
       else Ok false
     else Ok false);
  disks ←
    (if is_instance : bool then
       _ ← getitem (entries ev) "resource_id";
       match get_os_type w with
       | Some os_type => Ok (discover_disks w os_type)
       | None => Ok []
       end
     else Ok []);
  alarms ← get_alarms cfg load_table_item ev disks;
  prune_alarms alarms.
End Handler.

(** ** Catalog records of the seed data, for the scenarios *)

Module Seed.
Definition tier3 (crit : string) (thr : Z) (prio : string) : tier :=
  TDict (<["criticality" := PStr crit]>
           (<["threshold" := PInt thr]> (<["priority" := PStr prio]> ∅))).

Definition placeholder (n : string) : dimension_entry :=
  DDict (<["Name" := PStr n]> (<["Value" := PStr n]> ∅)).

Definition cpu_utilization : AlarmConfigTable.t :=
  {| AlarmConfigTable.namespace := PStr "AWS/EC2";
     AlarmConfigTable.alarm_description :=
       PStr "Triggered when CPU exceeds thresholds or becomes unreachable";
     AlarmConfigTable.comparison_operator := PStr "GreaterThanThreshold";
     AlarmConfigTable.actions_enabled := PBool true;
     AlarmConfigTable.thresholds :=
       [tier3 "Critical" 95 "P1"; tier3 "High" 90 "P2"; tier3 "Low" 80 "P3"];
     AlarmConfigTable.dimensions := [placeholder "InstanceId"];
     AlarmConfigTable.datapoints_to_alarm := PInt 15;
     AlarmConfigTable.evaluation_periods := PInt 15;
     AlarmConfigTable.period := PInt 60;
     AlarmConfigTable.treat_missing_data := PStr "breaching";
     AlarmConfigTable.statistic := PStr "Average" |}.

Definition agent_dimensions : list dimension_entry :=
  [placeholder "InstanceId"; placeholder "InstanceType";
   placeholder "ImageId"; placeholder "AutoScalingGroup"].

Definition mem_used_percent : AlarmConfigTable.t :=
  {| AlarmConfigTable.namespace := PStr "CWAgent";
     AlarmConfigTable.alarm_description :=
       PStr "Linux memory usage exceeds thresholds";
     AlarmConfigTable.comparison_operator := PStr "GreaterThanThreshold";
     AlarmConfigTable.actions_enabled := PBool true;
     AlarmConfigTable.thresholds :=
       [tier3 "Critical" 95 "P1"; tier3 "High" 90 "P2"; tier3 "Low" 80 "P3"];
     AlarmConfigTable.dimensions := agent_dimensions;
     AlarmConfigTable.datapoints_to_alarm := PInt 15;
     AlarmConfigTable.evaluation_periods := PInt 15;
     AlarmConfigTable.period := PInt 60;
     AlarmConfigTable.treat_missing_data := PStr "breaching";
     AlarmConfigTable.statistic := PStr "Average" |}.

Definition disk_used_percent : AlarmConfigTable.t :=
  {| AlarmConfigTable.namespace := PStr "CWAgent";
     AlarmConfigTable.alarm_description :=
       PStr "Linux disk usage exceeds thresholds";
     AlarmConfigTable.comparison_operator := PStr "GreaterThanThreshold";
     AlarmConfigTable.actions_enabled := PBool true;
     AlarmConfigTable.thresholds :=
       [tier3 "Critical" 95 "P1"; tier3 "High" 90 "P2"; tier3 "Low" 80 "P3"];
     AlarmConfigTable.dimensions := agent_dimensions;
     AlarmConfigTable.datapoints_to_alarm := PInt 15;
     AlarmConfigTable.evaluation_periods := PInt 15;
     AlarmConfigTable.period := PInt 60;
     AlarmConfigTable.treat_missing_data := PStr "breaching";
     AlarmConfigTable.statistic := PStr "Average" |}.

Definition table : catalog := fun service metric_name =>
  if String.eqb service "EC2" then
    if String.eqb metric_name "CPUUtilization" then Some cpu_utilization
    else if String.eqb metric_name "mem_used_percent" then Some mem_used_percent
    else if String.eqb metric_name "disk_used_percent" then Some disk_used_percent
    else None
  else None.

Definition cfg : config :=
  {| EC2LINUXDISK_TAG := Some "disk_used_percent";
     EC2WINDOWSDISK_TAG := Some "LogicalDisk % Free Space" |}.

(** An EC2 instance event with the given tags and metadata. *)
Definition instance_event (tags : list (string * pyval))
    (md : gmap string pyval) : event :=
  {| entries :=
       <["account" := PStr "111122223333"]>
       (<["region" := PStr "eu-west-1"]>
       (<["account_alias" := PStr "acme"]>
       (<["service" := PStr "ec2"]>
       (<["resource_type" := PStr "instance"]>
       (<["resource_id" := PStr "i-123"]>
       (<["identifier" := PStr "InstanceId"]>
       (<["cloudwatch" := PBool false]> ∅)))))));
     tags := tags;
     metadata := md |}.

(** Services that are never reached by an event without [cloudwatch]. *)
Definition quiet : world :=
  {| sts_assume_role := Ok ();
     session_credentials := Ok ();
     describe_instances := Ok None;
     send_command := fun _ _ => Ok ();
     get_command_invocation := fun _ =>
       Ok {| Status := "Pending"; StandardOutputContent := None |} |}.
End Seed.

(** ** Specification-side definitions *)

(** The entry speaks for priority [tok]: a record whose [priority] is
    [tok], or a sequence of at least two elements whose first is [tok]. *)
Definition tier_matches (tok : string) (t : tier) : bool :=
  match t with
  | TDict t => py_eq (get t "priority") (PStr tok)
  | TSeq (prio :: _ :: _) => py_eq prio (PStr tok)
  | _ => false
  end.

(** The segment the name carries between the metric and the severity:
    the quoted value of the first dimension named [path] or [LogicalDisk],
    when that value is truthy. *)
Definition qualifier_segment (dims : list (gmap string pyval)) : string :=
  match List.find is_target dims with
  | Some dim =>
      let q := get dim "Value" in
      if py_truthy q then "-'" ++ py_str q ++ "'" else ""
  | None => ""
  end.

(** [{accountAlias}-{accountId}-{service}-{resourceType}-{resourceId}-{metric}] *)
Definition name_stem (ev : event) (m : string) : string :=
  fmt_entry ev "account_alias" ++ "-" ++ fmt_entry ev "account" ++ "-"
  ++ fmt_entry ev "service" ++ "-" ++ fmt_entry ev "resource_type" ++ "-"
  ++ fmt_entry ev "resource_id" ++ "-" ++ m.

Definition expected_alarm_name (ev : event) (m : string)
    (dims : list (gmap string pyval)) (crit : pyval) : string :=
  name_stem ev m ++ qualifier_segment dims ++ "-Severity: " ++ py_str crit.

(** The metadata map has an entry for the name of [dim]. *)
Definition in_metadata (md : gmap string pyval) (dim : gmap string pyval)
  : option pyval :=
  match get dim "Name" with
  | PStr n => md !! n
  | _ => None
  end.

(** What becomes of one template dimension, case by case. *)
Inductive binds (identifier resource_id : pyval) (md : gmap string pyval)
    (dim : gmap string pyval) : gmap string pyval -> Prop :=
  | binds_identifier :
      py_eq (get dim "Name") identifier = true ->
      binds identifier resource_id md dim (<["Value" := resource_id]> dim)
  | binds_metadata v :
      py_eq (get dim "Name") identifier = false ->
      in_metadata md dim = Some v ->
      binds identifier resource_id md dim (<["Value" := v]> dim)
  | binds_template :
      py_eq (get dim "Name") identifier = false ->
      in_metadata md dim = None ->
      is_Some (dim !! "Value") ->
      binds identifier resource_id md dim dim.

(** The candidate of one disk, from the candidate [common] resolved
    without a disk: the disk's fields appended as dimensions, and the name
    rebuilt over them. *)
Definition fan_out (ev : event) (common : item) (disk : disk_descriptor) : item :=
  let ds := (dimensions common
             ++ map (fun kv => name_value (PStr kv.1) (PStr kv.2)) disk)%list in
  set_alarm_name
    (expected_alarm_name ev (metric common) ds (default (PStr "") (criticality common)))
    (set_dimensions ds common).

(** The tag is a disk-metric request. *)
Definition is_disk_signal (cfg : config) (tag : string * pyval) : bool :=
  match parse_tag_key tag.1 with
  | Some (_, m, _) => is_disk_metric cfg m
  | None => false
  end.

(** [<partition>:sns:<region>:<account>:<TopicPrefix><priority>-<region>] *)
Definition topic_arn (region account : pyval) (tok : string) : string :=
  "arn:aws:sns:" ++ py_str region ++ ":" ++ py_str account ++ ":"
  ++ "Rebura-CentralisedObservabilityAutomationTopic" ++ tok
  ++ "-" ++ py_str region.

(** The disk-metric requests of a tag map, in its order. *)
Definition disk_request (cfg : config) (tag : string * pyval) : option meta_data :=
  match parse_tag_key tag.1 with
  | Some (s, m, p) =>
      if is_disk_metric cfg m
      then Some {| md_service := s; md_metric := m;
                   md_priority_token := p; md_tag_value := tag.2 |}
      else None
  | None => None
  end.

(** The candidate of [get_table_item] before its two derived fields. *)
Definition resolve (cfg : config) (table_item : AlarmConfigTable.t)
    (service metric priority_token : string)
    (tag_value identifier resource_id : pyval) (ev : event)
    (disk : option disk_descriptor) : item :=
  set_dimensions
    (fold_left (bind_step identifier resource_id (metadata ev))
       (AlarmConfigTable.dimensions table_item) []
     ++ disk_dimensions cfg metric disk)%list
    (setdefault_criticality (PStr priority_token)
       (apply_thresholds priority_token (AlarmConfigTable.thresholds table_item)
          (base_item table_item service metric priority_token tag_value))).

(** The candidate a successful call returns, spelled out. *)
Definition emitted (cfg : config) (tpl : AlarmConfigTable.t)
    (service metric tok : string)
    (raw identifier resource_id : pyval) (ev : event)
    (disk : option disk_descriptor) (arn : list string) : item :=
  let it := resolve cfg tpl service metric tok raw identifier resource_id ev disk in
  set_action_topic_arn arn
    (set_alarm_name
       (expected_alarm_name ev metric (dimensions it)
          (default (PStr "") (criticality it))) it).

(** The read leaves the command unfinished: not registered yet, or in a
    status that is not terminal. *)
Definition unfinished (r : result invocation) : Prop :=
  match r with
  | Raise (ClientError code) => code = "InvocationDoesNotExist"
  | Raise _ => False
  | Ok resp => Status resp ∉ ["Success"; "Failed"; "Cancelled"; "TimedOut"]
  end.

(** The outcome of the dimension loop for one template entry. *)
Definition bound (identifier resource_id : pyval) (md : gmap string pyval)
    (e : dimension_entry) : option (gmap string pyval) :=
  match e with
  | DScalar _ => None
  | DDict dim =>
      let dim := bind_dimension identifier resource_id md dim in
      if bool_decide (is_Some (dim !! "Value")) then Some dim else None
  end.

(** The dimension is named [path] or [LogicalDisk]. *)
Definition disk_named (d : gmap string pyval) : Prop :=
  d !! "Name" = Some (PStr "path") \/ d !! "Name" = Some (PStr "LogicalDisk").

(** The segment a qualifier makes in a name: its text between quotes
    after a dash, and nothing when it is falsy. *)
Definition quoted (q : pyval) : string :=
  if py_truthy q then "-'" ++ py_str q ++ "'" else "".

(** The dimension a field of a disk descriptor becomes. *)
Definition field_dimension (kv : string * string) : gmap string pyval :=
  {[ "Name" := PStr kv.1; "Value" := PStr kv.2 ]}.

(** The value a disk descriptor has for the name of its alarms: that of
    its first field called [path] or [LogicalDisk]. *)
Fixpoint disk_value (disk : disk_descriptor) : option string :=
  match disk with
  | [] => None
  | (k, v) :: rest =>
      if bool_decide (k = "path" \/ k = "LogicalDisk") then Some v
      else disk_value rest
  end.

(** The segment a disk descriptor alone gives a name. *)
Definition disk_segment (disk : disk_descriptor) : string :=
  match disk_value disk with
  | Some q => quoted (PStr q)
  | None => ""
  end.

(** The candidate agrees with another one on every entry but the
    dimensions and the name. *)
Definition same_but_dimensions_and_name (c common : item) : Prop :=
  priority c = priority common
  /\ metric c = metric common
  /\ service c = service common
  /\ threshold c = threshold common
  /\ actions_enabled c = actions_enabled common
  /\ comparison_operator c = comparison_operator common
  /\ datapoints_to_alarm c = datapoints_to_alarm common
  /\ evaluation_periods c = evaluation_periods common
  /\ namespace c = namespace common
  /\ period c = period common
  /\ statistic c = statistic common
  /\ treat_missing_data c = treat_missing_data common
  /\ alarm_description c = alarm_description common
  /\ criticality c = criticality common
  /\ action_topic_arn c = action_topic_arn common.

(** What a command output lists, line by line.  For Linux, a line with
    at least three whitespace-separated fields lists the disk whose device
    is the base name of the first field, whose file system type is the
    second and whose mount path is the third.  For any other OS type, a
    line that is not blank lists the drive it spells, without the
    surrounding whitespace. *)
Inductive listed (os_type : string) (out : string) : disk_descriptor -> Prop :=
  | listed_linux line device_full fstype path rest :
      lower os_type = "linux" ->
      line ∈ splitlines out ->
      split_ws (strip line) = device_full :: fstype :: path :: rest ->
      listed os_type out
        [("device", basename device_full); ("fstype", fstype); ("path", path)]
  | listed_drive line :
      lower os_type <> "linux" ->
      line ∈ splitlines out ->
      strip line <> [] ->
      listed os_type out [("LogicalDisk", string_of_list_ascii (strip line))].

(** No dimension record of the template is named [path] or
    [LogicalDisk]. *)
Definition plain_template (tpl : AlarmConfigTable.t) : Prop :=
  Forall (fun e => match e with
                   | DDict dim => ~ disk_named dim
                   | DScalar _ => True
                   end)
    (AlarmConfigTable.dimensions tpl).

(** ** Scenarios *)

Module Scenario.
Definition cpu_tag : string := "Org:Monitor:EC2:CPUUtilization:P1".

(** One CPU request with the given raw value. *)
Definition cpu_event (raw : string) : event :=
  Seed.instance_event [(cpu_tag, PStr raw)] ∅.

Definition p1_tier : gmap string pyval :=
  <["criticality" := PStr "Critical"]>
    (<["threshold" := PInt 95]> (<["priority" := PStr "P1"]> ∅)).

(** Two tags of different tag namespaces asking for the same alarm. *)
Definition twice_event : event :=
  Seed.instance_event
    [(cpu_tag, PStr "true"); ("Team:Monitor:EC2:CPUUtilization:P1", PStr "true")] ∅.

Definition memory_event : event :=
  Seed.instance_event [("Org:Monitor:EC2:mem_used_percent:P1", PStr "true")] ∅.

(** A template with a dimension named [path] that has no value of its
    own, and one with a dimension of literal value. *)
Definition with_dimensions (ds : list dimension_entry) : AlarmConfigTable.t :=
  {| AlarmConfigTable.namespace := PStr "CWAgent";
     AlarmConfigTable.alarm_description := PStr "";
     AlarmConfigTable.comparison_operator := PStr "GreaterThanThreshold";
     AlarmConfigTable.actions_enabled := PBool true;
     AlarmConfigTable.thresholds := [Seed.tier3 "Critical" 95 "P1"];
     AlarmConfigTable.dimensions := ds;
     AlarmConfigTable.datapoints_to_alarm := PInt 15;
     AlarmConfigTable.evaluation_periods := PInt 15;
     AlarmConfigTable.period := PInt 60;
     AlarmConfigTable.treat_missing_data := PStr "breaching";
     AlarmConfigTable.statistic := PStr "Average" |}.




Definition environment_dimension : gmap string pyval :=
  <["Name" := PStr "Environment"]> (<["Value" := PStr "prod"]> ∅).

Definition literal_table : catalog := fun _ _ =>
  Some (with_dimensions [Seed.placeholder "InstanceId"; DDict environment_dimension]).

Definition literal_event : event :=
  Seed.instance_event [("Org:Monitor:EC2:requests:P1", PStr "true")] ∅.




(** A command that registers ten seconds after its submission and has
    succeeded by then. *)
Definition listing : invocation :=
  {| Status := "Success";
     StandardOutputContent := Some "/dev/xvda1 ext4 /data" |}.

Definition late : world :=
  {| sts_assume_role := Ok ();
     session_credentials := Ok ();
     describe_instances := Ok None;
     send_command := fun _ _ => Ok ();
     get_command_invocation := fun t =>
       if Nat.ltb t 10 then Raise (ClientError "InvocationDoesNotExist")
       else Ok listing |}.

(** A CPU request and a disk request, with two discovered disks. *)
Definition disk_tag : string := "Org:Monitor:EC2:disk_used_percent:P1".

Definition disk_event : event :=
  Seed.instance_event [(cpu_tag, PStr "true"); (disk_tag, PStr "true")] ∅.

Definition two_disks : list disk_descriptor :=
  [[("device", "xvda1"); ("fstype", "ext4"); ("path", "/")];
   [("device", "xvdb"); ("fstype", "xfs"); ("path", "/data")]].

Definition no_identifier_event : event :=
  {| entries := <["resource_id" := PStr "i-123"]>
                  (<["account" := PStr "111122223333"]>
                     (<["region" := PStr "eu-west-1"]> ∅));
     tags := [(cpu_tag, PStr "true")]; metadata := ∅ |}.

(** A disk template with a placeholder dimension named [path], and an
    event that asks for the disk alarm only. *)
Definition placeholder_table : catalog := fun _ _ =>
  Some (with_dimensions [Seed.placeholder "InstanceId"; Seed.placeholder "path"]).

Definition only_disk_event : event :=
  Seed.instance_event [(disk_tag, PStr "true")] ∅.

(** A command that is still running five seconds after its submission,
    with a first line of output already there. *)
Definition running : world :=
  {| sts_assume_role := Ok ();
     session_credentials := Ok ();
     describe_instances := Ok None;
     send_command := fun _ _ => Ok ();
     get_command_invocation := fun _ =>
       Ok {| Status := "InProgress";
             StandardOutputContent := Some "/dev/xvda1 ext4 /data" |} |}.

(** The listing of two file systems, read at once. *)
Definition two_lines : invocation :=
  {| Status := "Success";
     StandardOutputContent :=
       Some ("/dev/xvda1 ext4 /" ++ String LF "/dev/xvdb xfs /data") |}.

Definition listing_two : world :=
  {| sts_assume_role := Ok ();
     session_credentials := Ok ();
     describe_instances := Ok None;
     send_command := fun _ _ => Ok ();
     get_command_invocation := fun _ => Ok two_lines |}.
End Scenario.

(** ** Definitions for the further properties *)

(** The event with another tag map. *)
Definition with_tags (ev : event) (ts : list (string * pyval)) : event :=
  {| entries := entries ev; tags := ts; metadata := metadata ev |}.

(** [c in s] for a character. *)
Fixpoint has_char (c : ascii) (s : string) : bool :=
  match s with
  | EmptyString => false
  | String x r => Ascii.eqb x c || has_char c r
  end.

(** [sep.join(parts)] for a one-character separator. *)
Fixpoint join_with (sep : ascii) (parts : list string) : string :=
  match parts with
  | [] => ""
  | [p] => p
  | p :: rest => p ++ String sep (join_with sep rest)
  end.

(** The entries of a candidate that the two loops of the resolver and its
    two builders leave alone. *)
Definition seeded (it : item)
  : string * string * string * pyval * pyval * pyval * pyval * pyval * pyval
    * pyval * pyval * pyval :=
  (priority it, metric it, service it, actions_enabled it,
   comparison_operator it, datapoints_to_alarm it, evaluation_periods it,
   namespace it, period it, statistic it, treat_missing_data it,
   alarm_description it).

(** Templates with tiers of other shapes, for the scenarios. *)
Module Shapes.
Definition with_thresholds (ts : list tier) : AlarmConfigTable.t :=
  {| AlarmConfigTable.namespace := PStr "AWS/EC2";
     AlarmConfigTable.alarm_description := PStr "";
     AlarmConfigTable.comparison_operator := PStr "GreaterThanThreshold";
     AlarmConfigTable.actions_enabled := PBool true;
     AlarmConfigTable.thresholds := ts;
     AlarmConfigTable.dimensions := [Seed.placeholder "InstanceId"];
     AlarmConfigTable.datapoints_to_alarm := PInt 15;
     AlarmConfigTable.evaluation_periods := PInt 15;
     AlarmConfigTable.period := PInt 60;
     AlarmConfigTable.treat_missing_data := PStr "breaching";
     AlarmConfigTable.statistic := PStr "Average" |}.

(** A tier stored as the pair (priority, value). *)
Definition pair_tier : list pyval := [PStr "P1"; PInt 70].

Definition pair_table : catalog := fun _ _ =>
  Some (with_thresholds [Seed.tier3 "Low" 80 "P3"; TSeq pair_tier]).

(** Two records for the same priority. *)
Definition second_tier : gmap string pyval :=
  <["criticality" := PStr "High"]>
    (<["threshold" := PInt 60]> (<["priority" := PStr "P1"]> ∅)).

Definition twice_table : catalog := fun _ _ =>
  Some (with_thresholds
          [TDict Scenario.p1_tier; Seed.tier3 "Low" 80 "P3"; TDict second_tier]).
End Shapes.

(** The candidate answers a tag of the event. *)
Definition answers (load_table_item : catalog) (ev : event) (it : item) : Prop :=
  (exists k v, (k, v) ∈ tags ev
               /\ parse_tag_key k = Some (service it, metric it, priority it))
  /\ is_Some (load_table_item (service it) (metric it)).

(** The request was set aside for a tag of the event. *)
Definition set_aside (ev : event) (m : meta_data) : Prop :=
  exists k v, (k, v) ∈ tags ev
              /\ parse_tag_key k
                 = Some (md_service m, md_metric m, md_priority_token m).

(** The candidate resolved without a disk for a disk request, when its
    template exists. *)
Definition request_candidate (cfg : config) (load_table_item : catalog)
    (identifier resource_id region account : pyval) (ev : event) (m : meta_data)
  : option item :=
  match load_table_item (md_service m) (md_metric m) with
  | Some tpl =>
      Some (emitted cfg tpl (md_service m) (md_metric m) (md_priority_token m)
              (md_tag_value m) identifier resource_id ev None
              [topic_arn region account (md_priority_token m)])
  | None => None
  end.

(** No character of the string is whitespace. *)
Definition spaceless (s : string) : Prop :=
  Forall (fun c => is_space c = false) (list_ascii_of_string s).

(** The fields of a descriptor of the given OS type. *)
Definition descriptor_shape (os_type : string) (disk : disk_descriptor) : Prop :=
  if String.eqb (lower os_type) "linux" then
    exists device fstype path,
      disk = [("device", device); ("fstype", fstype); ("path", path)]
      /\ has_char "/" device = false
      /\ fstype <> "" /\ spaceless fstype
      /\ path <> "" /\ spaceless path
  else
    exists letter, disk = [("LogicalDisk", letter)] /\ letter <> "".

(** The dimension is bound: its value differs from its name.  (One that
    lacks either entry makes the handler's loop raise, and counts as
    bound.) *)
Definition is_bound (d : gmap string pyval) : bool :=
  match d !! "Name", d !! "Value" with
  | Some name, Some value => negb (py_eq name value)
  | _, _ => true
  end.

(** No two neighbours of the list are both unbound. *)
Fixpoint apart (l : list (gmap string pyval)) : Prop :=
  match l with
  | x :: r =>
      match r with
      | y :: _ => (is_bound x = true \/ is_bound y = true) /\ apart r
      | [] => True
      end
  | [] => True
  end.

(** A Python value up to [==]: a boolean is the integer it equals. *)
Definition py_norm (v : pyval) : pyval :=
  match v with
  | PBool b => PInt (Z_of_bool b)
  | _ => v
  end.

(** The threshold value an entry of the tier list offers. *)
Definition tier_value (t : tier) : option pyval :=
  match t with
  | TDict t => t !! "threshold"
  | TSeq (_ :: value :: _) => Some value
  | _ => None
  end.

(** The criticality an entry of the tier list offers. *)
Definition tier_criticality (t : tier) : option pyval :=
  match t with
  | TDict t => t !! "criticality"
  | _ => None
  end.

(** The threshold is the raw value or the value of a tier that speaks for
    the priority; the criticality, when set, is the priority token or the
    criticality of such a tier. *)
Definition from_tag_or_tier (tok : string) (raw : pyval) (ts : list tier)
    (it : item) : Prop :=
  (threshold it = raw
   \/ exists t, t ∈ ts /\ tier_matches tok t = true
                /\ tier_value t = Some (threshold it))
  /\ (criticality it = None
      \/ criticality it = Some (PStr tok)
      \/ exists t c, t ∈ ts /\ tier_matches tok t = true
                     /\ tier_criticality t = Some c
                     /\ criticality it = Some c).

(** ** The agent configuration function (configure_ec2) *)

Module ConfigureEc2.
Definition SSM_DOC_MANAGE_AGENT : string := "AmazonCloudWatch-ManageAgent".

(** What the handler raises: its own [ValueError], or what the role
    assumption raised. *)
Inductive agent_exc : Type :=
  | ValueError
  | Escaped (e : exc).

Inductive outcome (A : Type) : Type :=
  | Done (a : A)
  | Failed (e : agent_exc).
Arguments Done {A} a.
Arguments Failed {A} e.

(** The SSM service as this function uses it.
    [describe_instance_information] is the [PlatformType] of the first
    entry of [InstanceInformationList], [None] when there is no such
    entry.  [submit_command doc action] is [send_command] for the document
    and its action; it gives the submitted command, as the world in which
    its invocation is read. *)
Record services : Type := {
  describe_instance_information : result (option string);
  submit_command : string -> string -> result world
}.

(** Every failure is logged and leaves [None]. *)
Definition check_os_type (s : services) : option string :=
  match describe_instance_information s with
  | Ok (Some os_type) => Some os_type
  | _ => None
  end.

(** [None] stands for a wait that the model's iterations did not cover;
    every exception of the body, the [None.lower()] of an unknown OS type
    included, ends in [False]. *)
Definition check_cloudwatch_agent (s : services) (os_type : option string)
  : option bool :=
  match os_type with
  | None => Some false
  | Some os_type =>
      let '(doc, action) :=
        if String.eqb (lower os_type) "windows"
        then ("AWS-ConfigureAWSPackage", "Install")
        else (SSM_DOC_MANAGE_AGENT, "install") in
      match submit_command s doc action with
      | Raise _ => Some false
      | Ok install =>
          match wait_for_command install 0 180 5 with
          | None => None
          | Some (Raise _) => Some false
          | Some (Ok _) =>
              match submit_command s SSM_DOC_MANAGE_AGENT "configure" with
              | Raise _ => Some false
              | Ok configure =>
                  match wait_for_command configure 0 180 5 with
                  | None => None
                  | Some (Raise _) => Some false
                  | Some (Ok _) => Some true
                  end
              end
          end
      end
  end.

(** The entries [os_type] and [wait_for_metrics] of the event the handler
    returns. *)
Definition lambda_handler (w : world) (s : services) (ev : event)
  : option (outcome (option string * bool)) :=
  let instance_id := get (entries ev) "resource_id" in
  let region := get (entries ev) "region" in
  if negb (py_truthy instance_id) || negb (py_truthy region)
  then Some (Failed ValueError)
  else
    match assume_role w ev with
    | Raise e => Some (Failed (Escaped e))
    | Ok _ =>
        match session_credentials w with
        | Raise e => Some (Failed (Escaped e))
        | Ok _ =>
            let os_type := check_os_type s in
            match check_cloudwatch_agent s os_type with
            | Some wait_for_metrics => Some (Done (os_type, wait_for_metrics))
            | None => None
            end
        end
    end.
End ConfigureEc2.

(** ** Further scenarios *)

Module More.
(** The instance event asked for a CPU alarm. *)
Definition ev : event := Scenario.cpu_event "true".

Definition cpu_candidate : item :=
  emitted Seed.cfg Seed.cpu_utilization "EC2" "CPUUtilization" "P1" (PStr "true")
    (PStr "InstanceId") (PStr "i-123") ev None
    [topic_arn (PStr "eu-west-1") (PStr "111122223333") "P1"].

Definition memory_candidate : item :=
  emitted Seed.cfg Seed.mem_used_percent "EC2" "mem_used_percent" "P1" (PStr "true")
    (PStr "InstanceId") (PStr "i-123") Scenario.memory_event None
    [topic_arn (PStr "eu-west-1") (PStr "111122223333") "P1"].

(** What the stage emits for the CPU and disk requests with two disks. *)
Definition disk_run : list item :=
  match get_alarms Seed.cfg Seed.table Scenario.disk_event Scenario.two_disks with
  | Ok alarms => alarms
  | Raise _ => []
  end.

(** A command whose listing of two file systems is there at once. *)
Definition two_lines : invocation :=
  {| Status := "Success";
     StandardOutputContent :=
       Some ("/dev/xvda1 ext4 /" ++ String LF "/dev/xvdb xfs /data") |}.

Definition ready : world :=
  {| sts_assume_role := Ok ();
     session_credentials := Ok ();
     describe_instances := Ok None;
     send_command := fun _ _ => Ok ();
     get_command_invocation := fun _ => Ok two_lines |}.

Definition root_disk : disk_descriptor :=
  [("device", "xvda1"); ("fstype", "ext4"); ("path", "/")].

Definition data_disk : disk_descriptor :=
  [("device", "xvdb"); ("fstype", "xfs"); ("path", "/data")].

(** The late command of the scenarios, lost after its deadline. *)
Definition late_then_lost : world :=
  {| sts_assume_role := Ok ();
     session_credentials := Ok ();
     describe_instances := Ok None;
     send_command := fun _ _ => Ok ();
     get_command_invocation := fun t =>
       if Nat.ltb t 180 then get_command_invocation Scenario.late t
       else Raise (ClientError "ThrottlingException") |}.

(** A candidate with an unbound dimension between two bound ones. *)
Definition spaced : item :=
  set_dimensions
    [name_value (PStr "InstanceId") (PStr "i-123");
     name_value (PStr "ImageId") (PStr "ImageId");
     name_value (PStr "Environment") (PStr "prod")]
    cpu_candidate.

(** An event of another service. *)
Definition database_event : event :=
  {| entries :=
       <["account" := PStr "111122223333"]>
       (<["region" := PStr "eu-west-1"]>
       (<["service" := PStr "rds"]>
       (<["resource_type" := PStr "db"]>
       (<["resource_id" := PStr "db-1"]>
       (<["identifier" := PStr "DBInstanceIdentifier"]> ∅)))));
     tags := []; metadata := ∅ |}.

(** A command that has ended with the given status, and the agent
    services whose installation ends with [install_status]. *)
Definition ended (status : string) : world :=
  {| sts_assume_role := Ok ();
     session_credentials := Ok ();
     describe_instances := Ok None;
     send_command := fun _ _ => Ok ();
     get_command_invocation := fun _ =>
       Ok {| Status := status; StandardOutputContent := None |} |}.

Definition agent (install_status : string) : ConfigureEc2.services :=
  {| ConfigureEc2.describe_instance_information := Ok (Some "Linux");
     ConfigureEc2.submit_command := fun _ action =>
       if String.eqb action "configure" then Ok (ended "Success")
       else Ok (ended install_status) |}.
End More.

(** ** Properties of the resolver *)

Section ResolverFacts.
Variable cfg : config.
Variable load_table_item : catalog.

Lemma apply_threshold_other tok it t :
  tier_matches tok t = false -> apply_threshold tok it t = it.
Proof.
  destruct t as [t| [|prio [|value rest]] |t]; simpl; try done.
  - intros ->. done.
  - intros ->. done.
Qed.

Lemma apply_thresholds_other tok ts it :
  Forall (fun t => tier_matches tok t = false) ts ->
  apply_thresholds tok ts it = it.
Proof.
  unfold apply_thresholds. intros H. revert it.
  induction H as [|t ts Ht _ IH]; intros it; simpl; [done|].
  by rewrite apply_threshold_other, IH.
Qed.

Lemma apply_thresholds_app tok ts1 ts2 it :
  apply_thresholds tok (ts1 ++ ts2)%list it
  = apply_thresholds tok ts2 (apply_thresholds tok ts1 it).
Proof. unfold apply_thresholds. apply fold_left_app. Qed.

(** With one entry only speaking for the priority, the loop does what
    that entry does. *)
Lemma apply_thresholds_unique tok pre t post it :
  Forall (fun t' => tier_matches tok t' = false) (pre ++ post)%list ->
  apply_thresholds tok (pre ++ t :: post)%list it = apply_threshold tok it t.
Proof.
  intros [Hpre Hpost]%Forall_app.
  rewrite apply_thresholds_app, (apply_thresholds_other _ pre) by done.
  change (t :: post) with ([t] ++ post)%list.
  rewrite apply_thresholds_app, (apply_thresholds_other _ post) by done.
  done.
Qed.

(** A raw value other than ["true"] is never replaced. *)
Lemma apply_threshold_literal tok it t :
  lower_is_true (threshold it) = false ->
  threshold (apply_threshold tok it t) = threshold it.
Proof.
  intros Hraw.
  destruct t as [t| [|prio [|value rest]] |t]; simpl; try done.
  - destruct (py_eq _ _); [|done]. rewrite Hraw.
    destruct (t !! "threshold"), (t !! "criticality"); done.
  - rewrite Hraw, andb_false_r. done.
Qed.

Lemma apply_thresholds_literal tok ts it :
  lower_is_true (threshold it) = false ->
  threshold (apply_thresholds tok ts it) = threshold it.
Proof.
  unfold apply_thresholds. revert it.
  induction ts as [|t ts IH]; intros it Hraw; simpl; [done|].
  rewrite IH; rewrite apply_threshold_literal; done.
Qed.

Lemma get_table_item_missing service metric tok raw identifier resource_id ev disk :
  load_table_item service metric = None ->
  get_table_item cfg load_table_item service metric tok raw
    identifier resource_id ev disk = Ok None.
Proof. unfold get_table_item. by intros ->. Qed.

Lemma get_table_item_found service metric tok raw identifier resource_id ev disk tpl :
  load_table_item service metric = Some tpl ->
  get_table_item cfg load_table_item service metric tok raw
    identifier resource_id ev disk
  = (let it := resolve cfg tpl service metric tok raw identifier resource_id ev disk in
     name ← build_alarm_name ev it;
     arn ← build_action_topic_arn ev (set_alarm_name name it);
     Ok (Some (set_action_topic_arn arn (set_alarm_name name it)))).
Proof. unfold get_table_item. by intros ->. Qed.

Lemma fold_bind_step identifier resource_id md es acc :
  fold_left (bind_step identifier resource_id md) es acc
  = (acc ++ omap (bound identifier resource_id md) es)%list.
Proof.
  revert acc. induction es as [|e es IH]; intros acc; simpl.
  - by rewrite app_nil_r.
  - rewrite IH. destruct e as [dim|v]; simpl; [|done].
    case_bool_decide; simpl; [|done]. by rewrite <- app_assoc.
Qed.

Lemma bound_has_value identifier resource_id md e d :
  bound identifier resource_id md e = Some d -> is_Some (d !! "Value").
Proof.
  destruct e as [dim|v]; simpl; [|done].
  case_bool_decide; [|done]. by intros [= <-].
Qed.

Lemma disk_dimensions_have_value metric disk :
  Forall (fun d : gmap string pyval => is_Some (d !! "Value"))
    (disk_dimensions cfg metric disk).
Proof.
  unfold disk_dimensions. destruct disk as [[|f fs]|]; try by constructor.
  destruct (is_disk_metric cfg metric); [|by constructor].
  apply Forall_forall. intros d [kv [-> _]]%list_elem_of_fmap.
  unfold name_value. rewrite lookup_insert_ne by done.
  rewrite lookup_insert_eq. by eexists.
Qed.

Lemma resolve_dimensions tpl service metric tok raw identifier resource_id ev disk :
  dimensions (resolve cfg tpl service metric tok raw identifier resource_id ev disk)
  = (omap (bound identifier resource_id (metadata ev)) (AlarmConfigTable.dimensions tpl)
     ++ disk_dimensions cfg metric disk)%list.
Proof. unfold resolve. simpl. by rewrite fold_bind_step. Qed.

Lemma resolve_dimensions_have_value tpl service metric tok raw identifier resource_id ev disk :
  Forall (fun d : gmap string pyval => is_Some (d !! "Value"))
    (dimensions (resolve cfg tpl service metric tok raw identifier resource_id ev disk)).
Proof.
  rewrite resolve_dimensions. apply Forall_app. split.
  - apply Forall_forall. intros d [e [_ He]]%list_elem_of_omap.
    by eapply bound_has_value.
  - apply disk_dimensions_have_value.
Qed.

Lemma append_assoc (a b c : string) : (a ++ b) ++ c = a ++ b ++ c.
Proof.
  induction a as [|x a IH]; [done|].
  change (String x ((a ++ b) ++ c) = String x (a ++ b ++ c)). by f_equal.
Qed.

(** On dimensions that all carry a value the name builder does not
    raise, and the name has the expected shape. *)
Lemma build_alarm_name_ok ev it :
  Forall (fun d : gmap string pyval => is_Some (d !! "Value")) (dimensions it) ->
  build_alarm_name ev it
  = Ok (expected_alarm_name ev (metric it) (dimensions it)
          (default (PStr "") (criticality it))).
Proof.
  intros Hval. unfold build_alarm_name, expected_alarm_name, qualifier_segment, name_stem.
  destruct (List.find is_target (dimensions it)) as [dim|] eqn:Hfind.
  - apply find_some in Hfind as [Hin _].
    apply list_elem_of_In in Hin.
    rewrite Forall_forall in Hval. destruct (Hval _ Hin) as [q Hq].
    unfold getitem, get, get_or. rewrite Hq. simpl.
    destruct (py_truthy q); simpl; f_equal;
      rewrite ?append_assoc; reflexivity.
  - simpl. f_equal. rewrite ?append_assoc. reflexivity.
Qed.

Lemma criticality_setdefault c it :
  criticality (setdefault_criticality c it) = Some (default c (criticality it)).
Proof. unfold setdefault_criticality. by destruct (criticality it) eqn:E. Qed.

Lemma threshold_setdefault c it :
  threshold (setdefault_criticality c it) = threshold it.
Proof. unfold setdefault_criticality. by destruct (criticality it). Qed.

Lemma resolve_criticality tpl service metric tok raw identifier resource_id ev disk :
  criticality (resolve cfg tpl service metric tok raw identifier resource_id ev disk)
  = Some (default (PStr tok)
            (criticality (apply_thresholds tok (AlarmConfigTable.thresholds tpl)
                            (base_item tpl service metric tok raw)))).
Proof. unfold resolve. simpl. apply criticality_setdefault. Qed.

Lemma resolve_threshold tpl service metric tok raw identifier resource_id ev disk :
  threshold (resolve cfg tpl service metric tok raw identifier resource_id ev disk)
  = threshold (apply_thresholds tok (AlarmConfigTable.thresholds tpl)
                 (base_item tpl service metric tok raw)).
Proof. unfold resolve. simpl. apply threshold_setdefault. Qed.

Lemma apply_threshold_static tok it t :
  metric (apply_threshold tok it t) = metric it
  /\ priority (apply_threshold tok it t) = priority it.
Proof.
  destruct t as [t| [|prio [|value rest]] |t]; simpl; try done.
  - destruct (py_eq _ _); [|done].
    destruct (t !! "threshold"), (t !! "criticality"),
      (lower_is_true (threshold it)); done.
  - destruct (_ && _); [|done]. unfold setdefault_criticality. simpl.
    by destruct (criticality it).
Qed.

Lemma apply_thresholds_static tok ts it :
  metric (apply_thresholds tok ts it) = metric it
  /\ priority (apply_thresholds tok ts it) = priority it.
Proof.
  unfold apply_thresholds. revert it.
  induction ts as [|t ts IH]; intros it; simpl; [done|].
  destruct (IH (apply_threshold tok it t)) as [-> ->].
  apply apply_threshold_static.
Qed.

Lemma resolve_static tpl service m tok raw identifier resource_id ev disk :
  metric (resolve cfg tpl service m tok raw identifier resource_id ev disk) = m
  /\ priority (resolve cfg tpl service m tok raw identifier resource_id ev disk)
    = tok.
Proof.
  unfold resolve, setdefault_criticality. simpl.
  destruct (apply_thresholds_static tok (AlarmConfigTable.thresholds tpl)
              (base_item tpl service m tok raw)) as [Hm Hp].
  destruct (criticality _); simpl; by rewrite ?Hm, ?Hp.
Qed.

Lemma emitted_threshold tpl service metric tok raw identifier resource_id ev disk arn :
  threshold (emitted cfg tpl service metric tok raw identifier resource_id ev disk arn)
  = threshold (resolve cfg tpl service metric tok raw identifier resource_id ev disk).
Proof. reflexivity. Qed.

Lemma emitted_criticality tpl service metric tok raw identifier resource_id ev disk arn :
  criticality (emitted cfg tpl service metric tok raw identifier resource_id ev disk arn)
  = criticality (resolve cfg tpl service metric tok raw identifier resource_id ev disk).
Proof. reflexivity. Qed.

Lemma emitted_dimensions tpl service metric tok raw identifier resource_id ev disk arn :
  dimensions (emitted cfg tpl service metric tok raw identifier resource_id ev disk arn)
  = dimensions (resolve cfg tpl service metric tok raw identifier resource_id ev disk).
Proof. reflexivity. Qed.

Lemma emitted_alarm_name tpl service metric tok raw identifier resource_id ev disk arn :
  alarm_name (emitted cfg tpl service metric tok raw identifier resource_id ev disk arn)
  = Some (expected_alarm_name ev metric
            (dimensions (resolve cfg tpl service metric tok raw identifier resource_id ev disk))
            (default (PStr "")
               (criticality (resolve cfg tpl service metric tok raw identifier resource_id ev disk)))).
Proof. reflexivity. Qed.

Lemma get_table_item_inv service metric tok raw identifier resource_id ev disk it :
  get_table_item cfg load_table_item service metric tok raw
    identifier resource_id ev disk = Ok (Some it) ->
  exists tpl arn,
    load_table_item service metric = Some tpl
    /\ build_action_topic_arn ev it = Ok arn
    /\ it = emitted cfg tpl service metric tok raw identifier resource_id ev disk arn.
Proof.
  destruct (load_table_item service metric) as [tpl|] eqn:Hload.
  - rewrite (get_table_item_found _ _ _ _ _ _ _ _ _ Hload). cbv zeta.
    rewrite build_alarm_name_ok by apply resolve_dimensions_have_value.
    rewrite (proj1 (resolve_static _ _ _ _ _ _ _ _ _)).
    unfold mbind at 1, result_bind at 1.
    destruct (build_action_topic_arn _ _) as [arn|e] eqn:Harn; [|done].
    intros [= <-]. exists tpl, arn. split; [done|]. split; [|reflexivity].
    exact Harn.
  - by rewrite get_table_item_missing.
Qed.

Lemma build_action_topic_arn_ok ev it region account :
  entries ev !! "region" = Some region ->
  entries ev !! "account" = Some account ->
  build_action_topic_arn ev it = Ok [topic_arn region account (priority it)].
Proof. unfold build_action_topic_arn, getitem. by intros -> ->. Qed.

Lemma get_table_item_ok_arn service metric tok raw identifier resource_id ev disk
    tpl region account :
  load_table_item service metric = Some tpl ->
  entries ev !! "region" = Some region ->
  entries ev !! "account" = Some account ->
  get_table_item cfg load_table_item service metric tok raw
    identifier resource_id ev disk
  = Ok (Some (emitted cfg tpl service metric tok raw identifier resource_id ev disk
                [topic_arn region account tok])).
Proof.
  intros Hload Hr Ha.
  rewrite (get_table_item_found _ _ _ _ _ _ _ _ _ Hload). cbv zeta.
  rewrite build_alarm_name_ok by apply resolve_dimensions_have_value.
  rewrite (proj1 (resolve_static _ _ _ _ _ _ _ _ _)).
  unfold mbind at 1, result_bind at 1.
  erewrite build_action_topic_arn_ok by done.
  change (priority (set_alarm_name _ ?it)) with (priority it).
  rewrite (proj2 (resolve_static _ _ _ _ _ _ _ _ _)).
  reflexivity.
Qed.

Lemma get_table_item_ok service metric tok raw identifier resource_id ev disk tpl :
  load_table_item service metric = Some tpl ->
  is_Some (entries ev !! "region") ->
  is_Some (entries ev !! "account") ->
  exists arn,
    get_table_item cfg load_table_item service metric tok raw
      identifier resource_id ev disk
    = Ok (Some (emitted cfg tpl service metric tok raw identifier resource_id ev disk arn)).
Proof.
  intros Hload [region Hr] [account Ha]. eexists.
  by eapply get_table_item_ok_arn.
Qed.

(** With region and account in the event the resolver does not raise. *)
Lemma get_table_item_total service metric tok raw identifier resource_id ev disk :
  is_Some (entries ev !! "region") ->
  is_Some (entries ev !! "account") ->
  exists r,
    get_table_item cfg load_table_item service metric tok raw
      identifier resource_id ev disk = Ok r.
Proof.
  intros Hr Ha. destruct (load_table_item service metric) as [tpl|] eqn:Hload.
  - destruct (get_table_item_ok service metric tok raw identifier resource_id
                ev disk tpl Hload Hr Ha) as [arn ->]. by eexists.
  - rewrite get_table_item_missing by done. by eexists.
Qed.

(** Resolving for a disk differs from resolving without one in the
    dimensions only. *)
Lemma resolve_disk tpl service m tok raw identifier resource_id ev disk :
  disk <> [] ->
  is_disk_metric cfg m = true ->
  resolve cfg tpl service m tok raw identifier resource_id ev (Some disk)
  = set_dimensions
      (dimensions (resolve cfg tpl service m tok raw identifier resource_id ev None)
       ++ map (fun kv => name_value (PStr kv.1) (PStr kv.2)) disk)%list
      (resolve cfg tpl service m tok raw identifier resource_id ev None).
Proof.
  intros Hne Hdm. unfold resolve. simpl. rewrite Hdm, app_nil_r.
  by destruct disk.
Qed.

Lemma emitted_fan_out tpl service m tok raw identifier resource_id ev disk arn :
  disk <> [] ->
  is_disk_metric cfg m = true ->
  emitted cfg tpl service m tok raw identifier resource_id ev (Some disk) arn
  = fan_out ev (emitted cfg tpl service m tok raw identifier resource_id ev None arn) disk.
Proof.
  intros Hne Hdm. unfold emitted, fan_out. rewrite resolve_disk by done.
  cbn [dimensions criticality metric set_dimensions set_alarm_name
       set_action_topic_arn].
  rewrite (proj1 (resolve_static _ _ _ _ _ _ _ _ _)). reflexivity.
Qed.
End ResolverFacts.

(** ** Threshold and criticality of a candidate *)

Section Thresholds.
Variable cfg : config.
Variable load_table_item : catalog.

Lemma priority_matches (t : gmap string pyval) tok :
  t !! "priority" = Some (PStr tok) ->
  py_eq (get t "priority") (PStr tok) = true.
Proof.
  intros H. unfold get, get_or. rewrite H. simpl. apply String.eqb_refl.
Qed.




(** X27.  Whatever the tiers, a raw value that does not read ["true"] is the
    threshold of the candidate. *)
Lemma literal_threshold_kept service metric tok raw identifier resource_id ev disk it :
  lower (py_str raw) <> "true" ->
  get_table_item cfg load_table_item service metric tok raw
    identifier resource_id ev disk = Ok (Some it) ->
  threshold it = raw.
Proof.
  intros Hraw (tpl & arn & _ & _ & ->)%get_table_item_inv.
  rewrite emitted_threshold, resolve_threshold.
  rewrite apply_thresholds_literal; [done|].
  simpl. unfold lower_is_true. by apply String.eqb_neq.
Qed.
End Thresholds.

(** ** Dimensions, name and route of a candidate *)

Section Binding.
Variable cfg : config.
Variable load_table_item : catalog.

Lemma bound_binds identifier resource_id md dim d :
  bound identifier resource_id md (DDict dim) = Some d
  <-> binds identifier resource_id md dim d.
Proof.
  unfold bound, bind_dimension. split.
  - destruct (py_eq (get dim "Name") identifier) eqn:Hid.
    + case_bool_decide; [|done]. intros [= <-]. by constructor.
    + destruct (in_metadata md dim) as [v|] eqn:Hmd.
      * assert (match get dim "Name" with
                | PStr n => match md !! n with
                            | Some v => <["Value" := v]> dim
                            | None => dim
                            end
                | _ => dim
                end = <["Value" := v]> dim) as ->.
        { unfold in_metadata in Hmd. destruct (get dim "Name"); try done.
          by rewrite Hmd. }
        case_bool_decide; [|done]. intros [= <-]. by apply binds_metadata.
      * assert (match get dim "Name" with
                | PStr n => match md !! n with
                            | Some v => <["Value" := v]> dim
                            | None => dim
                            end
                | _ => dim
                end = dim) as ->.
        { unfold in_metadata in Hmd. destruct (get dim "Name"); try done.
          by rewrite Hmd. }
        case_bool_decide; [|done]. intros [= <-]. by constructor.
  - intros [Hid|v Hid Hmd|Hid Hmd Hval].
    + rewrite Hid. rewrite bool_decide_eq_true_2; [done|].
      rewrite lookup_insert_eq. by eexists.
    + rewrite Hid. unfold in_metadata in Hmd.
      destruct (get dim "Name"); try done. rewrite Hmd.
      rewrite bool_decide_eq_true_2; [done|].
      rewrite lookup_insert_eq. by eexists.
    + rewrite Hid. unfold in_metadata in Hmd.
      destruct (get dim "Name"); try rewrite Hmd;
        by rewrite bool_decide_eq_true_2.
Qed.

(** C8, as the code has it.  The dimensions of a resolved candidate are
    the template's dimension records after binding, followed by those of
    the disk: a record named as the identifier gets the resource id (the
    identifier is tried first); otherwise one named in the metadata map
    gets that override; one that matches neither is kept unchanged when
    it brings a value of its own, and is dropped only when it has
    none. *)
Theorem dimension_binding service metric tok raw identifier resource_id ev disk it :
  get_table_item cfg load_table_item service metric tok raw
    identifier resource_id ev disk = Ok (Some it) ->
  exists tpl,
    load_table_item service metric = Some tpl
    /\ forall d,
         d ∈ dimensions it
         <-> (exists dim,
                 DDict dim ∈ AlarmConfigTable.dimensions tpl
                 /\ binds identifier resource_id (metadata ev) dim d)
             \/ d ∈ disk_dimensions cfg metric disk.
Proof.
  intros (tpl & arn & Hload & _ & ->)%get_table_item_inv.
  exists tpl. split; [done|]. intros d.
  rewrite emitted_dimensions, resolve_dimensions, elem_of_app, list_elem_of_omap.
  apply or_iff_compat_r. split.
  - intros ([dim|v] & Hin & Hb); [|done].
    exists dim. split; [done|]. by apply bound_binds.
  - intros (dim & Hin & Hb). exists (DDict dim). split; [done|].
    by apply bound_binds.
Qed.

Lemma is_target_disk_named d : is_target d = true <-> disk_named d.
Proof.
  unfold is_target, disk_named, get, get_or, target_names.
  destruct (d !! "Name") as [[|b|z|n]|]; simpl;
    try (split; [done|by intros [|]]).
  rewrite bool_decide_eq_true, !elem_of_cons, elem_of_nil. split.
  - intros [->|[->|[]]]; [by left|by right].
  - intros [[= ->]|[= ->]]; [by left|by right; left].
Qed.

Lemma not_target_disk_named d : is_target d = false <-> ~ disk_named d.
Proof. rewrite <- is_target_disk_named. by destruct (is_target d). Qed.

Lemma Forall_not_target (dims : list (gmap string pyval)) :
  Forall (fun d => is_target d = false) dims
  <-> Forall (fun d => ~ disk_named d) dims.
Proof. apply Forall_iff. intros d. apply not_target_disk_named. Qed.





(** The qualifier segment, case by case. *)
Lemma qualifier_segment_none dims :
  Forall (fun d => is_target d = false) dims -> qualifier_segment dims = "".
Proof.
  intros H. unfold qualifier_segment.
  destruct (List.find is_target dims) as [d|] eqn:Hfind; [|done].
  apply find_some in Hfind as [Hin Ht]. apply list_elem_of_In in Hin.
  rewrite Forall_forall in H. by rewrite (H _ Hin) in Ht.
Qed.

Lemma qualifier_segment_first pre d post :
  Forall (fun d => is_target d = false) pre ->
  is_target d = true ->
  qualifier_segment (pre ++ d :: post)%list
  = (if py_truthy (get d "Value") then "-'" ++ py_str (get d "Value") ++ "'" else "").
Proof.
  intros Hpre Hd. unfold qualifier_segment.
  induction Hpre as [|x pre Hx _ IH]; simpl.
  - by rewrite Hd.
  - by rewrite Hx.
Qed.

End Binding.

(** ** The orchestrator *)

Section OrchestratorFacts.
Variable cfg : config.
Variable load_table_item : catalog.

(** C10.  When the identifier or the resource id of the event is absent
    (missing or [None]), the alarm-building stage returns the empty
    list of candidates and raises nothing, whatever the tags, the disks
    and the catalog: no signal is resolved and no template is looked
    up. *)
Theorem absent_identifier_no_alarms ev disks :
  get (entries ev) "identifier" = PNone \/ get (entries ev) "resource_id" = PNone ->
  get_alarms cfg load_table_item ev disks = Ok [].
Proof.
  unfold get_alarms. intros [-> | ->]; simpl; [done|].
  by rewrite orb_true_r.
Qed.

(** X28.  The same holds for any falsy identifier or resource id, the empty
    string included. *)
Lemma falsy_identifier_no_alarms ev disks :
  py_truthy (get (entries ev) "identifier") = false
  \/ py_truthy (get (entries ev) "resource_id") = false ->
  get_alarms cfg load_table_item ev disks = Ok [].
Proof.
  unfold get_alarms. intros [-> | ->]; simpl; [done|].
  by rewrite orb_true_r.
Qed.

Section WithContext.
Variables (ev : event) (identifier resource_id : pyval).
Hypothesis Hregion : is_Some (entries ev !! "region").
Hypothesis Haccount : is_Some (entries ev !! "account").

(** The tag loop appends to its two accumulators; what it sets aside
    are the disk-metric requests of the tags. *)
Lemma tag_loop_ok tags :
  exists found, forall (alarms : list item) (metas : list meta_data),
    tag_loop cfg load_table_item identifier resource_id ev tags alarms metas
    = Ok ((alarms ++ found)%list, (metas ++ omap (disk_request cfg) tags)%list).
Proof.
  induction tags as [|[k v] tags [found IH]].
  - exists []. intros alarms metas. simpl. by rewrite !app_nil_r.
  - simpl. unfold disk_request at 1. simpl.
    destruct (parse_tag_key k) as [[[s m] p]|].
    + destruct (is_disk_metric cfg m).
      * exists found. intros alarms metas. rewrite IH.
        by rewrite <- app_assoc.
      * destruct (get_table_item_total cfg load_table_item s m p v identifier
                    resource_id ev None Hregion Haccount) as [[alarm|] Hr].
        -- exists (alarm :: found). intros alarms metas. rewrite Hr. simpl.
           rewrite IH. by rewrite <- app_assoc.
        -- exists found. intros alarms metas. rewrite Hr. simpl. by rewrite IH.
    + exists found. intros alarms metas. by rewrite IH.
Qed.

(** One request, one candidate for each disk. *)
Lemma disk_loop_single tpl m disks :
  load_table_item (md_service m) (md_metric m) = Some tpl ->
  is_disk_metric cfg (md_metric m) = true ->
  Forall (fun disk : disk_descriptor => disk <> []) disks ->
  exists common,
    get_table_item cfg load_table_item (md_service m) (md_metric m)
      (md_priority_token m) (md_tag_value m) identifier resource_id ev None
    = Ok (Some common)
    /\ forall alarms : list item,
         disk_loop cfg load_table_item identifier resource_id ev disks [m] alarms
         = Ok (alarms ++ map (fan_out ev common) disks)%list.
Proof.
  intros Hload Hdm Hdisks.
  destruct Hregion as [region Hr], Haccount as [account Ha].
  eexists. split.
  { by eapply get_table_item_ok_arn. }
  induction Hdisks as [|disk disks Hne _ IH]; intros acc; simpl.
  - by rewrite app_nil_r.
  - erewrite get_table_item_ok_arn by done. simpl.
    rewrite IH, <- app_assoc. simpl.
    by rewrite emitted_fan_out.
Qed.
End WithContext.

Lemma disk_request_signal tag :
  is_disk_signal cfg tag = false -> disk_request cfg tag = None.
Proof.
  unfold is_disk_signal, disk_request.
  destruct (parse_tag_key tag.1) as [[[s m] p]|]; [|done]. by intros ->.
Qed.

Lemma disk_requests_none tags :
  Forall (fun tag => is_disk_signal cfg tag = false) tags ->
  omap (disk_request cfg) tags = [].
Proof.
  induction 1 as [|tag tags Ht _ IH]; simpl; [done|].
  by rewrite (disk_request_signal _ Ht).
Qed.

Lemma field_dimension_name_value kv :
  name_value (PStr kv.1) (PStr kv.2) = field_dimension kv.
Proof. unfold name_value, field_dimension. by rewrite insert_empty. Qed.

Lemma field_dimensions disk :
  map (fun kv => name_value (PStr kv.1) (PStr kv.2)) disk
  = map field_dimension disk.
Proof. apply map_ext. intros kv. apply field_dimension_name_value. Qed.

(** The first dimension named [path] or [LogicalDisk] decides the
    segment. *)
Lemma qualifier_segment_kept dims more :
  Exists (fun d => is_target d = true) dims ->
  qualifier_segment (dims ++ more)%list = qualifier_segment dims.
Proof.
  unfold qualifier_segment.
  induction dims as [|d dims IH]; intros H; [by inversion H|]. simpl.
  destruct (is_target d) eqn:Hd; [done|]. apply IH.
  inversion H; subst; [congruence|done].
Qed.

Lemma qualifier_segment_skipped dims more :
  Forall (fun d => is_target d = false) dims ->
  qualifier_segment (dims ++ more)%list = qualifier_segment more.
Proof.
  unfold qualifier_segment.
  induction 1 as [|d dims Hd _ IH]; [done|]. simpl. by rewrite Hd.
Qed.

Lemma is_target_field_dimension k v :
  is_target (field_dimension (k, v))
  = bool_decide (k = "path" \/ k = "LogicalDisk").
Proof.
  unfold is_target, field_dimension, get, get_or, target_names. simpl.
  rewrite lookup_insert_eq. apply bool_decide_ext.
  rewrite !elem_of_cons, elem_of_nil. tauto.
Qed.

Lemma qualifier_segment_fields disk :
  qualifier_segment (map field_dimension disk) = disk_segment disk.
Proof.
  unfold qualifier_segment, disk_segment.
  induction disk as [|[k v] disk IH]; [done|]. simpl.
  rewrite is_target_field_dimension.
  destruct (bool_decide (k = "path" \/ k = "LogicalDisk")); [|done].
  unfold quoted, field_dimension, get, get_or. simpl.
  rewrite lookup_insert_ne by done. by rewrite lookup_singleton_eq.
Qed.

(** Criticality, metric and name of a resolved candidate. *)
Lemma resolved_candidate svc m tok raw identifier resource_id ev disk it :
  get_table_item cfg load_table_item svc m tok raw
    identifier resource_id ev disk = Ok (Some it) ->
  exists crit,
    criticality it = Some crit
    /\ metric it = m
    /\ alarm_name it = Some (expected_alarm_name ev m (dimensions it) crit).
Proof.
  intros (tpl & arn & _ & _ & ->)%get_table_item_inv.
  rewrite emitted_criticality, emitted_alarm_name, emitted_dimensions.
  rewrite resolve_criticality. eexists. split; [done|]. split; [|done].
  exact (proj1 (resolve_static cfg tpl svc m tok raw identifier resource_id
                  ev disk)).
Qed.

Lemma fan_out_same ev common disk :
  same_but_dimensions_and_name (fan_out ev common disk) common.
Proof. unfold same_but_dimensions_and_name. repeat split. Qed.

Lemma fan_out_dimensions ev common disk :
  dimensions (fan_out ev common disk)
  = (dimensions common ++ map field_dimension disk)%list.
Proof.
  unfold fan_out. cbn [dimensions set_alarm_name set_dimensions].
  by rewrite field_dimensions.
Qed.

Lemma fan_out_alarm_name ev common disk crit :
  criticality common = Some crit ->
  alarm_name (fan_out ev common disk)
  = Some (expected_alarm_name ev (metric common)
            (dimensions common ++ map field_dimension disk)%list crit).
Proof.
  intros Hcrit. unfold fan_out. cbn [alarm_name set_alarm_name].
  by rewrite field_dimensions, Hcrit.
Qed.

(** C9, as the code has it.  For an event that carries the context the
    derivation needs (identifier, resource id, region, account), exactly
    one disk-metric tag whose template is in the catalog, and a list of
    discovered disks, the stage emits, after the candidates [others] of
    the other tags, exactly one candidate for each disk, in the order of
    the disks.  Each agrees with the candidate [common] resolved for the
    signal without a disk on every entry but the dimensions and the name.
    Its dimensions are those of [common] followed by one dimension for
    each field of the disk, named as the field and valued as the field.
    Its name carries the disk, the quoted path or drive of the descriptor
    standing between the metric and the severity, provided that no
    dimension of [common] is itself named [path] or [LogicalDisk].  When
    one is, that dimension comes first and the name is the name of
    [common], the same for every disk. *)
Theorem disk_fan_out ev disks pre k v post svc m tok tpl :
  py_truthy (get (entries ev) "identifier") = true ->
  py_truthy (get (entries ev) "resource_id") = true ->
  is_Some (entries ev !! "region") ->
  is_Some (entries ev !! "account") ->
  tags ev = (pre ++ (k, v) :: post)%list ->
  parse_tag_key k = Some (svc, m, tok) ->
  is_disk_metric cfg m = true ->
  Forall (fun tag => is_disk_signal cfg tag = false) (pre ++ post)%list ->
  load_table_item svc m = Some tpl ->
  Forall (fun disk : disk_descriptor => disk <> []) disks ->
  exists others common crit per_disk,
    get_alarms cfg load_table_item ev [] = Ok others
    /\ get_table_item cfg load_table_item svc m tok v
         (get (entries ev) "identifier") (get (entries ev) "resource_id") ev None
       = Ok (Some common)
    /\ criticality common = Some crit
    /\ get_alarms cfg load_table_item ev disks = Ok (others ++ per_disk)%list
    /\ length per_disk = length disks
    /\ Forall2
         (fun disk c =>
            same_but_dimensions_and_name c common
            /\ dimensions c = (dimensions common ++ map field_dimension disk)%list
            /\ (Forall (fun d => ~ disk_named d) (dimensions common) ->
                alarm_name c
                = Some (name_stem ev m ++ disk_segment disk
                        ++ "-Severity: " ++ py_str crit))
            /\ (Exists disk_named (dimensions common) ->
                alarm_name c = alarm_name common))
         disks per_disk.
Proof.
  intros Hid Hrid Hr Ha Htags Hk Hdm Hothers Hload Hdisks.
  apply Forall_app in Hothers as [Hpre Hpost].
  destruct (tag_loop_ok ev (get (entries ev) "identifier")
              (get (entries ev) "resource_id") Hr Ha (tags ev)) as [found Hfound].
  assert (omap (disk_request cfg) (tags ev)
          = [{| md_service := svc; md_metric := m;
                md_priority_token := tok; md_tag_value := v |}]) as Hreq.
  { rewrite Htags, omap_app, (disk_requests_none _ Hpre).
    change ((k, v) :: post) with ([(k, v)] ++ post)%list.
    rewrite omap_app, (disk_requests_none _ Hpost).
    simpl. unfold disk_request. simpl. by rewrite Hk, Hdm. }
  set (req := {| md_service := svc; md_metric := m;
                 md_priority_token := tok; md_tag_value := v |}) in *.
  destruct (disk_loop_single ev (get (entries ev) "identifier")
              (get (entries ev) "resource_id") Hr Ha tpl req disks
              Hload Hdm Hdisks) as (common & Hcommon & Hloop).
  simpl in Hcommon.
  destruct (resolved_candidate _ _ _ _ _ _ _ _ _ Hcommon)
    as (crit & Hcrit & Hmetric & Hname).
  exists found, common, crit, (map (fan_out ev common) disks).
  split.
  { unfold get_alarms. rewrite Hid, Hrid. simpl. by rewrite Hfound. }
  split; [done|]. split; [done|]. split.
  { unfold get_alarms. rewrite Hid, Hrid. simpl. rewrite Hfound, Hreq. simpl.
    by rewrite Hloop. }
  split; [by rewrite length_map|].
  apply Forall2_fmap_r, Forall_Forall2_diag, Forall_forall. intros disk _.
  unfold compose.
  split; [apply (fan_out_same ev common disk)|].
  split; [apply (fan_out_dimensions ev common disk)|].
  rewrite (fan_out_alarm_name ev common disk crit Hcrit), Hmetric.
  unfold expected_alarm_name. split.
  - intros Hplain%Forall_not_target.
    by rewrite qualifier_segment_skipped, qualifier_segment_fields.
  - intros Hnamed. rewrite Hname. unfold expected_alarm_name.
    rewrite qualifier_segment_kept; [done|].
    eapply Exists_impl; [exact Hnamed|]. intros d. apply is_target_disk_named.
Qed.
End OrchestratorFacts.

(** ** Disk discovery *)

Section Discovery.
Variable cfg : config.
Variable load_table_item : catalog.

(** Every descriptor that discovery returns has fields. *)
Lemma parse_line_nonempty os_type line :
  Forall (fun disk : disk_descriptor => disk <> []) (parse_line os_type line).
Proof.
  unfold parse_line. destruct (strip line) as [|c r]; [by constructor|].
  destruct (String.eqb (lower os_type) "linux").
  - destruct (split_ws (c :: r)) as [|a [|b [|p rest]]];
      repeat constructor; done.
  - repeat constructor; done.
Qed.

Lemma discover_disks_nonempty w os_type :
  Forall (fun disk : disk_descriptor => disk <> []) (discover_disks w os_type).
Proof.
  unfold discover_disks.
  destruct (String.eqb (lower os_type) "linux");
    (destruct (send_command w _ _); [|by constructor]);
    (destruct (get_command_invocation w 5); [|by constructor]);
    apply Forall_concat, Forall_fmap, Forall_forall;
    intros line _; apply parse_line_nonempty.
Qed.

Lemma elem_of_concat_fmap {A B} (f : A -> list B) (l : list A) (x : B) :
  x ∈ concat (map f l) <-> exists y, y ∈ l /\ x ∈ f y.
Proof.
  rewrite list_elem_of_In, in_concat. split.
  - intros (ys & Hys & Hx). apply in_map_iff in Hys as (y & <- & Hy).
    exists y. by rewrite !list_elem_of_In.
  - intros (y & Hy & Hx). exists (f y). split.
    + apply in_map. by apply list_elem_of_In.
    + by apply list_elem_of_In.
Qed.

(** What the body of the loop makes of one line. *)
Lemma parse_line_lists os_type line disk :
  disk ∈ parse_line os_type line
  <-> (lower os_type = "linux"
       /\ exists device_full fstype path rest,
            split_ws (strip line) = device_full :: fstype :: path :: rest
            /\ disk = [("device", basename device_full); ("fstype", fstype);
                       ("path", path)])
      \/ (lower os_type <> "linux"
          /\ strip line <> []
          /\ disk = [("LogicalDisk", string_of_list_ascii (strip line))]).
Proof.
  unfold parse_line.
  destruct (String.eqb_spec (lower os_type) "linux") as [Hos|Hos].
  - destruct (strip line) as [|c r] eqn:Hstrip.
    + split; [by intros ?%elem_of_nil|].
      intros [(_ & a & b & p & rest & Hs & _)|[? _]]; done.
    + destruct (split_ws (c :: r)) as [|a [|b [|p rest]]] eqn:Hs.
      * split; [by intros ?%elem_of_nil|].
        intros [(_ & a' & b' & p' & rest' & Hs' & _)|[? _]]; done.
      * split; [by intros ?%elem_of_nil|].
        intros [(_ & a' & b' & p' & rest' & Hs' & _)|[? _]]; done.
      * split; [by intros ?%elem_of_nil|].
        intros [(_ & a' & b' & p' & rest' & Hs' & _)|[? _]]; done.
      * split.
        -- intros ->%list_elem_of_singleton. left. split; [done|].
           by exists a, b, p, rest.
        -- intros [(_ & a' & b' & p' & rest' & [= <- <- <- <-] & ->)|[? _]];
             [|done].
           apply list_elem_of_here.
  - destruct (strip line) as [|c r] eqn:Hstrip.
    + split; [by intros ?%elem_of_nil|].
      intros [[? _]|(_ & ? & _)]; done.
    + split.
      * intros ->%list_elem_of_singleton. right. done.
      * intros [[? _]|(_ & _ & ->)]; [done|]. apply list_elem_of_here.
Qed.

(** The disks of a read that succeeded are those its output lists. *)
Lemma discover_disks_listed w os_type resp disk :
  (forall doc cmd, send_command w doc cmd = Ok ()) ->
  get_command_invocation w 5 = Ok resp ->
  disk ∈ discover_disks w os_type
  <-> listed os_type (default "" (StandardOutputContent resp)) disk.
Proof.
  intros Hsend Hread.
  assert (discover_disks w os_type
          = concat (map (parse_line os_type)
                      (splitlines (default "" (StandardOutputContent resp)))))
    as ->.
  { unfold discover_disks. rewrite Hread.
    destruct (String.eqb _ _); by rewrite Hsend. }
  rewrite elem_of_concat_fmap. split.
  - intros (line & Hline & Hdisk). apply parse_line_lists in Hdisk
      as [(Hos & a & b & p & rest & Hs & ->)|(Hos & Hne & ->)].
    + by eapply listed_linux.
    + by eapply listed_drive.
  - intros [line a b p rest Hos Hline Hs|line Hos Hline Hne];
      exists line; (split; [done|]); apply parse_line_lists.
    + left. split; [done|]. by exists a, b, p, rest.
    + right. done.
Qed.

(** C7, as the code has it.  Disk discovery does not poll: after the
    command is submitted it waits one fixed interval of five seconds and
    reads the invocation once.  Its result depends on that single read
    only.  When the read succeeds, the disks returned are exactly those
    the output of the read lists, whatever the status it reports: a
    command that is still running or has failed gives the disks of the
    output it has so far.  When the read fails (a command that is not
    registered yet included) or brings no output (a command still
    pending), discovery yields no disks, and the stage then emits what
    it emits for the instance without disks. *)
Theorem discovery_reads_once (os_type : string) :
  (forall w w',
      send_command w = send_command w' ->
      get_command_invocation w 5 = get_command_invocation w' 5 ->
      discover_disks w os_type = discover_disks w' os_type)
  /\ (forall w resp disk,
        (forall doc cmd, send_command w doc cmd = Ok ()) ->
        get_command_invocation w 5 = Ok resp ->
        disk ∈ discover_disks w os_type
        <-> listed os_type (default "" (StandardOutputContent resp)) disk)
  /\ (forall w w' resp status,
        send_command w = send_command w' ->
        get_command_invocation w 5 = Ok resp ->
        get_command_invocation w' 5
        = Ok {| Status := status;
                StandardOutputContent := StandardOutputContent resp |} ->
        discover_disks w os_type = discover_disks w' os_type)
  /\ (forall w e,
        get_command_invocation w 5 = Raise e -> discover_disks w os_type = [])
  /\ (forall w resp,
        get_command_invocation w 5 = Ok resp ->
        default "" (StandardOutputContent resp) = "" ->
        discover_disks w os_type = [])
  /\ (forall w ev,
        (exists e, get_command_invocation w 5 = Raise e)
        \/ (exists resp, get_command_invocation w 5 = Ok resp
              /\ default "" (StandardOutputContent resp) = "") ->
        get_alarms cfg load_table_item ev (discover_disks w os_type)
        = get_alarms cfg load_table_item ev []).
Proof.
  assert (forall w e,
             get_command_invocation w 5 = Raise e -> discover_disks w os_type = [])
    as Hraise.
  { intros w e He. unfold discover_disks. rewrite He.
    by destruct (String.eqb _ _), (send_command w _ _). }
  assert (forall w resp,
             get_command_invocation w 5 = Ok resp ->
             default "" (StandardOutputContent resp) = "" ->
             discover_disks w os_type = [])
    as Hempty.
  { intros w resp Hresp Hout. unfold discover_disks. rewrite Hresp, Hout.
    by destruct (String.eqb _ _), (send_command w _ _). }
  split; [|split; [|split; [|split; [|split]]]]; [| | |done|done|].
  - intros w w' Hsend Hread. unfold discover_disks. by rewrite Hsend, Hread.
  - intros w resp disk. apply discover_disks_listed.
  - intros w w' resp status Hsend Hread Hread'. unfold discover_disks.
    by rewrite Hsend, Hread, Hread'.
  - intros w ev [[e He]|(resp & Hresp & Hout)].
    + by rewrite (Hraise w e He).
    + by rewrite (Hempty w resp Hresp Hout).
Qed.

(** [wait_for_command] is where polling is done.  With a positive poll
    interval the loop ends within the iterations allotted to it. *)
Lemma wait_loop_ends w poll deadline fuel now :
  0 < poll ->
  deadline <= now + fuel * poll ->
  is_Some (wait_loop (S fuel) w now deadline poll).
Proof.
  intros Hpoll. revert now.
  induction fuel as [|fuel IH]; intros now Hd.
  - simpl. destruct (Nat.ltb_spec now deadline); [lia|]. by eexists.
  - assert (is_Some (wait_loop (S fuel) w (now + poll) deadline poll)) as Hnext.
    { apply IH. lia. }
    change (wait_loop (S (S fuel)) w now deadline poll) with
      (if Nat.ltb now deadline then
         match get_command_invocation w now with
         | Raise (ClientError code) =>
             if String.eqb code "InvocationDoesNotExist"
             then wait_loop (S fuel) w (now + poll) deadline poll
             else Some (Raise (ClientError code))
         | Raise e => Some (Raise e)
         | Ok resp =>
             if String.eqb (Status resp) "Success" then Some (Ok resp)
             else if bool_decide (Status resp ∈ ["Failed"; "Cancelled"; "TimedOut"])
             then Some (Ok resp)
             else wait_loop (S fuel) w (now + poll) deadline poll
         end
       else Some (Raise TimeoutError)).
    destruct (Nat.ltb now deadline); [|by eexists].
    destruct (get_command_invocation w now) as [resp|[key|code|]];
      try by eexists.
    + destruct (String.eqb _ _); [by eexists|].
      destruct (bool_decide _); [by eexists|done].
    + destruct (String.eqb _ _); [done|by eexists].
Qed.

Lemma wait_for_command_ends w start timeout poll :
  0 < poll -> is_Some (wait_for_command w start timeout poll).
Proof.
  intros Hpoll. apply wait_loop_ends; [done|]. nia.
Qed.

(** A command that stays unfinished makes the wait end in a timeout. *)
Lemma wait_loop_timeout w poll deadline fuel now out :
  (forall t, unfinished (get_command_invocation w t)) ->
  wait_loop fuel w now deadline poll = Some out ->
  out = Raise TimeoutError.
Proof.
  intros Hun. revert now.
  induction fuel as [|fuel IH]; intros now; simpl; [done|].
  destruct (Nat.ltb now deadline); [|by intros [= <-]].
  specialize (Hun now). unfold unfinished in Hun.
  destruct (get_command_invocation w now) as [resp|[key|code|]]; try done.
  - destruct (String.eqb_spec (Status resp) "Success") as [Hs|_].
    { exfalso. apply Hun. rewrite Hs. apply list_elem_of_here. }
    case_bool_decide as Hterm; [|by apply IH].
    exfalso. apply Hun. by apply list_elem_of_further.
  - subst code. simpl. apply IH.
Qed.

Lemma wait_for_command_timeout w start timeout poll :
  0 < poll ->
  (forall t, unfinished (get_command_invocation w t)) ->
  wait_for_command w start timeout poll = Some (Raise TimeoutError).
Proof.
  intros Hpoll Hun.
  destruct (wait_for_command_ends w start timeout poll Hpoll) as [out Hout].
  rewrite Hout. f_equal. by eapply wait_loop_timeout.
Qed.
End Discovery.

(** ** The handler's loop over the dimensions *)

Lemma list_remove_length x l : length (list_remove x l) <= length l.
Proof.
  induction l as [|y l IH]; simpl; [done|].
  destruct (dict_eqb y x); simpl; lia.
Qed.

(** The iterations allotted to the loop are enough: one more changes
    nothing. *)
Lemma prune_loop_fuel fuel i l :
  length l <= i + fuel -> prune_loop (S fuel) i l = prune_loop fuel i l.
Proof.
  revert i l. induction fuel as [|fuel IH]; intros i l Hlen.
  - simpl. rewrite lookup_ge_None_2 by lia. done.
  - change (prune_loop (S (S fuel)) i l) with
      (match l !! i with
       | None => Ok l
       | Some dimension =>
           name ← getitem dimension "Name";
           value ← getitem dimension "Value";
           if py_eq name value
           then prune_loop (S fuel) (S i) (list_remove dimension l)
           else prune_loop (S fuel) (S i) l
       end).
    change (prune_loop (S fuel) i l) with
      (match l !! i with
       | None => Ok l
       | Some dimension =>
           name ← getitem dimension "Name";
           value ← getitem dimension "Value";
           if py_eq name value
           then prune_loop fuel (S i) (list_remove dimension l)
           else prune_loop fuel (S i) l
       end).
    destruct (l !! i) as [d|]; [|done].
    destruct (getitem d "Name") as [name|e]; [|done].
    destruct (getitem d "Value") as [value|e]; [|done].
    simpl. destruct (py_eq name value).
    + apply IH. pose proof (list_remove_length d l). lia.
    + apply IH. lia.
Qed.

(** Without a removal the loop leaves the list as it is. *)
Lemma prune_loop_unchanged fuel i l :
  Forall (fun d : gmap string pyval =>
            exists name value,
              d !! "Name" = Some name /\ d !! "Value" = Some value
              /\ py_eq name value = false) l ->
  prune_loop fuel i l = Ok l.
Proof.
  intros Hall. revert i. induction fuel as [|fuel IH]; intros i; simpl; [done|].
  destruct (l !! i) as [d|] eqn:Hd; [|done].
  apply list_elem_of_lookup_2 in Hd. rewrite Forall_forall in Hall.
  destruct (Hall d Hd) as (name & value & Hn & Hv & Hne).
  unfold getitem. rewrite Hn, Hv. simpl. rewrite Hne. apply IH.
Qed.

(** When discovery yields no disks the handler emits what the event yields
    without disks, pruned. *)
Lemma lambda_handler_without_disks cfg load_table_item w ev out :
  (forall os_type, get_os_type w = Some os_type -> discover_disks w os_type = []) ->
  lambda_handler cfg load_table_item w ev = Ok out ->
  exists alarms,
    get_alarms cfg load_table_item ev [] = Ok alarms
    /\ prune_alarms alarms = Ok out.
Proof.
  intros Hnone. unfold lambda_handler.
  destruct (assume_role w ev) as [[]|]; [|done].
  destruct (session_credentials w) as [[]|]; [|done].
  destruct (getitem (entries ev) "service") as [service|]; [|done].
  cbn [mbind result_bind].
  set (is_instance := if py_eq service (PStr "ec2") then _ else _).
  destruct is_instance as [[|]|]; [| |done]; cbn [mbind result_bind].
  - destruct (getitem (entries ev) "resource_id") as [rid|]; [|done].
    cbn [mbind result_bind].
    destruct (get_os_type w) as [os_type|] eqn:Hos; cbn [mbind result_bind].
    + rewrite (Hnone os_type eq_refl).
      destruct (get_alarms cfg load_table_item ev []) as [alarms|]; [|done].
      intros Hout. by exists alarms.
    + destruct (get_alarms cfg load_table_item ev []) as [alarms|]; [|done].
      intros Hout. by exists alarms.
  - destruct (get_alarms cfg load_table_item ev []) as [alarms|]; [|done].
    intros Hout. by exists alarms.
Qed.

(** ** The claims on the scenarios *)

Example split_on_tag :
  split_on ":"%char Scenario.cpu_tag = ["Org"; "Monitor"; "EC2"; "CPUUtilization"; "P1"].
Proof. reflexivity. Qed.

Example parse_cpu_tag :
  parse_tag_key Scenario.cpu_tag = Some ("EC2", "CPUUtilization", "P1").
Proof. reflexivity. Qed.

Example parse_short_key : parse_tag_key "Monitor:P1" = None.
Proof. reflexivity. Qed.

Example parse_bad_priority : parse_tag_key "Org:Monitor:EC2:CPUUtilization:P4" = None.
Proof. reflexivity. Qed.

Example lower_true_casings :
  lower "TRUE" = "true" /\ lower "True" = "true" /\ lower "true" = "true".
Proof. repeat split; reflexivity. Qed.

Example py_str_int :
  py_str (PInt 95) = "95" /\ py_str (PInt 0) = "0" /\ py_str (PInt (-3)) = "-3".
Proof. repeat split; reflexivity. Qed.

Example linux_listing :
  concat (map (parse_line "Linux")
            (splitlines ("/dev/xvda1 ext4 /data" ++ String LF "tmpfs tmpfs")))
  = [[("device", "xvda1"); ("fstype", "ext4"); ("path", "/data")]].
Proof. reflexivity. Qed.




(** C3 fails on the code: two tags that resolve to the same alarm name
    both reach the emitted list. *)
Theorem duplicate_names_emitted :
  exists first second,
    lambda_handler Seed.cfg Seed.table Seed.quiet Scenario.twice_event
    = Ok [first; second]
    /\ alarm_name first = alarm_name second
    /\ alarm_name first
       = Some "acme-111122223333-ec2-instance-i-123-CPUUtilization-Severity: Critical".
Proof.
  eexists _, _. split; [vm_compute; reflexivity|]. split; reflexivity.
Qed.

(** C4 fails on the code: for the memory template of the seed data the
    emitted candidate retains the dimension [ImageId] whose value is its
    name; the handler's loop skips it after removing its neighbour. *)
Theorem placeholder_dimension_retained :
  exists alarm,
    lambda_handler Seed.cfg Seed.table Seed.quiet Scenario.memory_event = Ok [alarm]
    /\ dimensions alarm
       = [name_value (PStr "InstanceId") (PStr "i-123");
          name_value (PStr "ImageId") (PStr "ImageId")].
Proof.
  eexists. split; [vm_compute; reflexivity|]. vm_compute. reflexivity.
Qed.


Example placeholder_names_the_alarm :
  (it ← get_table_item Seed.cfg Scenario.placeholder_table "EC2"
          "disk_used_percent" "P1" (PStr "true") (PStr "InstanceId")
          (PStr "i-123") Scenario.only_disk_event None;
   Ok (it ≫= alarm_name))
  = Ok (Some "acme-111122223333-ec2-instance-i-123-disk_used_percent-'path'-Severity: Critical").
Proof. vm_compute. reflexivity. Qed.




(** C7 fails as stated: a command that is registered ten seconds after
    its submission, and has succeeded by then, gives disk discovery no
    disks, although waiting for it with [wait_for_command] would have
    returned its listing well before the deadline. *)
Lemma late_command_counterexample :
  discover_disks Scenario.late "Linux" = []
  /\ wait_for_command Scenario.late 0 180 5 = Some (Ok Scenario.listing)
  /\ concat (map (parse_line "Linux")
               (splitlines (default "" (StandardOutputContent Scenario.listing))))
     = [[("device", "xvda1"); ("fstype", "ext4"); ("path", "/data")]].
Proof. repeat split; vm_compute; reflexivity. Qed.

(** A command still running after five seconds gives the disk its output
    lists so far; one that is not registered by then gives none, and the
    stage emits what it emits without disks. *)
Lemma discovery_reads_once_witness :
  [("device", "xvda1"); ("fstype", "ext4"); ("path", "/data")]
    ∈ discover_disks Scenario.running "Linux"
  /\ get_alarms Seed.cfg Seed.table Scenario.disk_event
       (discover_disks Scenario.late "Linux")
     = get_alarms Seed.cfg Seed.table Scenario.disk_event [].
Proof.
  destruct (discovery_reads_once Seed.cfg Seed.table "Linux")
    as (_ & Hlisted & _ & _ & _ & H).
  split.
  - apply (Hlisted Scenario.running
             {| Status := "InProgress";
                StandardOutputContent := Some "/dev/xvda1 ext4 /data" |}).
    + intros doc cmd. reflexivity.
    + reflexivity.
    + apply (listed_linux "Linux" "/dev/xvda1 ext4 /data"
               (list_ascii_of_string "/dev/xvda1 ext4 /data")
               "/dev/xvda1" "ext4" "/data" []).
      * reflexivity.
      * vm_compute. apply list_elem_of_here.
      * vm_compute. reflexivity.
  - apply (H Scenario.late Scenario.disk_event).
    left. eexists. vm_compute. reflexivity.
Defined.

(** The dimensions of the CPU candidate. *)
Lemma dimension_binding_witness :
  exists it tpl,
    get_table_item Seed.cfg Seed.table "EC2" "CPUUtilization" "P1" (PStr "true")
      (PStr "InstanceId") (PStr "i-123") (Scenario.cpu_event "true") None
    = Ok (Some it)
    /\ Seed.table "EC2" "CPUUtilization" = Some tpl
    /\ forall d,
         d ∈ dimensions it
         <-> (exists dim,
                 DDict dim ∈ AlarmConfigTable.dimensions tpl
                 /\ binds (PStr "InstanceId") (PStr "i-123")
                      (metadata (Scenario.cpu_event "true")) dim d)
             \/ d ∈ disk_dimensions Seed.cfg "CPUUtilization" None.
Proof.
  destruct (get_table_item_ok Seed.cfg Seed.table "EC2" "CPUUtilization" "P1"
              (PStr "true") (PStr "InstanceId") (PStr "i-123")
              (Scenario.cpu_event "true") None Seed.cpu_utilization)
    as [arn Hit].
  - reflexivity.
  - vm_compute. eexists. reflexivity.
  - vm_compute. eexists. reflexivity.
  - destruct (dimension_binding Seed.cfg Seed.table "EC2" "CPUUtilization" "P1"
                (PStr "true") (PStr "InstanceId") (PStr "i-123")
                (Scenario.cpu_event "true") None _ Hit) as (tpl & Htpl & Hdims).
    eexists _, tpl. split; [exact Hit|]. split; [exact Htpl|exact Hdims].
Defined.

(** C8 fails as stated: a template dimension named [Environment], with
    the literal value [prod], matches neither the identifier nor a key of
    the metadata map and is in the emitted candidate all the same. *)
Lemma literal_dimension_counterexample :
  exists it,
    lambda_handler Seed.cfg Scenario.literal_table Seed.quiet Scenario.literal_event
    = Ok [it]
    /\ Scenario.environment_dimension ∈ dimensions it
    /\ py_eq (get Scenario.environment_dimension "Name")
         (get (entries Scenario.literal_event) "identifier") = false
    /\ in_metadata (metadata Scenario.literal_event) Scenario.environment_dimension
       = None.
Proof.
  eexists. split; [vm_compute; reflexivity|]. split.
  - apply list_elem_of_further, list_elem_of_here.
  - split; reflexivity.
Qed.

(** One disk request and two disks: two candidates after the CPU one. *)
Lemma disk_fan_out_witness :
  exists others common crit per_disk,
    get_alarms Seed.cfg Seed.table Scenario.disk_event [] = Ok others
    /\ get_table_item Seed.cfg Seed.table "EC2" "disk_used_percent" "P1" (PStr "true")
         (get (entries Scenario.disk_event) "identifier")
         (get (entries Scenario.disk_event) "resource_id") Scenario.disk_event None
       = Ok (Some common)
    /\ criticality common = Some crit
    /\ get_alarms Seed.cfg Seed.table Scenario.disk_event Scenario.two_disks
       = Ok (others ++ per_disk)%list
    /\ length per_disk = length Scenario.two_disks
    /\ Forall2
         (fun disk c =>
            same_but_dimensions_and_name c common
            /\ dimensions c = (dimensions common ++ map field_dimension disk)%list
            /\ (Forall (fun d => ~ disk_named d) (dimensions common) ->
                alarm_name c
                = Some (name_stem Scenario.disk_event "disk_used_percent"
                        ++ disk_segment disk ++ "-Severity: " ++ py_str crit))
            /\ (Exists disk_named (dimensions common) ->
                alarm_name c = alarm_name common))
         Scenario.two_disks per_disk.
Proof.
  apply (disk_fan_out Seed.cfg Seed.table Scenario.disk_event Scenario.two_disks
           [(Scenario.cpu_tag, PStr "true")] Scenario.disk_tag (PStr "true") []
           "EC2" "disk_used_percent" "P1" Seed.disk_used_percent).
  - reflexivity.
  - reflexivity.
  - vm_compute. eexists. reflexivity.
  - vm_compute. eexists. reflexivity.
  - reflexivity.
  - reflexivity.
  - reflexivity.
  - repeat constructor.
  - reflexivity.
  - repeat constructor; discriminate.
Defined.

(** C9 fails as stated: with a disk template that has a placeholder
    dimension named [path], the candidates of the two discovered disks
    have the dimensions of their disks and one and the same name, which
    carries the value of the placeholder and not the path of either
    disk. *)
Lemma shared_name_counterexample :
  discover_disks Scenario.listing_two "Linux" = Scenario.two_disks
  /\ exists first second,
       get_alarms Seed.cfg Scenario.placeholder_table Scenario.only_disk_event
         Scenario.two_disks
       = Ok [first; second]
       /\ field_dimension ("path", "/") ∈ dimensions first
       /\ field_dimension ("path", "/data") ∈ dimensions second
       /\ alarm_name first
          = Some "acme-111122223333-ec2-instance-i-123-disk_used_percent-'path'-Severity: Critical"
       /\ alarm_name second = alarm_name first.
Proof.
  split; [vm_compute; reflexivity|].
  eexists _, _. split; [vm_compute; reflexivity|].
  split; [vm_compute; do 4 apply list_elem_of_further; apply list_elem_of_here|].
  split; [vm_compute; do 4 apply list_elem_of_further; apply list_elem_of_here|].
  split; reflexivity.
Qed.

Example names_of_the_three_candidates :
  (alarms ← get_alarms Seed.cfg Seed.table Scenario.disk_event Scenario.two_disks;
   Ok (map alarm_name alarms))
  = Ok [Some "acme-111122223333-ec2-instance-i-123-CPUUtilization-Severity: Critical";
        Some "acme-111122223333-ec2-instance-i-123-disk_used_percent-'/'-Severity: Critical";
        Some "acme-111122223333-ec2-instance-i-123-disk_used_percent-'/data'-Severity: Critical"].
Proof. vm_compute. reflexivity. Qed.

(** An event without identifier yields no candidate. *)
Lemma absent_identifier_no_alarms_witness :
  get_alarms Seed.cfg Seed.table Scenario.no_identifier_event Scenario.two_disks = Ok [].
Proof.
  apply (absent_identifier_no_alarms Seed.cfg Seed.table
           Scenario.no_identifier_event Scenario.two_disks).
  left. reflexivity.
Defined.
(** ** More on the orchestrator: tags that yield nothing *)

Section SkippedTags.
Variable cfg : config.
Variable load_table_item : catalog.

Lemma get_table_item_with_tags service m tok raw identifier resource_id ev ts disk :
  get_table_item cfg load_table_item service m tok raw identifier resource_id
    (with_tags ev ts) disk
  = get_table_item cfg load_table_item service m tok raw identifier resource_id ev disk.
Proof. reflexivity. Qed.

Lemma tag_loop_with_tags identifier resource_id ev ts tags alarms metas :
  tag_loop cfg load_table_item identifier resource_id (with_tags ev ts) tags alarms metas
  = tag_loop cfg load_table_item identifier resource_id ev tags alarms metas.
Proof.
  revert alarms metas. induction tags as [|[k v] tags IH]; intros alarms metas; [done|].
  simpl. destruct (parse_tag_key k) as [[[s m] p]|]; [|apply IH].
  destruct (is_disk_metric cfg m); [apply IH|].
  rewrite get_table_item_with_tags.
  destruct (get_table_item _ _ _ _ _ _ _ _ _ _) as [[alarm|]|e]; simpl; [apply IH|apply IH|done].
Qed.

Lemma meta_loop_with_tags identifier resource_id ev ts disk metas alarms :
  meta_loop cfg load_table_item identifier resource_id (with_tags ev ts) disk metas alarms
  = meta_loop cfg load_table_item identifier resource_id ev disk metas alarms.
Proof.
  revert alarms. induction metas as [|m metas IH]; intros alarms; [done|].
  simpl. rewrite get_table_item_with_tags.
  destruct (get_table_item _ _ _ _ _ _ _ _ _ _) as [[alarm|]|e]; simpl; [apply IH|apply IH|done].
Qed.

Lemma disk_loop_with_tags identifier resource_id ev ts disks metas alarms :
  disk_loop cfg load_table_item identifier resource_id (with_tags ev ts) disks metas alarms
  = disk_loop cfg load_table_item identifier resource_id ev disks metas alarms.
Proof.
  revert alarms. induction disks as [|disk disks IH]; intros alarms; [done|].
  simpl. rewrite meta_loop_with_tags.
  destruct (meta_loop _ _ _ _ _ _ _ _) as [alarms'|e]; simpl; [apply IH|done].
Qed.

(** The tag loop only appends to its accumulators. *)
Lemma tag_loop_acc identifier resource_id ev tags (alarms : list item)
    (metas : list meta_data) :
  tag_loop cfg load_table_item identifier resource_id ev tags alarms metas
  = (r ← tag_loop cfg load_table_item identifier resource_id ev tags [] [];
     Ok ((alarms ++ r.1)%list, (metas ++ r.2)%list)).
Proof.
  revert alarms metas. induction tags as [|[k v] tags IH]; intros alarms metas.
  - simpl. by rewrite !app_nil_r.
  - simpl. destruct (parse_tag_key k) as [[[s m] p]|]; [|apply IH].
    destruct (is_disk_metric cfg m).
    + rewrite IH. rewrite (IH [] [_]).
      destruct (tag_loop _ _ _ _ _ tags [] []) as [[a ms]|e]; simpl; [|done].
      by rewrite <- app_assoc.
    + destruct (get_table_item _ _ _ _ _ _ _ _ _ _) as [[alarm|]|e]; simpl; [| |done].
      * rewrite IH. rewrite (IH [_] []).
        destruct (tag_loop _ _ _ _ _ tags [] []) as [[a ms]|e]; simpl; [|done].
        by rewrite <- app_assoc.
      * apply IH.
Qed.

Lemma tag_loop_app identifier resource_id ev tags1 tags2 (alarms : list item)
    (metas : list meta_data) :
  tag_loop cfg load_table_item identifier resource_id ev (tags1 ++ tags2) alarms metas
  = (r ← tag_loop cfg load_table_item identifier resource_id ev tags1 alarms metas;
     tag_loop cfg load_table_item identifier resource_id ev tags2 r.1 r.2).
Proof.
  revert alarms metas. induction tags1 as [|[k v] tags1 IH]; intros alarms metas; [done|].
  simpl. destruct (parse_tag_key k) as [[[s m] p]|]; [|apply IH].
  destruct (is_disk_metric cfg m); [apply IH|].
  destruct (get_table_item _ _ _ _ _ _ _ _ _ _) as [[alarm|]|e]; simpl; [apply IH|apply IH|done].
Qed.

(** A request whose template is missing adds nothing to a disk's
    candidates. *)
Lemma meta_loop_skip identifier resource_id ev disk pre m post (alarms : list item) :
  load_table_item (md_service m) (md_metric m) = None ->
  meta_loop cfg load_table_item identifier resource_id ev disk (pre ++ m :: post) alarms
  = meta_loop cfg load_table_item identifier resource_id ev disk (pre ++ post) alarms.
Proof.
  intros Hm. revert alarms. induction pre as [|x pre IH]; intros alarms; simpl.
  - by rewrite get_table_item_missing.
  - destruct (get_table_item _ _ _ _ _ _ _ _ _ _) as [[alarm|]|e]; simpl; [apply IH|apply IH|done].
Qed.

Lemma disk_loop_skip identifier resource_id ev disks pre m post (alarms : list item) :
  load_table_item (md_service m) (md_metric m) = None ->
  disk_loop cfg load_table_item identifier resource_id ev disks (pre ++ m :: post) alarms
  = disk_loop cfg load_table_item identifier resource_id ev disks (pre ++ post) alarms.
Proof.
  intros Hm. revert alarms. induction disks as [|disk disks IH]; intros alarms; [done|].
  simpl. rewrite meta_loop_skip by done.
  destruct (meta_loop _ _ _ _ _ _ _ _) as [alarms'|e]; simpl; [apply IH|done].
Qed.

(** The tag loop around one tag, for a tag that is set aside as a disk
    request. *)
Lemma tag_loop_disk_request identifier resource_id ev pre k v post s m p :
  parse_tag_key k = Some (s, m, p) ->
  is_disk_metric cfg m = true ->
  tag_loop cfg load_table_item identifier resource_id ev (pre ++ (k, v) :: post) [] []
  = (r1 ← tag_loop cfg load_table_item identifier resource_id ev pre [] [];
     r2 ← tag_loop cfg load_table_item identifier resource_id ev post [] [];
     Ok ((r1.1 ++ r2.1)%list,
         (r1.2 ++ {| md_service := s; md_metric := m;
                     md_priority_token := p; md_tag_value := v |} :: r2.2)%list)).
Proof.
  intros Hk Hdm. rewrite tag_loop_app.
  destruct (tag_loop _ _ _ _ _ pre [] []) as [[a1 m1]|e]; simpl; [|done].
  rewrite Hk, Hdm. rewrite tag_loop_acc.
  destruct (tag_loop _ _ _ _ _ post [] []) as [[a2 m2]|e]; simpl; [|done].
  by rewrite <- app_assoc.
Qed.

Lemma tag_loop_around identifier resource_id ev pre post :
  tag_loop cfg load_table_item identifier resource_id ev (pre ++ post) [] []
  = (r1 ← tag_loop cfg load_table_item identifier resource_id ev pre [] [];
     r2 ← tag_loop cfg load_table_item identifier resource_id ev post [] [];
     Ok ((r1.1 ++ r2.1)%list, (r1.2 ++ r2.2)%list)).
Proof.
  rewrite tag_loop_app.
  destruct (tag_loop _ _ _ _ _ pre [] []) as [[a1 m1]|e]; simpl; [|done].
  by rewrite tag_loop_acc.
Qed.

(** A tag that yields nothing by itself: its key does not parse. *)
Lemma tag_loop_unparsed identifier resource_id ev pre k v post
    (alarms : list item) (metas : list meta_data) :
  parse_tag_key k = None ->
  tag_loop cfg load_table_item identifier resource_id ev (pre ++ (k, v) :: post) alarms metas
  = tag_loop cfg load_table_item identifier resource_id ev (pre ++ post) alarms metas.
Proof.
  intros Hk. rewrite !tag_loop_app.
  destruct (tag_loop _ _ _ _ _ pre alarms metas) as [[a1 m1]|e]; simpl; [|done].
  by rewrite Hk.
Qed.

(** The stage on an event with a given tag map. *)
Lemma get_alarms_with_tags ev ts disks :
  get_alarms cfg load_table_item (with_tags ev ts) disks
  = (if negb (py_truthy (get (entries ev) "identifier"))
        || negb (py_truthy (get (entries ev) "resource_id"))
     then Ok []
     else
       r ← tag_loop cfg load_table_item (get (entries ev) "identifier")
              (get (entries ev) "resource_id") ev ts [] [];
       disk_loop cfg load_table_item (get (entries ev) "identifier")
         (get (entries ev) "resource_id") ev disks r.2 r.1).
Proof.
  unfold get_alarms. simpl. destruct (negb _ || negb _); [done|].
  rewrite tag_loop_with_tags.
  destruct (tag_loop _ _ _ _ _ _ _ _) as [[a ms]|e]; simpl; [|done].
  by rewrite disk_loop_with_tags.
Qed.

(** X1.  A tag whose key has fewer than three colon-separated parts, or
    does not end in P1, P2 or P3, is ignored: the stage emits what it emits
    without that tag, and fails where it fails without it. *)
Theorem unparsed_tag_ignored ev pre k v post disks :
  parse_tag_key k = None ->
  get_alarms cfg load_table_item (with_tags ev (pre ++ (k, v) :: post)) disks
  = get_alarms cfg load_table_item (with_tags ev (pre ++ post)) disks.
Proof.
  intros Hk. rewrite !get_alarms_with_tags.
  destruct (negb _ || negb _); [done|].
  by rewrite tag_loop_unparsed.
Qed.

(** X2.  A tag whose (service, metric) has no record in the catalog is
    skipped, disk metric or not: the stage emits what it emits without
    that tag. *)
Theorem missing_template_skipped ev pre k v post disks s m p :
  parse_tag_key k = Some (s, m, p) ->
  load_table_item s m = None ->
  get_alarms cfg load_table_item (with_tags ev (pre ++ (k, v) :: post)) disks
  = get_alarms cfg load_table_item (with_tags ev (pre ++ post)) disks.
Proof.
  intros Hk Hload. rewrite !get_alarms_with_tags.
  destruct (negb _ || negb _); [done|].
  destruct (is_disk_metric cfg m) eqn:Hdm.
  - rewrite (tag_loop_disk_request _ _ _ _ _ _ _ _ _ _ Hk Hdm), tag_loop_around.
    destruct (tag_loop _ _ _ _ _ pre [] []) as [[a1 m1]|e]; simpl; [|done].
    destruct (tag_loop _ _ _ _ _ post [] []) as [[a2 m2]|e]; simpl; [|done].
    by rewrite disk_loop_skip.
  - rewrite !tag_loop_app.
    destruct (tag_loop _ _ _ _ _ pre [] []) as [[a1 m1]|e]; simpl; [|done].
    rewrite Hk, Hdm. by rewrite get_table_item_missing.
Qed.

(** X3.  Without discovered disks a disk-metric tag yields nothing: the
    stage emits what it emits without that tag. *)
Theorem disk_tag_without_disks ev pre k v post :
  is_disk_signal cfg (k, v) = true ->
  get_alarms cfg load_table_item (with_tags ev (pre ++ (k, v) :: post)) []
  = get_alarms cfg load_table_item (with_tags ev (pre ++ post)) [].
Proof.
  unfold is_disk_signal. simpl.
  destruct (parse_tag_key k) as [[[s m] p]|] eqn:Hk; [|done]. intros Hdm.
  rewrite !get_alarms_with_tags.
  destruct (negb _ || negb _); [done|].
  rewrite (tag_loop_disk_request _ _ _ _ _ _ _ _ _ _ Hk Hdm), tag_loop_around.
  destruct (tag_loop _ _ _ _ _ pre [] []) as [[a1 m1]|e]; simpl; [|done].
  by destruct (tag_loop _ _ _ _ _ post [] []) as [[a2 m2]|e].
Qed.
End SkippedTags.

(** ** The grammar of tag keys *)

Lemma split_on_cons sep s : exists hd tl, split_on sep s = hd :: tl.
Proof.
  induction s as [|c r (hd & tl & IH)]; simpl; [by eexists _, _|].
  destruct (Ascii.eqb c sep); [by eexists _, _|]. rewrite IH. by eexists _, _.
Qed.

Lemma split_on_app sep a b :
  split_on sep (a ++ String sep b) = (split_on sep a ++ split_on sep b)%list.
Proof.
  induction a as [|c a IH].
  - change ("" ++ String sep b) with (String sep b). simpl.
    by rewrite Ascii.eqb_refl.
  - change (String c a ++ String sep b) with (String c (a ++ String sep b)).
    simpl. rewrite IH. destruct (Ascii.eqb c sep); [done|].
    by destruct (split_on_cons sep a) as (hd & tl & ->).
Qed.

Lemma split_on_free sep s : has_char sep s = false -> split_on sep s = [s].
Proof.
  induction s as [|c r IH]; simpl; [done|].
  intros [Hc Hr]%orb_false_elim. rewrite Hc, (IH Hr). done.
Qed.

Lemma split_on_parts_free sep s :
  Forall (fun part => has_char sep part = false) (split_on sep s).
Proof.
  induction s as [|c r IH]; simpl; [by repeat constructor|].
  destruct (Ascii.eqb c sep) eqn:Hc; [by constructor|].
  destruct (split_on sep r) as [|hd tl]; [by repeat constructor; simpl; rewrite Hc|].
  inversion IH as [|? ? Hhd Htl]; subst. constructor; [|done].
  simpl. by rewrite Hc.
Qed.

(** Joining the parts of a split gives the string back. *)
Lemma join_split_on sep s : join_with sep (split_on sep s) = s.
Proof.
  induction s as [|c r IH]; [done|]. simpl.
  destruct (Ascii.eqb_spec c sep) as [->|Hne].
  - destruct (split_on_cons sep r) as (hd & tl & Hr). rewrite Hr in *.
    change (join_with sep ("" :: hd :: tl))
      with ("" ++ String sep (join_with sep (hd :: tl))).
    by rewrite IH.
  - destruct (split_on_cons sep r) as (hd & tl & Hr). rewrite Hr in *.
    destruct tl as [|x tl].
    + simpl in *. by rewrite IH.
    + change (join_with sep (String c hd :: x :: tl))
        with (String c (hd ++ String sep (join_with sep (x :: tl)))).
      change (join_with sep (hd :: x :: tl))
        with (hd ++ String sep (join_with sep (x :: tl))) in IH.
      by rewrite IH.
Qed.

Lemma join_with_app sep (xs : list string) y ys :
  xs <> [] ->
  join_with sep (xs ++ y :: ys)
  = join_with sep xs ++ String sep (join_with sep (y :: ys)).
Proof.
  induction xs as [|x xs IH]; [done|]. intros _.
  destruct xs as [|x' xs].
  - reflexivity.
  - change (join_with sep ((x :: x' :: xs) ++ y :: ys))
      with (x ++ String sep (join_with sep ((x' :: xs) ++ y :: ys))).
    rewrite IH by done.
    change (join_with sep (x :: x' :: xs))
      with (x ++ String sep (join_with sep (x' :: xs))).
    rewrite append_assoc. reflexivity.
Qed.

(** X4.  The grammar of a tag key: it yields (service, metric, priority)
    exactly when the priority is P1, P2 or P3, service and metric hold no
    colon, and the key is [service:metric:priority], alone or after a
    prefix that ends in a colon. *)
Theorem parse_tag_key_grammar k s m p :
  parse_tag_key k = Some (s, m, p)
  <-> p ∈ ["P1"; "P2"; "P3"]
      /\ has_char ":" s = false /\ has_char ":" m = false
      /\ (k = s ++ ":" ++ m ++ ":" ++ p
          \/ exists prefix, k = prefix ++ ":" ++ s ++ ":" ++ m ++ ":" ++ p).
Proof.
  unfold parse_tag_key. split.
  - destruct (rev (split_on ":" k)) as [|p' [|m' [|s' rest]]] eqn:Hrev; try done.
    case_bool_decide as Hp; [|done]. intros [= -> -> ->].
    apply (f_equal (@rev string)) in Hrev. rewrite rev_involutive in Hrev.
    simpl in Hrev. rewrite <- !app_assoc in Hrev. simpl in Hrev.
    pose proof (split_on_parts_free ":" k) as Hfree. rewrite Hrev in Hfree.
    apply Forall_app in Hfree as [_ Hfree].
    inversion Hfree as [|? ? Hs Hfree']; subst.
    inversion Hfree' as [|? ? Hm _]; subst.
    split; [done|]. split; [done|]. split; [done|].
    pose proof (join_split_on ":" k) as Hjoin. rewrite Hrev in Hjoin.
    destruct (rev rest) as [|x xs] eqn:Hrest.
    + left. by rewrite <- Hjoin.
    + right. exists (join_with ":" (x :: xs)). rewrite <- Hjoin.
      by rewrite join_with_app.
  - intros (Hp & Hs & Hm & Hk).
    assert (has_char ":" p = false) as Hpf.
    { apply list_elem_of_In in Hp. simpl in Hp.
      destruct Hp as [<-|[<-|[<-|[]]]]; reflexivity. }
    assert (split_on ":" (s ++ ":" ++ m ++ ":" ++ p) = [s; m; p]) as Hcore.
    { change (s ++ ":" ++ m ++ ":" ++ p)
        with (s ++ String ":" (m ++ String ":" p)).
      by rewrite !split_on_app, !split_on_free. }
    destruct Hk as [->|[prefix ->]].
    + rewrite Hcore. simpl. by rewrite bool_decide_eq_true_2.
    + change (prefix ++ ":" ++ s ++ ":" ++ m ++ ":" ++ p)
        with (prefix ++ String ":" (s ++ ":" ++ m ++ ":" ++ p)).
      rewrite split_on_app, Hcore, rev_app_distr. simpl.
      by rewrite bool_decide_eq_true_2.
Qed.

(** ** More on the resolver *)

Section ResolverMore.
Variable cfg : config.
Variable load_table_item : catalog.

Lemma apply_threshold_seeded tok it t :
  seeded (apply_threshold tok it t) = seeded it.
Proof.
  destruct t as [t| [|prio [|value rest]] |t]; simpl; try done.
  - destruct (py_eq _ _); [|done].
    destruct (t !! "threshold"), (t !! "criticality"),
      (lower_is_true (threshold it)); done.
  - destruct (_ && _); [|done]. unfold setdefault_criticality. simpl.
    by destruct (criticality it).
Qed.

Lemma apply_thresholds_seeded tok ts it :
  seeded (apply_thresholds tok ts it) = seeded it.
Proof.
  unfold apply_thresholds. revert it.
  induction ts as [|t ts IH]; intros it; simpl; [done|].
  by rewrite IH, apply_threshold_seeded.
Qed.

Lemma emitted_seeded tpl service m tok raw identifier resource_id ev disk arn :
  seeded (emitted cfg tpl service m tok raw identifier resource_id ev disk arn)
  = seeded (base_item tpl service m tok raw).
Proof.
  unfold emitted, resolve.
  rewrite <- (apply_thresholds_seeded tok (AlarmConfigTable.thresholds tpl)
                (base_item tpl service m tok raw)).
  unfold setdefault_criticality.
  by destruct (criticality (apply_thresholds _ _ _)).
Qed.

(** X5.  A candidate takes its priority, metric and service from the
    signal and its other alarm settings from the template, unchanged:
    the threshold tiers and the dimension binding touch none of them. *)
Theorem template_fields_copied svc m tok raw identifier resource_id ev disk it :
  get_table_item cfg load_table_item svc m tok raw
    identifier resource_id ev disk = Ok (Some it) ->
  exists tpl,
    load_table_item svc m = Some tpl
    /\ priority it = tok /\ metric it = m /\ service it = svc
    /\ actions_enabled it = AlarmConfigTable.actions_enabled tpl
    /\ comparison_operator it = AlarmConfigTable.comparison_operator tpl
    /\ datapoints_to_alarm it = AlarmConfigTable.datapoints_to_alarm tpl
    /\ evaluation_periods it = AlarmConfigTable.evaluation_periods tpl
    /\ namespace it = AlarmConfigTable.namespace tpl
    /\ period it = AlarmConfigTable.period tpl
    /\ statistic it = AlarmConfigTable.statistic tpl
    /\ treat_missing_data it = AlarmConfigTable.treat_missing_data tpl
    /\ alarm_description it = AlarmConfigTable.alarm_description tpl.
Proof.
  intros (tpl & arn & Hload & _ & ->)%get_table_item_inv.
  exists tpl. split; [done|].
  pose proof (emitted_seeded tpl svc m tok raw identifier resource_id ev disk arn)
    as H.
  unfold seeded in H. simpl in H. by simplify_eq.
Qed.
End ResolverMore.

Section Tiers.
Variable cfg : config.
Variable load_table_item : catalog.

(** X6.  When no tier of the template speaks for the signal's priority
    (an empty tier list included), the candidate keeps the raw tag value
    as its threshold, even the value ["true"], and the priority token as
    its criticality. *)
Theorem no_tier_defaults svc m tok raw identifier resource_id ev disk tpl it :
  load_table_item svc m = Some tpl ->
  Forall (fun t => tier_matches tok t = false) (AlarmConfigTable.thresholds tpl) ->
  get_table_item cfg load_table_item svc m tok raw
    identifier resource_id ev disk = Ok (Some it) ->
  threshold it = raw /\ criticality it = Some (PStr tok).
Proof.
  intros Hload Hno (tpl' & arn & Hload' & _ & ->)%get_table_item_inv.
  rewrite Hload in Hload'. injection Hload' as <-.
  rewrite emitted_threshold, emitted_criticality.
  rewrite resolve_threshold, resolve_criticality.
  by rewrite apply_thresholds_other.
Qed.

(** X7.  A tier stored as a sequence (priority, value, ...) gives its
    value to a raw value that reads ["true"] and leaves any other raw
    value alone; in both cases the criticality is the priority token,
    whatever else the sequence holds. *)
Theorem pair_tier_override svc m tok raw identifier resource_id ev disk tpl
    pre prio value rest post it :
  load_table_item svc m = Some tpl ->
  AlarmConfigTable.thresholds tpl = (pre ++ TSeq (prio :: value :: rest) :: post)%list ->
  py_eq prio (PStr tok) = true ->
  Forall (fun t => tier_matches tok t = false) (pre ++ post)%list ->
  get_table_item cfg load_table_item svc m tok raw
    identifier resource_id ev disk = Ok (Some it) ->
  threshold it = (if lower_is_true raw then value else raw)
  /\ criticality it = Some (PStr tok).
Proof.
  intros Hload Hts Hprio Hothers (tpl' & arn & Hload' & _ & ->)%get_table_item_inv.
  rewrite Hload in Hload'. injection Hload' as <-.
  rewrite emitted_threshold, emitted_criticality.
  rewrite resolve_threshold, resolve_criticality, Hts.
  rewrite apply_thresholds_unique by done.
  simpl. rewrite Hprio. simpl.
  by destruct (lower_is_true raw).
Qed.

(** X8.  When two records of the template speak for the signal's priority
    and the raw value reads ["true"], the candidate has the threshold of
    the first and the criticality of the second. *)
Theorem duplicate_tiers_first_and_last svc m tok raw identifier resource_id ev disk
    tpl pre (t1 : gmap string pyval) mid (t2 : gmap string pyval) post v1 v2 c1 c2 it :
  load_table_item svc m = Some tpl ->
  AlarmConfigTable.thresholds tpl
  = (pre ++ TDict t1 :: mid ++ TDict t2 :: post)%list ->
  t1 !! "priority" = Some (PStr tok) -> t2 !! "priority" = Some (PStr tok) ->
  t1 !! "threshold" = Some v1 -> t2 !! "threshold" = Some v2 ->
  t1 !! "criticality" = Some c1 -> t2 !! "criticality" = Some c2 ->
  Forall (fun t => tier_matches tok t = false) (pre ++ mid ++ post)%list ->
  lower (py_str raw) = "true" ->
  lower (py_str v1) <> "true" ->
  get_table_item cfg load_table_item svc m tok raw
    identifier resource_id ev disk = Ok (Some it) ->
  threshold it = v1 /\ criticality it = Some c2.
Proof.
  intros Hload Hts Hp1 Hp2 Hv1 Hv2 Hc1 Hc2 Hothers Hraw Hv1raw
    (tpl' & arn & Hload' & _ & ->)%get_table_item_inv.
  rewrite Hload in Hload'. injection Hload' as <-.
  apply Forall_app in Hothers as [Hpre Hothers].
  apply Forall_app in Hothers as [Hmid Hpost].
  rewrite emitted_threshold, emitted_criticality.
  rewrite resolve_threshold, resolve_criticality, Hts.
  rewrite apply_thresholds_app, (apply_thresholds_other _ pre) by done.
  change (TDict t1 :: mid ++ TDict t2 :: post)%list
    with ([TDict t1] ++ mid ++ [TDict t2] ++ post)%list.
  rewrite !apply_thresholds_app.
  rewrite (apply_thresholds_other _ post) by done.
  rewrite (apply_thresholds_other _ mid) by done.
  unfold apply_thresholds. simpl.
  rewrite (priority_matches _ _ Hp1), (priority_matches _ _ Hp2).
  rewrite Hv1, Hv2, Hc1, Hc2. simpl.
  unfold lower_is_true. rewrite Hraw. simpl.
  by apply String.eqb_neq in Hv1raw as ->.
Qed.

Lemma bind_dimension_keys identifier resource_id md dim key :
  key <> "Value" ->
  bind_dimension identifier resource_id md dim !! key = dim !! key.
Proof.
  intros Hkey. unfold bind_dimension.
  destruct (py_eq _ _); [by rewrite lookup_insert_ne|].
  destruct (get dim "Name"); try done.
  destruct (md !! s); [by rewrite lookup_insert_ne|done].
Qed.

Lemma bind_dimension_value identifier resource_id md dim :
  is_Some (dim !! "Value") ->
  is_Some (bind_dimension identifier resource_id md dim !! "Value").
Proof.
  intros Hval. unfold bind_dimension.
  destruct (py_eq _ _); [rewrite lookup_insert_eq; by eexists|].
  destruct (get dim "Name"); try done.
  destruct (md !! s); [rewrite lookup_insert_eq; by eexists|done].
Qed.

(** X9.  When every dimension of the template is a record with a value,
    as in the seed catalog, the candidate has one dimension for each, in
    the template's order, followed by those of the disk; binding changes
    no entry of a dimension other than its value. *)
Theorem dimensions_follow_template svc m tok raw identifier resource_id ev disk tpl it :
  load_table_item svc m = Some tpl ->
  Forall (fun e => exists dim, e = DDict dim /\ is_Some (dim !! "Value"))
    (AlarmConfigTable.dimensions tpl) ->
  get_table_item cfg load_table_item svc m tok raw
    identifier resource_id ev disk = Ok (Some it) ->
  exists ds,
    dimensions it = (ds ++ disk_dimensions cfg m disk)%list
    /\ Forall2 (fun e d => exists dim,
                   e = DDict dim
                   /\ is_Some (d !! "Value")
                   /\ forall key, key <> "Value" -> d !! key = dim !! key)
         (AlarmConfigTable.dimensions tpl) ds.
Proof.
  intros Hload Hall (tpl' & arn & Hload' & _ & ->)%get_table_item_inv.
  rewrite Hload in Hload'. injection Hload' as <-.
  rewrite emitted_dimensions, resolve_dimensions.
  eexists. split; [done|].
  induction Hall as [|e es (dim & -> & Hval) _ IH]; simpl; [constructor|].
  rewrite bool_decide_eq_true_2 by by apply bind_dimension_value.
  simpl. constructor; [|exact IH].
  exists dim. split; [done|]. split; [by apply bind_dimension_value|].
  intros key Hkey. by apply bind_dimension_keys.
Qed.
End Tiers.

(** ** Where candidates come from *)

Section Provenance.
Variable cfg : config.
Variable load_table_item : catalog.

Lemma get_table_item_signal svc m tok raw identifier resource_id ev disk it :
  get_table_item cfg load_table_item svc m tok raw
    identifier resource_id ev disk = Ok (Some it) ->
  service it = svc /\ metric it = m /\ priority it = tok
  /\ is_Some (load_table_item svc m).
Proof.
  intros (tpl & arn & Hload & _ & ->)%get_table_item_inv.
  pose proof (emitted_seeded cfg tpl svc m tok raw identifier resource_id ev disk arn)
    as H.
  unfold seeded in H. simpl in H. simplify_eq. by rewrite Hload.
Qed.

Lemma tag_loop_answers identifier resource_id ev tl alarms metas alarms' metas' :
  (forall tag, tag ∈ tl -> tag ∈ tags ev) ->
  Forall (answers load_table_item ev) alarms -> Forall (set_aside ev) metas ->
  tag_loop cfg load_table_item identifier resource_id ev tl alarms metas
  = Ok (alarms', metas') ->
  Forall (answers load_table_item ev) alarms' /\ Forall (set_aside ev) metas'.
Proof.
  revert alarms metas.
  induction tl as [|[k v] tl IH]; intros alarms metas Hin Ha Hm; simpl.
  - by intros [= <- <-].
  - assert ((k, v) ∈ tags ev) as Hkv by (apply Hin; apply list_elem_of_here).
    assert (forall tag, tag ∈ tl -> tag ∈ tags ev) as Hin'.
    { intros tag Ht. apply Hin. by apply list_elem_of_further. }
    destruct (parse_tag_key k) as [[[s m] p]|] eqn:Hk; [|by apply IH].
    destruct (is_disk_metric cfg m).
    + apply IH; [done|done|]. apply Forall_app. split; [done|].
      constructor; [|done]. by exists k, v.
    + destruct (get_table_item _ _ _ _ _ _ _ _ _ _) as [[alarm|]|e] eqn:Hget;
        simpl; [| by apply IH |done].
      apply IH; [done| |done]. apply Forall_app. split; [done|].
      constructor; [|done].
      apply get_table_item_signal in Hget as (Hs & Hm' & Hp & Hload).
      split; [|by rewrite Hs, Hm']. exists k, v. by rewrite Hs, Hm', Hp.
Qed.

Lemma meta_loop_answers identifier resource_id ev disk metas alarms alarms' :
  Forall (set_aside ev) metas -> Forall (answers load_table_item ev) alarms ->
  meta_loop cfg load_table_item identifier resource_id ev disk metas alarms
  = Ok alarms' ->
  Forall (answers load_table_item ev) alarms'.
Proof.
  intros Hm. revert alarms.
  induction Hm as [|m metas (k & v & Hkv & Hk) _ IH]; intros alarms Ha; simpl.
  - by intros [= <-].
  - destruct (get_table_item _ _ _ _ _ _ _ _ _ _) as [[alarm|]|e] eqn:Hget;
      simpl; [| by apply IH |done].
    apply IH. apply Forall_app. split; [done|]. constructor; [|done].
    apply get_table_item_signal in Hget as (Hs & Hm' & Hp & Hload).
    split; [|by rewrite Hs, Hm']. exists k, v. by rewrite Hs, Hm', Hp.
Qed.

Lemma disk_loop_answers identifier resource_id ev disks metas alarms alarms' :
  Forall (set_aside ev) metas -> Forall (answers load_table_item ev) alarms ->
  disk_loop cfg load_table_item identifier resource_id ev disks metas alarms
  = Ok alarms' ->
  Forall (answers load_table_item ev) alarms'.
Proof.
  intros Hm. revert alarms.
  induction disks as [|disk disks IH]; intros alarms Ha; simpl.
  - by intros [= <-].
  - destruct (meta_loop _ _ _ _ _ _ _ _) as [acc|e] eqn:Hmeta; simpl; [|done].
    apply IH. by eapply meta_loop_answers.
Qed.

(** X10.  Every emitted candidate answers a tag of the event: a tag whose
    key ends in the candidate's service, metric and priority, for a
    (service, metric) that has a record in the catalog.  Nothing is
    emitted that no tag asked for. *)
Theorem candidates_answer_tags ev disks alarms :
  get_alarms cfg load_table_item ev disks = Ok alarms ->
  Forall (fun it =>
            (exists k v, (k, v) ∈ tags ev
                         /\ parse_tag_key k
                            = Some (service it, metric it, priority it))
            /\ is_Some (load_table_item (service it) (metric it))) alarms.
Proof.
  unfold get_alarms. destruct (negb _ || negb _); [by intros [= <-]|].
  destruct (tag_loop _ _ _ _ _ _ _ _) as [[a ms]|e] eqn:Htags; simpl; [|done].
  apply tag_loop_answers in Htags as [Ha Hm]; [|done|done|done].
  intros Hdisks. by eapply disk_loop_answers.
Qed.
End Provenance.

(** ** Several disk requests *)

Section DiskMajor.
Variable cfg : config.
Variable load_table_item : catalog.
Variables (ev : event) (identifier resource_id region account : pyval).
Hypothesis Hregion : entries ev !! "region" = Some region.
Hypothesis Haccount : entries ev !! "account" = Some account.

Lemma disk_request_metric tag m :
  disk_request cfg tag = Some m -> is_disk_metric cfg (md_metric m) = true.
Proof.
  unfold disk_request. destruct (parse_tag_key tag.1) as [[[s x] p]|]; [|done].
  destruct (is_disk_metric cfg x) eqn:Hx; [|done]. by intros [= <-].
Qed.

Lemma meta_loop_fan disk metas (alarms : list item) :
  disk <> [] ->
  Forall (fun m => is_disk_metric cfg (md_metric m) = true) metas ->
  meta_loop cfg load_table_item identifier resource_id ev disk metas alarms
  = Ok (alarms
        ++ map (fun c => fan_out ev c disk)
             (omap (request_candidate cfg load_table_item identifier resource_id
                      region account ev) metas))%list.
Proof.
  intros Hne Hdm. revert alarms.
  induction Hdm as [|m metas Hm _ IH]; intros alarms; simpl.
  - by rewrite app_nil_r.
  - unfold request_candidate at 1.
    destruct (load_table_item (md_service m) (md_metric m)) as [tpl|] eqn:Hload.
    + erewrite get_table_item_ok_arn by done. simpl.
      rewrite IH, <- app_assoc. simpl. by rewrite emitted_fan_out.
    + rewrite get_table_item_missing by done. simpl. apply IH.
Qed.

Lemma disk_loop_fan disks metas (alarms : list item) :
  Forall (fun disk : disk_descriptor => disk <> []) disks ->
  Forall (fun m => is_disk_metric cfg (md_metric m) = true) metas ->
  disk_loop cfg load_table_item identifier resource_id ev disks metas alarms
  = Ok (alarms
        ++ concat
             (map (fun disk =>
                     map (fun c => fan_out ev c disk)
                       (omap (request_candidate cfg load_table_item identifier
                                resource_id region account ev) metas)) disks))%list.
Proof.
  intros Hdisks Hdm. revert alarms.
  induction Hdisks as [|disk disks Hne _ IH]; intros alarms; simpl.
  - by rewrite app_nil_r.
  - rewrite meta_loop_fan by done. simpl. rewrite IH.
    by rewrite <- app_assoc.
Qed.

Lemma request_candidates_resolved metas :
  Forall2 (fun m c =>
             get_table_item cfg load_table_item (md_service m) (md_metric m)
               (md_priority_token m) (md_tag_value m) identifier resource_id ev None
             = Ok (Some c))
    (filter (fun m => is_Some (load_table_item (md_service m) (md_metric m))) metas)
    (omap (request_candidate cfg load_table_item identifier resource_id
             region account ev) metas).
Proof.
  induction metas as [|m metas IH]; simpl; [constructor|].
  unfold request_candidate at 1.
  destruct (load_table_item (md_service m) (md_metric m)) as [tpl|] eqn:Hload.
  - rewrite filter_cons_True by (rewrite Hload; by eexists).
    constructor; [|exact IH]. by apply get_table_item_ok_arn.
  - rewrite filter_cons_False by (rewrite Hload; by intros [? ?]). exact IH.
Qed.
End DiskMajor.

Lemma length_concat_map {A B} (f : A -> list B) (l : list A) n :
  (forall x, length (f x) = n) -> length (concat (map f l)) = length l * n.
Proof.
  intros Hf. induction l as [|x l IH]; simpl; [done|].
  rewrite length_app, Hf, IH. done.
Qed.

(** X11.  With several disk-metric tags and several disks the stage
    emits, after the candidates of the other tags, the candidates of the
    first disk for each request that has a template, in the order of the
    tags, then those of the second disk, and so on: the number of disks
    times the number of such requests in all. *)
Theorem fan_out_disk_major (cfg : config) (load_table_item : catalog) ev disks :
  py_truthy (get (entries ev) "identifier") = true ->
  py_truthy (get (entries ev) "resource_id") = true ->
  is_Some (entries ev !! "region") ->
  is_Some (entries ev !! "account") ->
  Forall (fun disk : disk_descriptor => disk <> []) disks ->
  exists others commons,
    get_alarms cfg load_table_item ev [] = Ok others
    /\ Forall2 (fun m c =>
                  get_table_item cfg load_table_item (md_service m) (md_metric m)
                    (md_priority_token m) (md_tag_value m)
                    (get (entries ev) "identifier") (get (entries ev) "resource_id")
                    ev None
                  = Ok (Some c))
         (filter (fun m => is_Some (load_table_item (md_service m) (md_metric m)))
            (omap (disk_request cfg) (tags ev)))
         commons
    /\ get_alarms cfg load_table_item ev disks
       = Ok (others
             ++ concat (map (fun disk => map (fun c => fan_out ev c disk) commons)
                          disks))%list
    /\ length (concat (map (fun disk => map (fun c => fan_out ev c disk) commons)
                         disks))
       = length disks * length commons.
Proof.
  intros Hid Hrid [region Hr] [account Ha] Hdisks.
  destruct (tag_loop_ok cfg load_table_item ev (get (entries ev) "identifier")
              (get (entries ev) "resource_id") (ex_intro _ region Hr)
              (ex_intro _ account Ha) (tags ev)) as [found Hfound].
  exists found, (omap (request_candidate cfg load_table_item
                         (get (entries ev) "identifier")
                         (get (entries ev) "resource_id") region account ev)
                   (omap (disk_request cfg) (tags ev))).
  unfold get_alarms. rewrite Hid, Hrid. simpl. rewrite Hfound. simpl.
  split; [done|]. split; [by apply request_candidates_resolved|]. split.
  - rewrite (disk_loop_fan cfg load_table_item ev _ _ region account Hr Ha); [done|done|].
    apply Forall_forall. intros m [tag [_ Hm]]%list_elem_of_omap.
    by eapply disk_request_metric.
  - apply length_concat_map. intros disk. by rewrite length_map.
Qed.

(** ** What disk discovery returns *)

Lemma split_ws_aux_fields cur s :
  Forall (fun c => is_space c = false) cur ->
  Forall (fun f => f <> [] /\ Forall (fun c => is_space c = false) f)
    (split_ws_aux cur s).
Proof.
  revert cur. induction s as [|c r IH]; intros cur Hcur; simpl.
  - destruct cur as [|x cur]; [constructor|].
    constructor; [|constructor]. split.
    + intros H. apply (f_equal (@length ascii)) in H.
      rewrite length_rev in H. done.
    + by apply Forall_rev.
  - destruct (is_space c) eqn:Hc.
    + destruct cur as [|x cur]; [by apply IH|].
      constructor; [|by apply IH]. split.
      * intros H. apply (f_equal (@length ascii)) in H.
        rewrite length_rev in H. done.
      * by apply Forall_rev.
    + apply IH. by constructor.
Qed.

Lemma split_ws_fields s :
  Forall (fun f => f <> "" /\ spaceless f) (split_ws s).
Proof.
  unfold split_ws. apply Forall_fmap.
  eapply Forall_impl; [apply (split_ws_aux_fields [] s); constructor|].
  intros f [Hne Hsp]. simpl. split.
  - destruct f; [done|]. done.
  - unfold spaceless. by rewrite list_ascii_of_string_of_list_ascii.
Qed.

Lemma basename_no_slash p : has_char "/" (basename p) = false.
Proof.
  unfold basename.
  pose proof (split_on_parts_free "/" p) as Hfree.
  destruct (split_on_cons "/" p) as (hd & tl & Hsplit). rewrite Hsplit in *.
  assert (forall (l : list string) d,
             Forall (fun part => has_char "/" part = false) l ->
             has_char "/" d = false ->
             has_char "/" (List.last l d) = false) as Hlast.
  { induction l as [|x l IHl]; intros d Hl Hd; [done|].
    inversion Hl; subst. destruct l; [done|]. by apply IHl. }
  by apply Hlast.
Qed.

Lemma elem_of_concat_map {A B} (f : A -> list B) (l : list A) (x : B) :
  x ∈ concat (map f l) -> exists y, y ∈ l /\ x ∈ f y.
Proof.
  intros Hx. apply list_elem_of_In, in_concat in Hx as (ys & Hys & Hx).
  apply in_map_iff in Hys as (y & <- & Hy).
  exists y. split; by apply list_elem_of_In.
Qed.

Lemma parse_line_shape os_type line disk :
  disk ∈ parse_line os_type line -> descriptor_shape os_type disk.
Proof.
  unfold parse_line, descriptor_shape.
  destruct (strip line) as [|c r] eqn:Hstrip; [by intros ?%elem_of_nil|].
  destruct (String.eqb (lower os_type) "linux").
  - pose proof (split_ws_fields (c :: r)) as Hf.
    destruct (split_ws (c :: r)) as [|a [|b [|p rest]]];
      try by intros ?%elem_of_nil.
    intros ->%list_elem_of_singleton.
    inversion Hf as [|? ? _ Hf1]; subst.
    inversion Hf1 as [|? ? [Hb Hbs] Hf2]; subst.
    inversion Hf2 as [|? ? [Hp Hps] _]; subst.
    eexists _, _, _. split; [done|]. split; [apply basename_no_slash|done].
  - intros ->%list_elem_of_singleton. eexists. split; [done|]. done.
Qed.

Lemma discover_disks_lines w os_type disk :
  disk ∈ discover_disks w os_type ->
  exists line, disk ∈ parse_line os_type line.
Proof.
  unfold discover_disks.
  destruct (String.eqb (lower os_type) "linux");
    (destruct (send_command w _ _); [|by intros ?%elem_of_nil]);
    (destruct (get_command_invocation w 5); [|by intros ?%elem_of_nil]);
    intros (line & _ & Hd)%elem_of_concat_map; by exists line.
Qed.

(** X12.  Every descriptor that disk discovery returns has the fields its
    alarms need.  For Linux: device, fstype and path, in this order, the
    device without any slash, fstype and path non-empty and free of
    whitespace.  For any other OS type: the one field LogicalDisk, not
    empty. *)
Theorem discovered_descriptor_shape w os_type disk :
  disk ∈ discover_disks w os_type ->
  if String.eqb (lower os_type) "linux" then
    exists device fstype path,
      disk = [("device", device); ("fstype", fstype); ("path", path)]
      /\ has_char "/" device = false
      /\ fstype <> "" /\ spaceless fstype
      /\ path <> "" /\ spaceless path
  else
    exists letter, disk = [("LogicalDisk", letter)] /\ letter <> "".
Proof.
  intros [line Hline]%discover_disks_lines.
  apply parse_line_shape in Hline. exact Hline.
Qed.

Lemma length_append (a b : string) :
  String.length (a ++ b) = String.length a + String.length b.
Proof.
  induction a as [|c a IH]; [done|].
  change (String c a ++ b) with (String c (a ++ b)). simpl. by rewrite IH.
Qed.

Lemma append_cancel_l (a x y : string) : a ++ x = a ++ y -> x = y.
Proof.
  induction a as [|c a IH]; [done|].
  change (String c a ++ x) with (String c (a ++ x)).
  change (String c a ++ y) with (String c (a ++ y)).
  intros [= H]. by apply IH.
Qed.

Lemma append_cancel_r (t x y : string) : x ++ t = y ++ t -> x = y.
Proof.
  revert y. induction x as [|c x IH]; intros [|d y] H.
  - done.
  - apply (f_equal String.length) in H. rewrite !length_append in H.
    simpl in H. lia.
  - apply (f_equal String.length) in H. rewrite !length_append in H.
    simpl in H. lia.
  - change (String c x ++ t) with (String c (x ++ t)) in H.
    change (String d y ++ t) with (String d (y ++ t)) in H.
    injection H as -> H. f_equal. by apply IH.
Qed.

(** Binding leaves the name of a dimension alone. *)
Lemma bound_name identifier resource_id md dim d :
  bound identifier resource_id md (DDict dim) = Some d ->
  d !! "Name" = dim !! "Name".
Proof.
  unfold bound. cbv zeta. case_bool_decide; [|done]. intros [= <-].
  unfold bind_dimension.
  destruct (py_eq _ _); [by rewrite lookup_insert_ne|].
  destruct (get dim "Name") as [|b|z|n]; try done.
  destruct (md !! n); [by rewrite lookup_insert_ne|done].
Qed.

Lemma plain_template_bound identifier resource_id md tpl :
  plain_template tpl ->
  Forall (fun d => is_target d = false)
    (omap (bound identifier resource_id md) (AlarmConfigTable.dimensions tpl)).
Proof.
  intros Hplain. apply Forall_forall.
  intros d ([dim|v] & Hin & Hb)%list_elem_of_omap; [|done].
  apply not_target_disk_named. unfold disk_named.
  rewrite (bound_name _ _ _ _ _ Hb).
  unfold plain_template in Hplain. rewrite Forall_forall in Hplain.
  apply (Hplain _ Hin).
Qed.

(** The segment a discovered disk gives a name: its path or drive, which
    is never empty. *)
Lemma discovered_disk_segment w os_type disk :
  disk ∈ discover_disks w os_type ->
  exists q,
    disk_value disk = Some q /\ q <> "" /\ disk_segment disk = "-'" ++ q ++ "'".
Proof.
  intros [line Hline]%discover_disks_lines.
  apply parse_line_shape in Hline. unfold descriptor_shape in Hline.
  destruct (String.eqb (lower os_type) "linux").
  - destruct Hline as (device & fstype & path & -> & _ & _ & _ & Hpath & _).
    exists path. split; [done|]. split; [done|].
    unfold disk_segment, quoted. simpl.
    by apply String.eqb_neq in Hpath as ->.
  - destruct Hline as (letter & -> & Hletter).
    exists letter. split; [done|]. split; [done|].
    unfold disk_segment, quoted. simpl.
    by apply String.eqb_neq in Hletter as ->.
Qed.

(** The name the resolver gives the candidate of a discovered disk, when
    no dimension record of the template is named [path] or
    [LogicalDisk]. *)
Lemma disk_candidate_name (cfg : config) (load_table_item : catalog)
    w os_type disk svc m tok raw identifier resource_id ev tpl it :
  disk ∈ discover_disks w os_type ->
  is_disk_metric cfg m = true ->
  load_table_item svc m = Some tpl ->
  plain_template tpl ->
  get_table_item cfg load_table_item svc m tok raw identifier resource_id ev
    (Some disk) = Ok (Some it) ->
  exists q,
    disk_value disk = Some q /\ q <> ""
    /\ criticality it
       = Some (default (PStr tok)
                 (criticality
                    (apply_thresholds tok (AlarmConfigTable.thresholds tpl)
                       (base_item tpl svc m tok raw))))
    /\ alarm_name it
       = Some (name_stem ev m ++ "-'" ++ q ++ "'" ++ "-Severity: "
               ++ py_str (default (PStr tok)
                            (criticality
                               (apply_thresholds tok
                                  (AlarmConfigTable.thresholds tpl)
                                  (base_item tpl svc m tok raw))))).
Proof.
  intros Hdisk Hdm Hload Hplain Hit.
  destruct (get_table_item_inv _ _ _ _ _ _ _ _ _ _ _ Hit)
    as (tpl' & arn & Hload' & _ & ->).
  rewrite Hload in Hload'. injection Hload' as <-.
  destruct (discovered_disk_segment _ _ _ Hdisk) as (q & Hq & Hne & Hseg).
  exists q. split; [done|]. split; [done|].
  rewrite emitted_criticality, emitted_alarm_name, resolve_criticality,
    resolve_dimensions.
  split; [done|].
  assert (disk_dimensions cfg m (Some disk) = map field_dimension disk) as ->.
  { unfold disk_dimensions. rewrite Hdm. destruct disk as [|f fs]; [done|].
    apply field_dimensions. }
  unfold expected_alarm_name.
  rewrite qualifier_segment_skipped by (by apply plain_template_bound).
  rewrite qualifier_segment_fields, Hseg. simpl.
  by rewrite ?append_assoc.
Qed.

(** X13.  The alarm of a discovered disk carries the disk in its name.
    For a disk that [discover_disks] returns, a disk metric whose template
    has no dimension record named [path] or [LogicalDisk], and an event
    with region and account, the resolver returns a candidate whose name
    has the mount path (Linux) or drive (otherwise) of the disk, never
    empty, quoted between the metric and the severity. *)
Theorem discovered_disk_in_name (cfg : config) (load_table_item : catalog)
    w os_type disk svc m tok raw identifier resource_id ev tpl :
  disk ∈ discover_disks w os_type ->
  is_disk_metric cfg m = true ->
  load_table_item svc m = Some tpl ->
  plain_template tpl ->
  is_Some (entries ev !! "region") ->
  is_Some (entries ev !! "account") ->
  exists it q crit,
    get_table_item cfg load_table_item svc m tok raw identifier resource_id ev
      (Some disk) = Ok (Some it)
    /\ disk_value disk = Some q /\ q <> ""
    /\ criticality it = Some crit
    /\ alarm_name it
       = Some (name_stem ev m ++ "-'" ++ q ++ "'" ++ "-Severity: " ++ py_str crit).
Proof.
  intros Hdisk Hdm Hload Hplain Hr Ha.
  destruct (get_table_item_ok cfg load_table_item svc m tok raw identifier
              resource_id ev (Some disk) tpl Hload Hr Ha) as [arn Hit].
  destruct (disk_candidate_name cfg load_table_item w os_type disk svc m tok raw
              identifier resource_id ev tpl _ Hdisk Hdm Hload Hplain Hit)
    as (q & Hq & Hne & Hcrit & Hname).
  eexists _, q, _. split; [exact Hit|]. split; [done|]. split; [done|].
  split; [exact Hcrit|exact Hname].
Qed.

(** X14.  Two discovered disks that differ in their mount path (Linux) or
    drive (otherwise) never share an alarm name: the candidates the
    resolver returns for them, for one disk metric whose template has no
    dimension record named [path] or [LogicalDisk], have different
    names. *)
Theorem discovered_disks_named_apart (cfg : config) (load_table_item : catalog)
    w os_type w' os_type' disk disk' svc m tok raw identifier resource_id ev
    tpl it it' :
  disk ∈ discover_disks w os_type ->
  disk' ∈ discover_disks w' os_type' ->
  is_disk_metric cfg m = true ->
  load_table_item svc m = Some tpl ->
  plain_template tpl ->
  get_table_item cfg load_table_item svc m tok raw identifier resource_id ev
    (Some disk) = Ok (Some it) ->
  get_table_item cfg load_table_item svc m tok raw identifier resource_id ev
    (Some disk') = Ok (Some it') ->
  disk_value disk <> disk_value disk' ->
  alarm_name it <> alarm_name it'.
Proof.
  intros Hdisk Hdisk' Hdm Hload Hplain Hit Hit' Hdiff.
  destruct (disk_candidate_name cfg load_table_item w os_type disk svc m tok raw
              identifier resource_id ev tpl it Hdisk Hdm Hload Hplain Hit)
    as (q & Hq & _ & _ & ->).
  destruct (disk_candidate_name cfg load_table_item w' os_type' disk' svc m tok
              raw identifier resource_id ev tpl it' Hdisk' Hdm Hload Hplain Hit')
    as (q' & Hq' & _ & _ & ->).
  intros [= H]. apply Hdiff. rewrite Hq, Hq'. f_equal.
  apply append_cancel_l in H.
  change ("-'" ++ q ++ ?t) with (String "-" (String "'" (q ++ t))) in H.
  change ("-'" ++ q' ++ ?t) with (String "-" (String "'" (q' ++ t))) in H.
  injection H as H. by apply append_cancel_r in H.
Qed.

(** ** Waiting for a command *)

Section Waiting.
Variable w : world.
Variables (deadline poll : nat).

(** One iteration of the loop, spelled out. *)
Lemma wait_loop_step fuel now :
  wait_loop (S fuel) w now deadline poll
  = (if Nat.ltb now deadline then
       match get_command_invocation w now with
       | Raise (ClientError code) =>
           if String.eqb code "InvocationDoesNotExist"
           then wait_loop fuel w (now + poll) deadline poll
           else Some (Raise (ClientError code))
       | Raise e => Some (Raise e)
       | Ok resp =>
           if String.eqb (Status resp) "Success" then Some (Ok resp)
           else if bool_decide (Status resp ∈ ["Failed"; "Cancelled"; "TimedOut"])
           then Some (Ok resp)
           else wait_loop fuel w (now + poll) deadline poll
       end
     else Some (Raise TimeoutError)).
Proof. reflexivity. Qed.

Lemma wait_loop_unfinished fuel now :
  now < deadline ->
  unfinished (get_command_invocation w now) ->
  wait_loop (S fuel) w now deadline poll
  = wait_loop fuel w (now + poll) deadline poll.
Proof.
  intros Hnow Hun. rewrite wait_loop_step.
  destruct (Nat.ltb_spec now deadline); [|lia].
  unfold unfinished in Hun.
  destruct (get_command_invocation w now) as [resp|[key|code|]]; try done.
  - destruct (String.eqb_spec (Status resp) "Success") as [Hs|_].
    { exfalso. apply Hun. rewrite Hs. apply list_elem_of_here. }
    case_bool_decide as Hterm; [|done].
    exfalso. apply Hun. by apply list_elem_of_further.
  - by subst code.
Qed.

Lemma wait_loop_decided fuel now :
  now < deadline ->
  ~ unfinished (get_command_invocation w now) ->
  wait_loop (S fuel) w now deadline poll = Some (get_command_invocation w now).
Proof.
  intros Hnow Hdec. rewrite wait_loop_step.
  destruct (Nat.ltb_spec now deadline); [|lia].
  unfold unfinished in Hdec.
  destruct (get_command_invocation w now) as [resp|[key|code|]]; try done.
  - destruct (String.eqb_spec (Status resp) "Success") as [Hs|Hs]; [done|].
    case_bool_decide as Hterm; [done|].
    exfalso. apply Hdec. intros [Heq|Hin]%elem_of_cons; done.
  - destruct (String.eqb_spec code "InvocationDoesNotExist"); done.
Qed.

Lemma wait_loop_first k : forall fuel now,
  (forall j, j < k -> unfinished (get_command_invocation w (now + j * poll))) ->
  ~ unfinished (get_command_invocation w (now + k * poll)) ->
  now + k * poll < deadline ->
  k < fuel ->
  wait_loop fuel w now deadline poll
  = Some (get_command_invocation w (now + k * poll)).
Proof.
  induction k as [|k IH]; intros fuel now Hbefore Hdec Hlt Hfuel;
    (destruct fuel as [|fuel]; [lia|]).
  - rewrite Nat.add_0_r in *. by apply wait_loop_decided.
  - rewrite wait_loop_unfinished.
    + replace (now + S k * poll) with (now + poll + k * poll) in * by lia.
      apply IH; [|done|done|lia].
      intros j Hj. replace (now + poll + j * poll) with (now + S j * poll) by lia.
      apply Hbefore. lia.
    + lia.
    + specialize (Hbefore 0). rewrite Nat.add_0_r in Hbefore. apply Hbefore. lia.
Qed.

Lemma wait_loop_expires fuel : forall now,
  0 < poll ->
  deadline <= now + fuel * poll ->
  (forall k, now + k * poll < deadline ->
             unfinished (get_command_invocation w (now + k * poll))) ->
  wait_loop (S fuel) w now deadline poll = Some (Raise TimeoutError).
Proof.
  induction fuel as [|fuel IH]; intros now Hpoll Hd Hun.
  - rewrite wait_loop_step. destruct (Nat.ltb_spec now deadline); [lia|done].
  - destruct (Nat.ltb_spec now deadline) as [Hnow|Hnow].
    + rewrite wait_loop_unfinished; [|done|].
      * apply IH; [done|lia|]. intros k Hk.
        replace (now + poll + k * poll) with (now + S k * poll) in * by lia.
        by apply Hun.
      * specialize (Hun 0). rewrite Nat.add_0_r in Hun. by apply Hun.
    + rewrite wait_loop_step. by destruct (Nat.ltb_spec now deadline); [lia|].
Qed.

(** What the loop can end with. *)
Lemma wait_loop_sound fuel : forall now out,
  wait_loop fuel w now deadline poll = Some out ->
  match out with
  | Ok resp => Status resp ∈ ["Success"; "Failed"; "Cancelled"; "TimedOut"]
  | Raise (ClientError code) => code <> "InvocationDoesNotExist"
  | Raise _ => True
  end.
Proof.
  induction fuel as [|fuel IH]; intros now out; [done|].
  rewrite wait_loop_step.
  destruct (Nat.ltb now deadline); [|by intros [= <-]].
  destruct (get_command_invocation w now) as [resp|[key|code|]].
  - destruct (String.eqb_spec (Status resp) "Success") as [Hs|Hs].
    { intros [= <-]. rewrite Hs. apply list_elem_of_here. }
    case_bool_decide as Hterm; [|apply IH].
    intros [= <-]. by apply list_elem_of_further.
  - by intros [= <-].
  - destruct (String.eqb_spec code "InvocationDoesNotExist"); [apply IH|].
    by intros [= <-].
  - by intros [= <-].
Qed.

Lemma wait_loop_agree (w' : world) fuel : forall now,
  (forall t, t < deadline -> get_command_invocation w t = get_command_invocation w' t) ->
  wait_loop fuel w now deadline poll = wait_loop fuel w' now deadline poll.
Proof.
  induction fuel as [|fuel IH]; intros now Hagree; [done|].
  simpl. destruct (Nat.ltb_spec now deadline) as [Hnow|Hnow]; [|done].
  rewrite <- (Hagree now Hnow).
  destruct (get_command_invocation w now) as [resp|[key|code|]]; try done.
  - destruct (String.eqb _ _); [done|]. destruct (bool_decide _); [done|by apply IH].
  - destruct (String.eqb _ _); [by apply IH|done].
Qed.
End Waiting.

(** X15.  With a positive poll interval the wait for a command ends, and
    it ends in one of three ways: with a response whose status is
    Success, Failed, Cancelled or TimedOut, with the timeout error, or
    with an error of the service other than the not-yet-registered
    one. *)
Theorem wait_for_command_outcome w start timeout poll :
  0 < poll ->
  exists out,
    wait_for_command w start timeout poll = Some out
    /\ match out with
       | Ok resp => Status resp ∈ ["Success"; "Failed"; "Cancelled"; "TimedOut"]
       | Raise (ClientError code) => code <> "InvocationDoesNotExist"
       | Raise _ => True
       end.
Proof.
  intros Hpoll.
  destruct (wait_loop_ends w poll (start + timeout) timeout start Hpoll)
    as [out Hout]; [nia|].
  exists out. split; [exact Hout|]. by eapply wait_loop_sound.
Qed.

(** X16.  The wait returns what the first decisive read brings: when the
    reads at the polling instants [start], [start + poll], ... leave the
    command unfinished (not registered yet, or in a status that is not
    terminal) until the one at [start + k * poll], which comes before the
    deadline and is a terminal status or another error, that response is
    returned, or that error raised. *)
Theorem wait_for_command_first_decisive w start timeout poll k :
  0 < poll ->
  k * poll < timeout ->
  (forall j, j < k -> unfinished (get_command_invocation w (start + j * poll))) ->
  ~ unfinished (get_command_invocation w (start + k * poll)) ->
  wait_for_command w start timeout poll
  = Some (get_command_invocation w (start + k * poll)).
Proof.
  intros Hpoll Hk Hbefore Hdec. unfold wait_for_command.
  apply wait_loop_first; [done|done|lia|nia].
Qed.

(** X17.  The wait ends with the timeout error when every read at a
    polling instant before the deadline leaves the command unfinished. *)
Theorem wait_for_command_expires w start timeout poll :
  0 < poll ->
  (forall k, k * poll < timeout ->
             unfinished (get_command_invocation w (start + k * poll))) ->
  wait_for_command w start timeout poll = Some (Raise TimeoutError).
Proof.
  intros Hpoll Hun. unfold wait_for_command.
  apply wait_loop_expires; [done|nia|].
  intros k Hk. apply Hun. lia.
Qed.

(** X18.  The wait never looks at the command at or after its deadline:
    two services that answer alike before [start + timeout] give the same
    outcome. *)
Theorem wait_for_command_before_deadline w w' start timeout poll :
  (forall t, t < start + timeout ->
             get_command_invocation w t = get_command_invocation w' t) ->
  wait_for_command w start timeout poll = wait_for_command w' start timeout poll.
Proof. intros Hagree. unfold wait_for_command. by apply wait_loop_agree. Qed.

(** ** The handler's pruning of dimensions *)

Lemma py_eq_norm a b : py_eq a b = true <-> py_norm a = py_norm b.
Proof.
  destruct a as [|x|x|x], b as [|y|y|y]; unfold py_eq, py_norm; try done.
  - destruct x, y; split; done.
  - rewrite Z.eqb_eq. split; [by intros ->|by intros [= ->]].
  - rewrite Z.eqb_eq. split; [by intros ->|by intros [= ->]].
  - rewrite Z.eqb_eq. split; [by intros ->|by intros [= ->]].
  - rewrite String.eqb_eq. split; [by intros ->|by intros [= ->]].
Qed.

Lemma py_eq_refl a : py_eq a a = true.
Proof. by apply py_eq_norm. Qed.

Lemma dict_eqb_refl d : dict_eqb d d = true.
Proof.
  unfold dict_eqb. rewrite bool_decide_eq_true_2 by done. simpl.
  apply forallb_forall. intros [k v] Hin.
  apply list_elem_of_In, elem_of_map_to_list in Hin. simpl. rewrite Hin.
  apply py_eq_refl.
Qed.

Lemma dict_eqb_lookup y d key v :
  dict_eqb y d = true -> d !! key = Some v ->
  exists v', y !! key = Some v' /\ py_eq v' v = true.
Proof.
  unfold dict_eqb. intros [Hdom Hall]%andb_true_iff Hd.
  apply bool_decide_eq_true in Hdom.
  assert (is_Some (y !! key)) as [v' Hy].
  { apply elem_of_dom. rewrite Hdom. apply elem_of_dom. by eexists. }
  exists v'. split; [done|].
  rewrite forallb_forall in Hall.
  specialize (Hall (key, v')). simpl in Hall. rewrite Hd in Hall.
  apply Hall. by apply list_elem_of_In, elem_of_map_to_list.
Qed.

(** A dimension equal to an unbound one is unbound. *)
Lemma dict_eqb_unbound y d name value :
  d !! "Name" = Some name -> d !! "Value" = Some value ->
  py_eq name value = true ->
  dict_eqb y d = true -> is_bound y = false.
Proof.
  intros Hn Hv Heq Hyd.
  destruct (dict_eqb_lookup y d "Name" name Hyd Hn) as (n' & Hn' & Hnn).
  destruct (dict_eqb_lookup y d "Value" value Hyd Hv) as (v' & Hv' & Hvv).
  unfold is_bound. rewrite Hn', Hv'. apply negb_false_iff, py_eq_norm.
  apply py_eq_norm in Hnn, Hvv, Heq. congruence.
Qed.

Lemma list_remove_bound d l name value :
  d !! "Name" = Some name -> d !! "Value" = Some value ->
  py_eq name value = true ->
  List.filter is_bound (list_remove d l) = List.filter is_bound l.
Proof.
  intros Hn Hv Heq. induction l as [|y l IH]; simpl; [done|].
  destruct (dict_eqb y d) eqn:Hyd.
  - by rewrite (dict_eqb_unbound y d name value Hn Hv Heq Hyd).
  - simpl. by rewrite IH.
Qed.

Lemma prune_loop_bound fuel : forall i l l',
  prune_loop fuel i l = Ok l' ->
  List.filter is_bound l' = List.filter is_bound l.
Proof.
  induction fuel as [|fuel IH]; intros i l l'; simpl; [by intros [= <-]|].
  destruct (l !! i) as [d|]; [|by intros [= <-]].
  unfold getitem.
  destruct (d !! "Name") as [name|] eqn:Hn; [|done].
  destruct (d !! "Value") as [value|] eqn:Hv; [|done].
  simpl. destruct (py_eq name value) eqn:Heq.
  - intros H%IH. rewrite H. by eapply list_remove_bound.
  - apply IH.
Qed.

(** X19.  The handler's pruning never drops a bound dimension: in the
    candidate it returns, the dimensions whose value differs from their
    name are those of the candidate it was given, in the same order. *)
Theorem pruning_keeps_bound_dimensions alarm alarm' :
  prune_dimensions alarm = Ok alarm' ->
  List.filter is_bound (dimensions alarm') = List.filter is_bound (dimensions alarm)
  /\ alarm' = set_dimensions (dimensions alarm') alarm.
Proof.
  unfold prune_dimensions.
  destruct (prune_loop _ _ _) as [ds|e] eqn:Hloop; simpl; [|done].
  intros [= <-]. split; [|done]. simpl. by eapply prune_loop_bound.
Qed.

Lemma list_remove_here pre x rest :
  Forall (fun d => is_bound d = true) pre ->
  is_bound x = false ->
  is_Some (x !! "Name") -> is_Some (x !! "Value") ->
  list_remove x (pre ++ x :: rest) = (pre ++ rest)%list.
Proof.
  intros Hpre Hx [name Hn] [value Hv].
  assert (py_eq name value = true) as Heq.
  { unfold is_bound in Hx. rewrite Hn, Hv in Hx. by apply negb_false_iff. }
  induction Hpre as [|y pre Hy _ IH]; simpl.
  - by rewrite dict_eqb_refl.
  - destruct (dict_eqb y x) eqn:Hyx; [|by rewrite IH].
    rewrite (dict_eqb_unbound y x name value Hn Hv Heq Hyx) in Hy. done.
Qed.

Lemma prune_loop_apart fuel : forall pre rest,
  Forall (fun d => is_bound d = true) pre ->
  Forall (fun d : gmap string pyval =>
            is_Some (d !! "Name") /\ is_Some (d !! "Value")) rest ->
  apart rest ->
  length rest <= fuel ->
  prune_loop fuel (length pre) (pre ++ rest)
  = Ok (pre ++ List.filter is_bound rest)%list.
Proof.
  induction fuel as [|fuel IH]; intros pre rest Hpre Hkeys Hapart Hfuel.
  - destruct rest; [done|simpl in Hfuel; lia].
  - destruct rest as [|x rest]; simpl.
    { by rewrite lookup_ge_None_2 by (rewrite length_app; simpl; lia). }
    rewrite list_lookup_middle by done.
    inversion Hkeys as [|? ? [[name Hn] [value Hv]] Hkeys']; subst.
    unfold getitem. rewrite Hn, Hv. simpl.
    assert (is_bound x = negb (py_eq name value)) as Hx.
    { unfold is_bound. by rewrite Hn, Hv. }
    rewrite Hx. destruct (py_eq name value) eqn:Heq; simpl.
    + rewrite list_remove_here; [|done|by rewrite Hx|by eexists|by eexists].
      destruct rest as [|y rest].
      { simpl. destruct fuel; simpl.
        - by rewrite app_nil_r.
        - rewrite lookup_ge_None_2 by (rewrite app_nil_r; lia).
          by rewrite app_nil_r. }
      simpl in Hapart. destruct Hapart as [[Hbx|Hby] Hapart].
      { rewrite Hx in Hbx. done. }
      inversion Hkeys' as [|? ? _ Hkeys'']; subst.
      specialize (IH (pre ++ [y])%list rest).
      rewrite length_app, <- app_assoc in IH. simpl in IH.
      replace (length pre + 1) with (S (length pre)) in IH by lia.
      simpl. rewrite Hby. rewrite IH.
      * by rewrite <- app_assoc.
      * apply Forall_app. split; [done|]. by constructor.
      * done.
      * destruct rest; [done|]. simpl in Hapart. apply Hapart.
      * simpl in Hfuel. lia.
    + specialize (IH (pre ++ [x])%list rest).
      rewrite length_app, <- app_assoc in IH. simpl in IH.
      replace (length pre + 1) with (S (length pre)) in IH by lia.
      rewrite IH.
      * by rewrite <- app_assoc.
      * apply Forall_app. split; [done|]. constructor; [|done].
        by rewrite Hx.
      * done.
      * destruct rest; [done|]. simpl in Hapart. apply Hapart.
      * simpl in Hfuel. lia.
Qed.

(** X20.  The handler's pruning drops every unbound dimension when no two
    of them are neighbours: for a candidate whose dimensions all have a
    name and a value, and of which no two in a row have a value equal to
    their name, what is left is exactly the bound dimensions. *)
Theorem pruning_complete_when_apart alarm :
  Forall (fun d : gmap string pyval =>
            is_Some (d !! "Name") /\ is_Some (d !! "Value")) (dimensions alarm) ->
  apart (dimensions alarm) ->
  prune_dimensions alarm
  = Ok (set_dimensions (List.filter is_bound (dimensions alarm)) alarm).
Proof.
  intros Hkeys Hapart. unfold prune_dimensions.
  pose proof (prune_loop_apart (length (dimensions alarm)) [] (dimensions alarm))
    as Hloop.
  simpl in Hloop. by rewrite Hloop.
Qed.

(** ** No signal lost, no value invented *)

Section Completeness.
Variable cfg : config.
Variable load_table_item : catalog.
Variables (ev : event) (identifier resource_id : pyval).
Hypothesis Hregion : is_Some (entries ev !! "region").
Hypothesis Haccount : is_Some (entries ev !! "account").

Lemma meta_loop_extends disk metas (alarms : list item) :
  exists more,
    meta_loop cfg load_table_item identifier resource_id ev disk metas alarms
    = Ok (alarms ++ more)%list.
Proof.
  revert alarms. induction metas as [|m metas IH]; intros alarms; simpl.
  - exists []. by rewrite app_nil_r.
  - destruct (get_table_item_total cfg load_table_item (md_service m) (md_metric m)
                (md_priority_token m) (md_tag_value m) identifier resource_id ev
                (Some disk) Hregion Haccount) as [[alarm|] ->]; simpl.
    + destruct (IH (alarms ++ [alarm])%list) as [more ->].
      exists (alarm :: more). by rewrite <- app_assoc.
    + apply IH.
Qed.

Lemma disk_loop_extends disks metas (alarms : list item) :
  exists more,
    disk_loop cfg load_table_item identifier resource_id ev disks metas alarms
    = Ok (alarms ++ more)%list.
Proof.
  revert alarms. induction disks as [|disk disks IH]; intros alarms; simpl.
  - exists []. by rewrite app_nil_r.
  - destruct (meta_loop_extends disk metas alarms) as [more1 ->]. simpl.
    destruct (IH (alarms ++ more1)%list) as [more2 ->].
    exists (more1 ++ more2)%list. by rewrite <- app_assoc.
Qed.

Lemma tag_loop_includes pre k v post s m p tpl :
  parse_tag_key k = Some (s, m, p) ->
  is_disk_metric cfg m = false ->
  load_table_item s m = Some tpl ->
  exists it found metas,
    get_table_item cfg load_table_item s m p v identifier resource_id ev None
    = Ok (Some it)
    /\ tag_loop cfg load_table_item identifier resource_id ev
         (pre ++ (k, v) :: post) [] []
       = Ok (found, metas)
    /\ it ∈ found.
Proof.
  intros Hk Hdm Hload.
  destruct (get_table_item_ok cfg load_table_item s m p v identifier resource_id
              ev None tpl Hload Hregion Haccount) as [arn Hit].
  destruct (tag_loop_ok cfg load_table_item ev identifier resource_id
              Hregion Haccount pre) as [found1 H1].
  destruct (tag_loop_ok cfg load_table_item ev identifier resource_id
              Hregion Haccount post) as [found2 H2].
  eexists _, _, _. split; [exact Hit|].
  rewrite tag_loop_app, H1. simpl. rewrite Hk, Hdm, Hit. simpl. rewrite H2.
  split; [done|].
  apply elem_of_app. left. apply elem_of_app. right. apply list_elem_of_here.
Qed.
End Completeness.

(** X25.  No resolvable signal is lost: on an event that carries
    identifier, resource id, region and account, every tag that asks for a
    metric other than the disk metrics and has its template in the catalog
    has its candidate in the output, whatever the other tags and the
    disks. *)
Theorem resolvable_tag_answered (cfg : config) (load_table_item : catalog)
    ev disks k v s m p tpl :
  py_truthy (get (entries ev) "identifier") = true ->
  py_truthy (get (entries ev) "resource_id") = true ->
  is_Some (entries ev !! "region") ->
  is_Some (entries ev !! "account") ->
  (k, v) ∈ tags ev ->
  parse_tag_key k = Some (s, m, p) ->
  is_disk_metric cfg m = false ->
  load_table_item s m = Some tpl ->
  exists alarms it,
    get_alarms cfg load_table_item ev disks = Ok alarms
    /\ get_table_item cfg load_table_item s m p v
         (get (entries ev) "identifier") (get (entries ev) "resource_id") ev None
       = Ok (Some it)
    /\ it ∈ alarms.
Proof.
  intros Hid Hrid Hr Ha Hin Hk Hdm Hload.
  apply list_elem_of_split in Hin as (pre & post & Htags).
  destruct (tag_loop_includes cfg load_table_item ev
              (get (entries ev) "identifier") (get (entries ev) "resource_id")
              Hr Ha pre k v post s m p tpl Hk Hdm Hload)
    as (it & found & metas & Hit & Hloop & Hfound).
  destruct (disk_loop_extends cfg load_table_item ev
              (get (entries ev) "identifier") (get (entries ev) "resource_id")
              Hr Ha disks metas found) as [more Hmore].
  exists (found ++ more)%list, it.
  unfold get_alarms. rewrite Hid, Hrid, Htags. simpl. rewrite Hloop. simpl.
  split; [exact Hmore|]. split; [exact Hit|].
  apply elem_of_app. by left.
Qed.

Section Invented.
Variable cfg : config.
Variable load_table_item : catalog.

Lemma apply_threshold_from tok raw ts t it :
  t ∈ ts ->
  from_tag_or_tier tok raw ts it ->
  from_tag_or_tier tok raw ts (apply_threshold tok it t).
Proof.
  intros Hin [Hthr Hcrit]. unfold from_tag_or_tier.
  destruct t as [t| [|prio [|value rest]] |t]; simpl; try done.
  - destruct (py_eq (get t "priority") (PStr tok)) eqn:Hp; [|done].
    assert (tier_matches tok (TDict t) = true) as Hm by done.
    destruct (t !! "threshold") as [v|] eqn:Hv;
      destruct (t !! "criticality") as [c|] eqn:Hc;
      destruct (lower_is_true (threshold it)); simpl;
      (split;
       [ first [ exact Hthr | right; exists (TDict t); by rewrite ?Hv ]
       | first [ exact Hcrit
               | right; right; exists (TDict t), c; simpl; by rewrite ?Hc ] ]).
  - destruct (py_eq prio (PStr tok) && lower_is_true (threshold it)) eqn:Hp;
      [|done].
    apply andb_true_iff in Hp as [Hp _].
    unfold setdefault_criticality. simpl.
    destruct (criticality it) as [c|] eqn:Hc; simpl.
    + split; [right; by exists (TSeq (prio :: value :: rest))|].
      rewrite Hc. exact Hcrit.
    + split; [right; by exists (TSeq (prio :: value :: rest))|]. right. by left.
Qed.

Lemma apply_thresholds_from tok raw ts : forall l it,
  (forall t, t ∈ l -> t ∈ ts) ->
  from_tag_or_tier tok raw ts it ->
  from_tag_or_tier tok raw ts (apply_thresholds tok l it).
Proof.
  unfold apply_thresholds.
  induction l as [|t l IH]; intros it Hsub Hit; simpl; [done|].
  apply IH.
  - intros t' Ht'. apply Hsub. by apply list_elem_of_further.
  - apply apply_threshold_from; [|done]. apply Hsub. apply list_elem_of_here.
Qed.

(** X26.  The resolver invents no value: the threshold of a candidate is
    the raw tag value or the value of a tier of its template that speaks
    for the signal's priority, and its criticality is the priority token
    or the criticality of such a tier. *)
Theorem threshold_from_tag_or_tier svc m tok raw identifier resource_id ev disk it :
  get_table_item cfg load_table_item svc m tok raw
    identifier resource_id ev disk = Ok (Some it) ->
  exists tpl,
    load_table_item svc m = Some tpl
    /\ (threshold it = raw
        \/ exists t, t ∈ AlarmConfigTable.thresholds tpl
                     /\ tier_matches tok t = true
                     /\ tier_value t = Some (threshold it))
    /\ (criticality it = Some (PStr tok)
        \/ exists t, t ∈ AlarmConfigTable.thresholds tpl
                     /\ tier_matches tok t = true
                     /\ tier_criticality t = criticality it
                     /\ is_Some (criticality it)).
Proof.
  intros (tpl & arn & Hload & _ & ->)%get_table_item_inv.
  exists tpl. split; [done|].
  rewrite emitted_threshold, emitted_criticality.
  rewrite resolve_threshold, resolve_criticality.
  destruct (apply_thresholds_from tok raw (AlarmConfigTable.thresholds tpl)
              (AlarmConfigTable.thresholds tpl)
              (base_item tpl svc m tok raw)) as [Hthr Hcrit].
  - done.
  - split; left; reflexivity.
  - split; [exact Hthr|].
    destruct Hcrit as [->|[->|(t & c & Hin & Hm & Hc & ->)]]; simpl; try by left.
    right. exists t. split; [done|]. split; [done|]. split; [done|]. by eexists.
Qed.
End Invented.

(** ** When the handler looks for disks *)

(** X21.  The handler consults the platform reader and the command service
    only for an event whose service is [ec2], whose resource type is
    [instance] and whose [cloudwatch] entry equals [True]: for any other
    event its outcome is the same whatever those services answer. *)
Theorem discovery_only_for_instances cfg load_table_item w w' ev :
  sts_assume_role w = sts_assume_role w' ->
  session_credentials w = session_credentials w' ->
  py_eq (get (entries ev) "service") (PStr "ec2")
  && py_eq (get (entries ev) "resource_type") (PStr "instance")
  && py_eq (get (entries ev) "cloudwatch") (PBool true) = false ->
  lambda_handler cfg load_table_item w ev = lambda_handler cfg load_table_item w' ev.
Proof.
  intros Hsts Hcred Hnot. unfold lambda_handler, assume_role.
  rewrite Hsts, Hcred.
  destruct (entries ev !! "region"), (entries ev !! "account"); try done.
  destruct (sts_assume_role w') as [[]|]; [|done].
  destruct (session_credentials w') as [[]|]; [|done].
  unfold getitem, get, get_or in *.
  destruct (entries ev !! "service") as [service|]; [|done].
  simpl in Hnot. cbn [mbind result_bind].
  destruct (py_eq service (PStr "ec2")); [|done].
  destruct (entries ev !! "resource_type") as [resource_type|]; [|done].
  simpl in Hnot. cbn [mbind result_bind].
  destruct (py_eq resource_type (PStr "instance")); [|done].
  destruct (entries ev !! "cloudwatch") as [cloudwatch|]; [|done].
  simpl in Hnot. cbn [mbind result_bind].
  by rewrite Hnot.
Qed.

(** ** The agent configuration function *)

Section AgentFacts.

Lemma check_cloudwatch_agent_ends s os_type :
  is_Some (ConfigureEc2.check_cloudwatch_agent s os_type).
Proof.
  unfold ConfigureEc2.check_cloudwatch_agent. destruct os_type as [os_type|]; [|by eexists].
  destruct (String.eqb (lower os_type) "windows").
  - destruct (ConfigureEc2.submit_command s _ _) as [install|]; [|by eexists].
    destruct (wait_for_command_ends install 0 180 5) as [[r|e] ->]; [lia| |by eexists].
    destruct (ConfigureEc2.submit_command s _ _) as [configure|]; [|by eexists].
    destruct (wait_for_command_ends configure 0 180 5) as [[r'|e] ->];
      [lia|by eexists|by eexists].
  - destruct (ConfigureEc2.submit_command s _ _) as [install|]; [|by eexists].
    destruct (wait_for_command_ends install 0 180 5) as [[r|e] ->]; [lia| |by eexists].
    destruct (ConfigureEc2.submit_command s _ _) as [configure|]; [|by eexists].
    destruct (wait_for_command_ends configure 0 180 5) as [[r'|e] ->];
      [lia|by eexists|by eexists].
Qed.

(** X22.  The handler of the agent configuration ends, and it raises in
    two cases only: its own [ValueError] when the resource id or the
    region of the event is missing or empty, and what assuming the role or
    building the session raised.  A failure to detect the OS type, to
    submit a command or to see it finish is never raised: the handler then
    returns with [wait_for_metrics] false, and with no OS type the flag is
    always false. *)
Theorem configure_handler_outcome w s ev :
  exists out,
    ConfigureEc2.lambda_handler w s ev = Some out
    /\ match out with
       | ConfigureEc2.Failed ConfigureEc2.ValueError =>
           py_truthy (get (entries ev) "resource_id") = false
           \/ py_truthy (get (entries ev) "region") = false
       | ConfigureEc2.Failed (ConfigureEc2.Escaped e) =>
           assume_role w ev = Raise e \/ session_credentials w = Raise e
       | ConfigureEc2.Done (os_type, wait_for_metrics) =>
           os_type = ConfigureEc2.check_os_type s
           /\ (os_type = None -> wait_for_metrics = false)
       end.
Proof.
  unfold ConfigureEc2.lambda_handler.
  destruct (py_truthy (get (entries ev) "resource_id")) eqn:Hrid; simpl.
  2: { eexists. split; [done|]. by left. }
  destruct (py_truthy (get (entries ev) "region")) eqn:Hregion; simpl.
  2: { eexists. split; [done|]. by right. }
  destruct (assume_role w ev) as [[]|e] eqn:Hrole.
  2: { eexists. split; [done|]. by left. }
  destruct (session_credentials w) as [[]|e] eqn:Hcred.
  2: { eexists. split; [done|]. by right. }
  destruct (check_cloudwatch_agent_ends s (ConfigureEc2.check_os_type s)) as [flag Hflag].
  rewrite Hflag. eexists. split; [done|]. split; [done|].
  intros Hos. rewrite Hos in Hflag. by injection Hflag as <-.
Qed.

(** X23.  The agent check reports success whatever the terminal status of
    its commands: when the installation and the configuration are each
    accepted and each reach Success, Failed, Cancelled or TimedOut at a
    polling instant before their deadline, the check returns true, also
    for an installation that failed. *)
Theorem agent_check_ignores_status s os_type install configure ki kc ri rc :
  ConfigureEc2.submit_command s
    (if String.eqb (lower os_type) "windows"
     then "AWS-ConfigureAWSPackage" else ConfigureEc2.SSM_DOC_MANAGE_AGENT)
    (if String.eqb (lower os_type) "windows" then "Install" else "install")
  = Ok install ->
  ConfigureEc2.submit_command s ConfigureEc2.SSM_DOC_MANAGE_AGENT "configure" = Ok configure ->
  ki * 5 < 180 -> kc * 5 < 180 ->
  (forall j, j < ki -> unfinished (get_command_invocation install (j * 5))) ->
  (forall j, j < kc -> unfinished (get_command_invocation configure (j * 5))) ->
  get_command_invocation install (ki * 5) = Ok ri ->
  get_command_invocation configure (kc * 5) = Ok rc ->
  Status ri ∈ ["Success"; "Failed"; "Cancelled"; "TimedOut"] ->
  Status rc ∈ ["Success"; "Failed"; "Cancelled"; "TimedOut"] ->
  ConfigureEc2.check_cloudwatch_agent s (Some os_type) = Some true.
Proof.
  intros Hi Hc Hki Hkc Hbi Hbc Hri Hrc Hsi Hsc.
  assert (wait_for_command install 0 180 5 = Some (Ok ri)) as Hwi.
  { rewrite <- Hri. unfold wait_for_command.
    apply (wait_loop_first install (0 + 180) 5 ki); [done| |lia|lia].
    simpl. rewrite Hri. simpl. by intros H. }
  assert (wait_for_command configure 0 180 5 = Some (Ok rc)) as Hwc.
  { rewrite <- Hrc. unfold wait_for_command.
    apply (wait_loop_first configure (0 + 180) 5 kc); [done| |lia|lia].
    simpl. rewrite Hrc. simpl. by intros H. }
  unfold ConfigureEc2.check_cloudwatch_agent.
  destruct (String.eqb (lower os_type) "windows"); by rewrite Hi, Hwi, Hc, Hwc.
Qed.

(** X24.  When the installation is accepted but stays unfinished at every
    polling instant of its 180 seconds, the agent check returns false,
    whatever the configuration command would do. *)
Theorem agent_check_false_on_timeout s os_type install :
  ConfigureEc2.submit_command s
    (if String.eqb (lower os_type) "windows"
     then "AWS-ConfigureAWSPackage" else ConfigureEc2.SSM_DOC_MANAGE_AGENT)
    (if String.eqb (lower os_type) "windows" then "Install" else "install")
  = Ok install ->
  (forall k, k * 5 < 180 -> unfinished (get_command_invocation install (k * 5))) ->
  ConfigureEc2.check_cloudwatch_agent s (Some os_type) = Some false.
Proof.
  intros Hi Hun.
  assert (wait_for_command install 0 180 5 = Some (Raise TimeoutError)) as Hwi.
  { unfold wait_for_command. apply wait_loop_expires; [lia|lia|].
    intros k Hk. apply Hun. lia. }
  unfold ConfigureEc2.check_cloudwatch_agent.
  destruct (String.eqb (lower os_type) "windows"); by rewrite Hi, Hwi.
Qed.
End AgentFacts.

(** ** The further properties on the scenarios *)

Lemma pending_unfinished t :
  unfinished (get_command_invocation Seed.quiet t).
Proof.
  simpl. intros H.
  repeat (apply elem_of_cons in H as [H|H]; [discriminate|]).
  by apply elem_of_nil in H.
Qed.

Lemma unparsed_tag_ignored_witness :
  get_alarms Seed.cfg Seed.table
    (with_tags More.ev
       ([(Scenario.cpu_tag, PStr "true")] ++ ("Monitor:P1", PStr "true") :: []))
    Scenario.two_disks
  = get_alarms Seed.cfg Seed.table
      (with_tags More.ev ([(Scenario.cpu_tag, PStr "true")] ++ []))
      Scenario.two_disks.
Proof.
  apply (unparsed_tag_ignored Seed.cfg Seed.table More.ev
           [(Scenario.cpu_tag, PStr "true")] "Monitor:P1" (PStr "true") []
           Scenario.two_disks).
  reflexivity.
Defined.

Lemma missing_template_skipped_witness :
  get_alarms Seed.cfg Seed.table
    (with_tags More.ev
       ([(Scenario.cpu_tag, PStr "true")]
        ++ ("Org:Monitor:EC2:NetworkIn:P2", PStr "true") :: []))
    Scenario.two_disks
  = get_alarms Seed.cfg Seed.table
      (with_tags More.ev ([(Scenario.cpu_tag, PStr "true")] ++ []))
      Scenario.two_disks.
Proof.
  apply (missing_template_skipped Seed.cfg Seed.table More.ev
           [(Scenario.cpu_tag, PStr "true")] "Org:Monitor:EC2:NetworkIn:P2"
           (PStr "true") [] Scenario.two_disks "EC2" "NetworkIn" "P2").
  - reflexivity.
  - reflexivity.
Defined.

Lemma disk_tag_without_disks_witness :
  get_alarms Seed.cfg Seed.table
    (with_tags More.ev
       ([(Scenario.cpu_tag, PStr "true")] ++ (Scenario.disk_tag, PStr "true") :: []))
    []
  = get_alarms Seed.cfg Seed.table
      (with_tags More.ev ([(Scenario.cpu_tag, PStr "true")] ++ [])) [].
Proof.
  apply (disk_tag_without_disks Seed.cfg Seed.table More.ev
           [(Scenario.cpu_tag, PStr "true")] Scenario.disk_tag (PStr "true") []).
  reflexivity.
Defined.

Lemma template_fields_copied_witness :
  exists tpl,
    Seed.table "EC2" "CPUUtilization" = Some tpl
    /\ priority More.cpu_candidate = "P1"
    /\ metric More.cpu_candidate = "CPUUtilization"
    /\ service More.cpu_candidate = "EC2"
    /\ actions_enabled More.cpu_candidate = AlarmConfigTable.actions_enabled tpl
    /\ comparison_operator More.cpu_candidate = AlarmConfigTable.comparison_operator tpl
    /\ datapoints_to_alarm More.cpu_candidate = AlarmConfigTable.datapoints_to_alarm tpl
    /\ evaluation_periods More.cpu_candidate = AlarmConfigTable.evaluation_periods tpl
    /\ namespace More.cpu_candidate = AlarmConfigTable.namespace tpl
    /\ period More.cpu_candidate = AlarmConfigTable.period tpl
    /\ statistic More.cpu_candidate = AlarmConfigTable.statistic tpl
    /\ treat_missing_data More.cpu_candidate = AlarmConfigTable.treat_missing_data tpl
    /\ alarm_description More.cpu_candidate = AlarmConfigTable.alarm_description tpl.
Proof.
  apply (template_fields_copied Seed.cfg Seed.table "EC2" "CPUUtilization" "P1"
           (PStr "true") (PStr "InstanceId") (PStr "i-123") More.ev None).
  vm_compute. reflexivity.
Defined.

Lemma no_tier_defaults_witness :
  exists it,
    get_table_item Seed.cfg Scenario.literal_table "EC2" "requests" "P2" (PStr "true")
      (PStr "InstanceId") (PStr "i-123") More.ev None = Ok (Some it)
    /\ threshold it = PStr "true" /\ criticality it = Some (PStr "P2").
Proof.
  eexists. split; [vm_compute; reflexivity|].
  apply (no_tier_defaults Seed.cfg Scenario.literal_table "EC2" "requests" "P2"
           (PStr "true") (PStr "InstanceId") (PStr "i-123") More.ev None
           (Scenario.with_dimensions
              [Seed.placeholder "InstanceId"; DDict Scenario.environment_dimension])).
  - reflexivity.
  - repeat constructor.
  - vm_compute. reflexivity.
Defined.

Lemma pair_tier_override_witness :
  exists it,
    get_table_item Seed.cfg Shapes.pair_table "EC2" "requests" "P1" (PStr "True")
      (PStr "InstanceId") (PStr "i-123") More.ev None = Ok (Some it)
    /\ threshold it = PInt 70 /\ criticality it = Some (PStr "P1").
Proof.
  eexists. split; [vm_compute; reflexivity|].
  apply (pair_tier_override Seed.cfg Shapes.pair_table "EC2" "requests" "P1"
           (PStr "True") (PStr "InstanceId") (PStr "i-123") More.ev None
           (Shapes.with_thresholds [Seed.tier3 "Low" 80 "P3"; TSeq Shapes.pair_tier])
           [Seed.tier3 "Low" 80 "P3"] (PStr "P1") (PInt 70) [] []).
  - reflexivity.
  - reflexivity.
  - reflexivity.
  - repeat constructor.
  - vm_compute. reflexivity.
Defined.

Lemma duplicate_tiers_witness :
  exists it,
    get_table_item Seed.cfg Shapes.twice_table "EC2" "requests" "P1" (PStr "true")
      (PStr "InstanceId") (PStr "i-123") More.ev None = Ok (Some it)
    /\ threshold it = PInt 95 /\ criticality it = Some (PStr "High").
Proof.
  eexists. split; [vm_compute; reflexivity|].
  apply (duplicate_tiers_first_and_last Seed.cfg Shapes.twice_table "EC2" "requests"
           "P1" (PStr "true") (PStr "InstanceId") (PStr "i-123") More.ev None
           (Shapes.with_thresholds
              [TDict Scenario.p1_tier; Seed.tier3 "Low" 80 "P3";
               TDict Shapes.second_tier])
           [] Scenario.p1_tier [Seed.tier3 "Low" 80 "P3"] Shapes.second_tier []
           (PInt 95) (PInt 60) (PStr "Critical") (PStr "High")).
  - reflexivity.
  - reflexivity.
  - vm_compute. reflexivity.
  - vm_compute. reflexivity.
  - vm_compute. reflexivity.
  - vm_compute. reflexivity.
  - vm_compute. reflexivity.
  - vm_compute. reflexivity.
  - repeat constructor.
  - reflexivity.
  - vm_compute. discriminate.
  - vm_compute. reflexivity.
Defined.

Lemma dimensions_follow_template_witness :
  exists ds,
    dimensions More.memory_candidate
    = (ds ++ disk_dimensions Seed.cfg "mem_used_percent" None)%list
    /\ Forall2 (fun e d => exists dim,
                   e = DDict dim
                   /\ is_Some (d !! "Value")
                   /\ forall key, key <> "Value" -> d !! key = dim !! key)
         (AlarmConfigTable.dimensions Seed.mem_used_percent) ds.
Proof.
  apply (dimensions_follow_template Seed.cfg Seed.table "EC2" "mem_used_percent" "P1"
           (PStr "true") (PStr "InstanceId") (PStr "i-123") Scenario.memory_event
           None Seed.mem_used_percent).
  - reflexivity.
  - repeat constructor; eexists; (split; [reflexivity|]); vm_compute; by eexists.
  - vm_compute. reflexivity.
Defined.

Lemma candidates_answer_tags_witness :
  Forall (fun it =>
            (exists k v, (k, v) ∈ tags Scenario.disk_event
                         /\ parse_tag_key k
                            = Some (service it, metric it, priority it))
            /\ is_Some (Seed.table (service it) (metric it))) More.disk_run.
Proof.
  apply (candidates_answer_tags Seed.cfg Seed.table Scenario.disk_event
           Scenario.two_disks).
  vm_compute. reflexivity.
Defined.

Lemma fan_out_disk_major_witness :
  exists others commons,
    get_alarms Seed.cfg Seed.table Scenario.disk_event [] = Ok others
    /\ Forall2 (fun m c =>
                  get_table_item Seed.cfg Seed.table (md_service m) (md_metric m)
                    (md_priority_token m) (md_tag_value m)
                    (get (entries Scenario.disk_event) "identifier")
                    (get (entries Scenario.disk_event) "resource_id")
                    Scenario.disk_event None
                  = Ok (Some c))
         (filter (fun m => is_Some (Seed.table (md_service m) (md_metric m)))
            (omap (disk_request Seed.cfg) (tags Scenario.disk_event)))
         commons
    /\ get_alarms Seed.cfg Seed.table Scenario.disk_event Scenario.two_disks
       = Ok (others
             ++ concat (map (fun disk =>
                               map (fun c => fan_out Scenario.disk_event c disk)
                                 commons)
                          Scenario.two_disks))%list
    /\ length (concat (map (fun disk =>
                              map (fun c => fan_out Scenario.disk_event c disk)
                                commons)
                         Scenario.two_disks))
       = length Scenario.two_disks * length commons.
Proof.
  apply (fan_out_disk_major Seed.cfg Seed.table Scenario.disk_event Scenario.two_disks).
  - reflexivity.
  - reflexivity.
  - vm_compute. eexists. reflexivity.
  - vm_compute. eexists. reflexivity.
  - repeat constructor; discriminate.
Defined.

Lemma root_disk_discovered : More.root_disk ∈ discover_disks More.ready "Linux".
Proof. vm_compute. apply list_elem_of_here. Qed.

Lemma discovered_descriptor_shape_witness :
  exists device fstype path,
    More.root_disk = [("device", device); ("fstype", fstype); ("path", path)]
    /\ has_char "/" device = false
    /\ fstype <> "" /\ spaceless fstype
    /\ path <> "" /\ spaceless path.
Proof.
  apply (discovered_descriptor_shape More.ready "Linux" More.root_disk).
  vm_compute. apply list_elem_of_here.
Defined.

Lemma discovered_disk_in_name_witness :
  exists it q crit,
    get_table_item Seed.cfg Seed.table "EC2" "disk_used_percent" "P1" (PStr "true")
      (PStr "InstanceId") (PStr "i-123") Scenario.disk_event (Some More.root_disk)
    = Ok (Some it)
    /\ disk_value More.root_disk = Some q /\ q <> ""
    /\ criticality it = Some crit
    /\ alarm_name it
       = Some (name_stem Scenario.disk_event "disk_used_percent" ++ "-'" ++ q ++ "'"
               ++ "-Severity: " ++ py_str crit).
Proof.
  apply (discovered_disk_in_name Seed.cfg Seed.table More.ready "Linux"
           More.root_disk "EC2" "disk_used_percent" "P1" (PStr "true")
           (PStr "InstanceId") (PStr "i-123") Scenario.disk_event
           Seed.disk_used_percent).
  - vm_compute. apply list_elem_of_here.
  - reflexivity.
  - reflexivity.
  - repeat constructor; intros [H|H]; discriminate.
  - vm_compute. eexists. reflexivity.
  - vm_compute. eexists. reflexivity.
Defined.

(** The root disk and the data disk of one listing: two names. *)
Lemma discovered_disks_named_apart_witness :
  exists it it',
    get_table_item Seed.cfg Seed.table "EC2" "disk_used_percent" "P1" (PStr "true")
      (PStr "InstanceId") (PStr "i-123") Scenario.disk_event (Some More.root_disk)
    = Ok (Some it)
    /\ get_table_item Seed.cfg Seed.table "EC2" "disk_used_percent" "P1" (PStr "true")
         (PStr "InstanceId") (PStr "i-123") Scenario.disk_event (Some More.data_disk)
       = Ok (Some it')
    /\ alarm_name it <> alarm_name it'.
Proof.
  destruct (get_table_item_ok Seed.cfg Seed.table "EC2" "disk_used_percent" "P1"
              (PStr "true") (PStr "InstanceId") (PStr "i-123")
              Scenario.disk_event (Some More.root_disk) Seed.disk_used_percent)
    as [arn Hit].
  { reflexivity. }
  { vm_compute. eexists. reflexivity. }
  { vm_compute. eexists. reflexivity. }
  destruct (get_table_item_ok Seed.cfg Seed.table "EC2" "disk_used_percent" "P1"
              (PStr "true") (PStr "InstanceId") (PStr "i-123")
              Scenario.disk_event (Some More.data_disk) Seed.disk_used_percent)
    as [arn' Hit'].
  { reflexivity. }
  { vm_compute. eexists. reflexivity. }
  { vm_compute. eexists. reflexivity. }
  eexists _, _. split; [exact Hit|]. split; [exact Hit'|].
  apply (discovered_disks_named_apart Seed.cfg Seed.table More.ready "Linux"
           More.ready "Linux" More.root_disk More.data_disk "EC2"
           "disk_used_percent" "P1" (PStr "true") (PStr "InstanceId")
           (PStr "i-123") Scenario.disk_event Seed.disk_used_percent _ _).
  - vm_compute. apply list_elem_of_here.
  - vm_compute. apply list_elem_of_further, list_elem_of_here.
  - reflexivity.
  - reflexivity.
  - repeat constructor; intros [H|H]; discriminate.
  - exact Hit.
  - exact Hit'.
  - discriminate.
Defined.

Example names_of_the_two_disks :
  (first ← get_table_item Seed.cfg Seed.table "EC2" "disk_used_percent" "P1"
             (PStr "true") (PStr "InstanceId") (PStr "i-123")
             Scenario.disk_event (Some More.root_disk);
   second ← get_table_item Seed.cfg Seed.table "EC2" "disk_used_percent" "P1"
              (PStr "true") (PStr "InstanceId") (PStr "i-123")
              Scenario.disk_event (Some More.data_disk);
   Ok (first ≫= alarm_name, second ≫= alarm_name))
  = Ok (Some "acme-111122223333-ec2-instance-i-123-disk_used_percent-'/'-Severity: Critical",
        Some "acme-111122223333-ec2-instance-i-123-disk_used_percent-'/data'-Severity: Critical").
Proof. vm_compute. reflexivity. Qed.

Lemma wait_for_command_outcome_witness :
  exists out,
    wait_for_command Scenario.late 0 180 5 = Some out
    /\ match out with
       | Ok resp => Status resp ∈ ["Success"; "Failed"; "Cancelled"; "TimedOut"]
       | Raise (ClientError code) => code <> "InvocationDoesNotExist"
       | Raise _ => True
       end.
Proof. apply (wait_for_command_outcome Scenario.late 0 180 5). lia. Defined.

Lemma wait_for_command_first_decisive_witness :
  wait_for_command Scenario.late 0 180 5
  = Some (get_command_invocation Scenario.late (0 + 2 * 5)).
Proof.
  apply (wait_for_command_first_decisive Scenario.late 0 180 5 2).
  - lia.
  - lia.
  - intros j Hj. destruct j as [|[|j]]; [reflexivity|reflexivity|lia].
  - vm_compute. intros H. apply H. apply list_elem_of_here.
Defined.

Lemma wait_for_command_expires_witness :
  wait_for_command Seed.quiet 0 180 5 = Some (Raise TimeoutError).
Proof.
  apply (wait_for_command_expires Seed.quiet 0 180 5).
  - lia.
  - intros k _. apply pending_unfinished.
Defined.

Lemma wait_for_command_before_deadline_witness :
  wait_for_command Scenario.late 0 180 5
  = wait_for_command More.late_then_lost 0 180 5.
Proof.
  apply (wait_for_command_before_deadline Scenario.late More.late_then_lost 0 180 5).
  intros t Ht. simpl. destruct (Nat.ltb_spec t 180); [reflexivity|lia].
Defined.

Lemma pruning_keeps_bound_dimensions_witness :
  List.filter is_bound
    (dimensions (set_dimensions
                   [name_value (PStr "InstanceId") (PStr "i-123");
                    name_value (PStr "ImageId") (PStr "ImageId")]
                   More.memory_candidate))
  = List.filter is_bound (dimensions More.memory_candidate)
  /\ set_dimensions
       [name_value (PStr "InstanceId") (PStr "i-123");
        name_value (PStr "ImageId") (PStr "ImageId")]
       More.memory_candidate
     = set_dimensions
         (dimensions (set_dimensions
                        [name_value (PStr "InstanceId") (PStr "i-123");
                         name_value (PStr "ImageId") (PStr "ImageId")]
                        More.memory_candidate))
         More.memory_candidate.
Proof.
  apply (pruning_keeps_bound_dimensions More.memory_candidate).
  vm_compute. reflexivity.
Defined.

Lemma pruning_complete_when_apart_witness :
  prune_dimensions More.spaced
  = Ok (set_dimensions (List.filter is_bound (dimensions More.spaced)) More.spaced).
Proof.
  apply (pruning_complete_when_apart More.spaced).
  - repeat constructor; vm_compute; by eexists.
  - simpl. split; [left; reflexivity|]. split; [right; reflexivity|done].
Defined.

Lemma discovery_only_for_instances_witness :
  lambda_handler Seed.cfg Seed.table Scenario.late More.database_event
  = lambda_handler Seed.cfg Seed.table More.ready More.database_event.
Proof.
  apply (discovery_only_for_instances Seed.cfg Seed.table Scenario.late More.ready
           More.database_event).
  - reflexivity.
  - reflexivity.
  - reflexivity.
Defined.

Lemma agent_check_ignores_status_witness :
  ConfigureEc2.check_cloudwatch_agent (More.agent "Failed") (Some "Linux") = Some true.
Proof.
  apply (agent_check_ignores_status (More.agent "Failed") "Linux"
           (More.ended "Failed") (More.ended "Success") 0 0
           {| Status := "Failed"; StandardOutputContent := None |}
           {| Status := "Success"; StandardOutputContent := None |}).
  - reflexivity.
  - reflexivity.
  - lia.
  - lia.
  - intros j Hj. lia.
  - intros j Hj. lia.
  - reflexivity.
  - reflexivity.
  - apply list_elem_of_further, list_elem_of_here.
  - apply list_elem_of_here.
Defined.

Lemma agent_check_false_on_timeout_witness :
  ConfigureEc2.check_cloudwatch_agent (More.agent "InProgress") (Some "Linux")
  = Some false.
Proof.
  apply (agent_check_false_on_timeout (More.agent "InProgress") "Linux"
           (More.ended "InProgress")).
  - reflexivity.
  - intros k _. simpl. intros H.
    repeat (apply elem_of_cons in H as [H|H]; [discriminate|]).
    by apply elem_of_nil in H.
Defined.

Lemma resolvable_tag_answered_witness :
  exists alarms it,
    get_alarms Seed.cfg Seed.table Scenario.disk_event Scenario.two_disks = Ok alarms
    /\ get_table_item Seed.cfg Seed.table "EC2" "CPUUtilization" "P1" (PStr "true")
         (get (entries Scenario.disk_event) "identifier")
         (get (entries Scenario.disk_event) "resource_id") Scenario.disk_event None
       = Ok (Some it)
    /\ it ∈ alarms.
Proof.
  apply (resolvable_tag_answered Seed.cfg Seed.table Scenario.disk_event
           Scenario.two_disks Scenario.cpu_tag (PStr "true") "EC2" "CPUUtilization"
           "P1" Seed.cpu_utilization).
  - reflexivity.
  - reflexivity.
  - vm_compute. eexists. reflexivity.
  - vm_compute. eexists. reflexivity.
  - apply list_elem_of_here.
  - reflexivity.
  - reflexivity.
  - reflexivity.
Defined.

Lemma threshold_from_tag_or_tier_witness :
  exists tpl,
    Seed.table "EC2" "CPUUtilization" = Some tpl
    /\ (threshold More.cpu_candidate = PStr "true"
        \/ exists t, t ∈ AlarmConfigTable.thresholds tpl
                     /\ tier_matches "P1" t = true
                     /\ tier_value t = Some (threshold More.cpu_candidate))
    /\ (criticality More.cpu_candidate = Some (PStr "P1")
        \/ exists t, t ∈ AlarmConfigTable.thresholds tpl
                     /\ tier_matches "P1" t = true
                     /\ tier_criticality t = criticality More.cpu_candidate
                     /\ is_Some (criticality More.cpu_candidate)).
Proof.
  apply (threshold_from_tag_or_tier Seed.cfg Seed.table "EC2" "CPUUtilization" "P1"
           (PStr "true") (PStr "InstanceId") (PStr "i-123") More.ev None).
  vm_compute. reflexivity.
Defined.

Lemma literal_threshold_kept_witness :
  threshold
    (emitted Seed.cfg Seed.cpu_utilization "EC2" "CPUUtilization" "P1" (PStr "80")
       (PStr "InstanceId") (PStr "i-123") (Scenario.cpu_event "80") None
       [topic_arn (PStr "eu-west-1") (PStr "111122223333") "P1"])
  = PStr "80".
Proof.
  apply (literal_threshold_kept Seed.cfg Seed.table "EC2" "CPUUtilization" "P1"
           (PStr "80") (PStr "InstanceId") (PStr "i-123") (Scenario.cpu_event "80")
           None).
  - vm_compute. discriminate.
  - vm_compute. reflexivity.
Defined.

Lemma falsy_identifier_no_alarms_witness :
  get_alarms Seed.cfg Seed.table
    (with_tags
       {| entries := <["identifier" := PStr ""]> (entries More.ev);
          tags := []; metadata := ∅ |}
       (tags More.ev))
    Scenario.two_disks
  = Ok [].
Proof.
  apply (falsy_identifier_no_alarms Seed.cfg Seed.table).
  left. reflexivity.
Defined.
